(** * Concert aggregation engine: a shallow embedding and its properties

    The development follows three source units of the application:
    - [TicketmasterService] (server/ticketmasterService.ts): the live event
      provider client;
    - [SetlistFmService] (server/setlistFmService.ts): the historical archive
      provider client;
    - [PostgresStorage] (server/storage.ts): the persisted catalog store and
      the aggregation operation [getConcertsWithHistorical].

    JavaScript strings are modelled as [string]; case folding is the ASCII
    one.  Optional properties ([x?: T], [null], [undefined]) are [option].
    Numbers that the code only uses as sizes and indices are [nat]. *)

From Stdlib Require Import Ascii String.
From Stdlib Require QArith.
From stdpp Require Import base list gmap strings sorting pretty.

Local Open Scope string_scope.

(** ** JavaScript values and string primitives *)

Module JS.

(** [s ? a : b] on a string: only the empty string is falsy. *)
Definition truthy (s : string) : bool :=
  match s with EmptyString => false | String _ _ => true end.

(** [o ? a : b] on an optional string. *)
Definition truthy_opt (o : option string) : bool :=
  match o with Some s => truthy s | None => false end.

(** [a || b] where [a] is an optional string and [b] a string. *)
Definition or_str (a : option string) (b : string) : string :=
  match a with
  | Some s => if truthy s then s else b
  | None => b
  end.

(** [a || b] where both sides are optional strings. *)
Definition or_opt (a b : option string) : option string :=
  if truthy_opt a then a else b.

(** [n || d] on a number: [undefined] and [0] are falsy. *)
Definition or_num (n : option nat) (d : nat) : nat :=
  match n with
  | Some (S k) => S k
  | _ => d
  end.

(** A destructuring default [{ n = d }]: only [undefined] takes it. *)
Definition default_num (n : option nat) (d : nat) : nat :=
  match n with Some k => k | None => d end.

(** [b ? .. : ..] on an optional boolean. *)
Definition truthy_bool (b : option bool) : bool :=
  match b with Some true => true | _ => false end.

(** [`${x}`] on a possibly undefined string. *)
Definition template (o : option string) : string :=
  match o with Some s => s | None => "undefined" end.

Definition lower_ascii (c : ascii) : ascii :=
  let n := nat_of_ascii c in
  if (65 <=? n)%nat && (n <=? 90)%nat then ascii_of_nat (n + 32) else c.

Fixpoint toLowerCase (s : string) : string :=
  match s with
  | EmptyString => EmptyString
  | String c s' => String (lower_ascii c) (toLowerCase s')
  end.

Fixpoint startsWith (s p : string) : bool :=
  match p, s with
  | EmptyString, _ => true
  | String _ _, EmptyString => false
  | String a p', String b s' => if Ascii.eqb a b then startsWith s' p' else false
  end.

(** [s.includes(sub)] *)
Fixpoint includes (s sub : string) : bool :=
  startsWith s sub ||
  match s with
  | EmptyString => false
  | String _ s' => includes s' sub
  end.

(** [s.split(sep)] for a one-character separator. *)
Fixpoint split (sep : ascii) (s : string) : list string :=
  match s with
  | EmptyString => [EmptyString]
  | String c s' =>
      if Ascii.eqb c sep then EmptyString :: split sep s'
      else match split sep s' with
           | [] => [String c EmptyString]
           | h :: t => String c h :: t
           end
  end.

Fixpoint repeat_char (c : ascii) (n : nat) : string :=
  match n with O => EmptyString | S k => String c (repeat_char c k) end.

(** [s.padStart(n, c)] for a one-character pad string. *)
Definition padStart (n : nat) (c : ascii) (s : string) : string :=
  repeat_char c (n - String.length s) +:+ s.

(** [l.slice(start, end)] for [0 <= start] and [0 <= end]. *)
Definition slice {A} (l : list A) (start stop : nat) : list A :=
  take (stop - start) (drop start l).

(** [String(n)] *)
Definition String_of_nat (n : nat) : string := pretty n.

End JS.

(** ** Exceptions *)

Inductive Error : Type :=
  | TypeError                       (* property access on undefined *)
  | SyntaxError                     (* response.json() on a malformed body *)
  | FetchFailed                     (* fetch() rejected: network failure *)
  | ApiError (service : string) (status : nat).
                                    (* new Error(`... API error: ${status} ...`) *)

Inductive result (A : Type) : Type :=
  | Ok (a : A)
  | Throw (e : Error).
Arguments Ok {A} a.
Arguments Throw {A} e.

(** [try { body } catch (error) { handler }] for code without other effects. *)
Definition try_pure {A} (body : result A) (handler : Error -> A) : A :=
  match body with Ok a => a | Throw e => handler e end.

(** ** Lists: [Array.prototype.sort] and SQL [ORDER BY] *)

(** A stable sort: [before a b] says that [a] may stand before [b]. *)
Fixpoint insert_by {A} (before : A -> A -> bool) (x : A) (l : list A) : list A :=
  match l with
  | [] => [x]
  | y :: l' => if before x y then x :: l else y :: insert_by before x l'
  end.

Fixpoint sort_by {A} (before : A -> A -> bool) (l : list A) : list A :=
  match l with
  | [] => []
  | x :: l' => insert_by before x (sort_by before l')
  end.

(** ** HTTP and the clock: the effects of the services *)

Record Request : Type := {
  req_url : string;
  req_params : list (string * string);
  req_headers : list (string * string);
}.

Inductive Body (A : Type) : Type :=
  | BodyMalformed                   (* response.json() rejects *)
  | BodyJson (data : A).
Arguments BodyMalformed {A}.
Arguments BodyJson {A} data.

Record Response (A : Type) : Type := {
  status : nat;
  body : Body A;
}.
Arguments status {A} r.
Arguments body {A} r.

(** [response.ok]: the status is in the range 200-299. *)
Definition response_ok {A} (r : Response A) : bool :=
  (200 <=? status r)%nat && (status r <=? 299)%nat.

Inductive FetchOutcome (A : Type) : Type :=
  | Rejected                        (* network failure *)
  | Resolved (r : Response A).
Arguments Rejected {A}.
Arguments Resolved {A} r.

(** What a computation leaves behind: its result, the number of clock
    readings taken so far, and the requests it sent. *)
Record Outcome (A : Type) : Type := {
  res : result A;
  ticks : nat;
  sent : list Request;
}.
Arguments res {A} o.
Arguments ticks {A} o.
Arguments sent {A} o.
Arguments Build_Outcome {A} res ticks sent.

Module Effect.
Section WithEnv.
(** The environment of a computation is fixed for the whole development
    once the data types are known; the monad is parametric in it. *)
Context {Env : Type}.

Definition M (A : Type) : Type := Env -> nat -> Outcome A.

Definition ret {A} (a : A) : M A :=
  fun _ t => Build_Outcome (Ok a) t [].

Definition throw {A} (e : Error) : M A :=
  fun _ t => Build_Outcome (Throw e) t [].

(** Reading the configuration and the store. *)
Definition ask : M Env :=
  fun env t => Build_Outcome (Ok env) t [].

Definition bind {A B} (m : M A) (f : A -> M B) : M B :=
  fun env t =>
    let o := m env t in
    match res o with
    | Ok a =>
        let o' := f a env (ticks o) in
        Build_Outcome (res o') (ticks o') (sent o ++ sent o')
    | Throw e => Build_Outcome (Throw e) (ticks o) (sent o)
    end.

(** [try { body } catch (error) { handler error }] *)
Definition try_catch {A} (body : M A) (handler : Error -> M A) : M A :=
  fun env t =>
    let o := body env t in
    match res o with
    | Ok a => o
    | Throw e =>
        let o' := handler e env (ticks o) in
        Build_Outcome (res o') (ticks o') (sent o ++ sent o')
    end.

(** [await fetch(url, ...)] against a network [net]. *)
Definition fetch {A} (net : Env -> Request -> FetchOutcome A) (rq : Request)
  : M (Response A) :=
  fun env t =>
    match net env rq with
    | Resolved r => Build_Outcome (Ok r) t [rq]
    | Rejected => Build_Outcome (Throw FetchFailed) t [rq]
    end.

(** [await response.json()] *)
Definition json {A} (r : Response A) : M A :=
  match body r with
  | BodyJson d => ret d
  | BodyMalformed => throw SyntaxError
  end.

(** [new Date()]: the next reading of the clock. *)
Definition new_Date (clock : Env -> nat -> Z) : M Z :=
  fun env t => Build_Outcome (Ok (clock env t)) (S t) [].

(** [l.map(f)] for a callback with effects. *)
Fixpoint mapM {A B} (f : A -> M B) (l : list A) : M (list B) :=
  match l with
  | [] => ret []
  | x :: l' =>
      bind (f x) (fun y => bind (mapM f l') (fun ys => ret (y :: ys)))
  end.

End WithEnv.
End Effect.

Notation "'let*' x ':=' m 'in' k" := (Effect.bind m (fun x => k))
  (at level 10, x pattern, m at level 100, k at level 200, only parsing).

(** ** TicketmasterService: the live event provider client *)

Record TmImage : Type := {
  img_ratio : string;
  img_url : string;
  img_width : Z;
  img_height : Z;
}.

Record TmClassification : Type := {
  cls_genre : option string;        (* classification.genre?.name *)
  cls_subGenre : option string;     (* classification.subGenre?.name *)
}.

Record TmVenue : Type := {
  ven_id : string;
  ven_name : string;
  ven_city : string;                (* venue.city.name *)
  ven_stateCode : option string;    (* venue.state?.stateCode *)
  ven_countryCode : string;         (* venue.country.countryCode *)
}.

Record TmAttraction : Type := {
  att_id : string;
  att_name : string;
  att_images : list TmImage;
  att_classifications : list TmClassification;
}.

Record TmPriceRange : Type := {
  pr_min : Z;
  pr_max : Z;
}.

Record TicketmasterEvent : Type := {
  ev_id : string;
  ev_name : string;
  ev_url : string;
  ev_images : list TmImage;
  ev_localDate : string;            (* dates.start.localDate *)
  ev_localTime : option string;     (* dates.start.localTime *)
  ev_statusCode : string;           (* dates.status.code *)
  ev_timezone : string;             (* dates.timezone *)
  ev_classifications : list TmClassification;
  ev_venues : list TmVenue;         (* _embedded?.venues, [] when absent *)
  ev_attractions : list TmAttraction; (* _embedded?.attractions *)
  ev_priceRanges : list TmPriceRange; (* priceRanges, [] when absent *)
}.

Record TicketmasterResponse : Type := {
  tm_events : option (list TicketmasterEvent);  (* data._embedded?.events *)
}.

Record TicketmasterSearchOptions : Type := {
  keyword : option string;
  tm_city : option string;
  stateCode : option string;
  countryCode : option string;
  classificationName : option string;
  size : option nat;
  page : option nat;
  sort : option string;
  startDateTime : option string;
  endDateTime : option string;
  radius : option nat;
  unit : option string;
}.

(** ** SetlistFmService: the data of the historical archive provider *)

Record SetlistFmArtist : Type := {
  art_mbid : string;
  art_name : string;
}.

Record SetlistFmCity : Type := {
  cty_name : string;
  cty_state : option string;
  cty_stateCode : option string;
  cty_countryCode : option string;  (* city.country?.code *)
}.

Record SetlistFmVenue : Type := {
  sv_id : string;
  sv_name : string;
  sv_city : SetlistFmCity;
}.

Record SetlistFmSong : Type := {
  song_name : string;
}.

Record SetlistFmSet : Type := {
  set_song : option (list SetlistFmSong);
  set_encore : option nat;
}.

Record SetlistFmSetlist : Type := {
  sl_id : string;
  sl_eventDate : string;            (* DD-MM-YYYY format *)
  sl_lastUpdated : string;
  sl_artist : SetlistFmArtist;
  sl_venue : SetlistFmVenue;
  sl_sets : option (list SetlistFmSet);  (* setlist.sets?.set *)
  sl_tour : option string;          (* setlist.tour?.name *)
  sl_info : option string;
  sl_url : string;
}.

Record SetlistFmSearchResponse : Type := {
  sfm_setlist : option (list SetlistFmSetlist);  (* data.setlist *)
}.

Record SetlistFmSearchOptions : Type := {
  artistName : option string;
  artistMbid : option string;
  cityName : option string;
  sfm_countryCode : option string;
  sfm_date : option string;
  venueName : option string;
  venueId : option string;
  year : option string;
  state : option string;
  tourName : option string;
  p : option nat;                   (* page number, starts at 1 *)
}.

(** ** The canonical concert *)

(** The columns every concert has, whatever its origin. *)
Record Canonical : Type := {
  id : string;
  artist : string;
  venue : string;
  city : string;
  date : string;
  time : string;
  price : string;
  genre : option string;
  imageUrl : option string;
  ticketUrl : option string;
  description : option string;
}.

(** The properties a transformed provider record carries besides the
    canonical ones; a row of the store has none. *)
Inductive Meta : Type :=
  | LocalMeta
  | TicketmasterMeta
      (ticketmasterId : string) (tmVenueId attractionId : option string)
      (eventStatus timezone : string)
  | SetlistFmMeta
      (setlistFmId setlistFmUrl artistMbidOf venueIdOf : string)
      (setlist : list string) (isHistorical : bool) (lastUpdated : string)
      (tourNameOf concertInfo : option string).

(** The object returned by [transformEvent] and [transformSetlist]. *)
Record External : Type := {
  ext_base : Canonical;
  ext_meta : Meta;
}.

(** [ConcertWithRating]: [Concert & { averageRating?: number; ... }].
    Averages are exact rationals. *)
Record ConcertWithRating : Type := {
  base : Canonical;
  meta : Meta;
  createdAt : option Z;
  updatedAt : option Z;
  averageRating : option QArith_base.Q;
  performanceRating : option QArith_base.Q;
  soundRating : option QArith_base.Q;
  venueRating : option QArith_base.Q;
  valueRating : option QArith_base.Q;
  reviewCount : option nat;
}.

(** ** The persisted catalog store: tables [concerts] and [reviews] *)

Record Concert : Type := {
  c_base : Canonical;
  c_createdAt : option Z;           (* timestamp, nullable *)
  c_updatedAt : option Z;
}.

Record Review : Type := {
  r_id : string;
  r_userId : string;
  r_concertId : string;
  r_overallRating : Z;              (* integer, not null *)
  r_performanceRating : Z;
  r_soundRating : Z;
  r_venueRating : Z;
  r_valueRating : Z;
}.

Record Database : Type := {
  concerts : list Concert;
  reviews : list Review;
}.

(** The primary key of [concerts]. *)
Definition primary_key (d : Database) : Prop :=
  NoDup (map (fun c => id (c_base c)) (concerts d)).

(** ** The environment of one call *)

Record Env : Type := {
  db : Database;
  consumerKey : string;             (* TICKETMASTER_CONSUMER_KEY || '' *)
  apiKey : string;                  (* SETLIST_FM_API_KEY || '' *)
  tm_net : Request -> FetchOutcome TicketmasterResponse;
  tm_event_net : Request -> FetchOutcome TicketmasterEvent;
  sfm_net : Request -> FetchOutcome SetlistFmSearchResponse;
  clock : nat -> Z;                 (* the successive readings of the clock *)
}.

Definition M (A : Type) : Type := @Effect.M Env A.

(** [params.append(k, v)] guarded by [if (v)]. *)
Definition append_if (k : string) (v : option string)
    (ps : list (string * string)) : list (string * string) :=
  match v with
  | Some s => if JS.truthy s then ps ++ [(k, s)] else ps
  | None => ps
  end.

(** The same for a number: [0] is falsy. *)
Definition append_if_num (k : string) (v : option nat)
    (ps : list (string * string)) : list (string * string) :=
  match v with
  | Some (S n) => ps ++ [(k, JS.String_of_nat (S n))]
  | _ => ps
  end.

Module TicketmasterService.

Definition baseUrl : string := "https://app.ticketmaster.com/discovery/v2".

Definition search_request (key : string) (options : TicketmasterSearchOptions)
  : Request :=
  let params :=
    [ ("apikey", key);
      ("classificationName", "music");
      ("size", JS.String_of_nat (JS.or_num (size options) 50));
      ("page", JS.String_of_nat (JS.or_num (page options) 0));
      ("sort", JS.or_str (sort options) "date,asc") ] in
  let params := append_if "keyword" (keyword options) params in
  let params := append_if "city" (tm_city options) params in
  let params := append_if "stateCode" (stateCode options) params in
  let params := append_if "countryCode" (countryCode options) params in
  let params := append_if "classificationName" (classificationName options) params in
  let params := append_if "startDateTime" (startDateTime options) params in
  let params := append_if "endDateTime" (endDateTime options) params in
  let params := append_if_num "radius" (radius options) params in
  let params := append_if "unit" (unit options) params in
  {| req_url := baseUrl +:+ "/events.json";
     req_params := params;
     req_headers := [] |}.

(** [searchEvents]: every non-2xx response raises; the [catch] block logs
    and rethrows. *)
Definition searchEvents (options : TicketmasterSearchOptions)
  : M (list TicketmasterEvent) :=
  Effect.try_catch
    (let* env := Effect.ask in
     if negb (JS.truthy (consumerKey env)) then Effect.ret []
     else
       let* response := Effect.fetch tm_net (search_request (consumerKey env) options) in
       if negb (response_ok response)
       then Effect.throw (ApiError "Ticketmaster" (status response))
       else
         let* data := Effect.json response in
         Effect.ret (default [] (tm_events data)))
    (fun error => Effect.throw error).

Definition event_request (key eventId : string) : Request :=
  {| req_url := baseUrl +:+ "/events/" +:+ eventId +:+ ".json";
     req_params := [("apikey", key)];
     req_headers := [] |}.

(** [getEvent]: the single-event lookup; here a 404 is [null]. *)
Definition getEvent (eventId : string) : M (option TicketmasterEvent) :=
  Effect.try_catch
    (let* env := Effect.ask in
     let* response := Effect.fetch tm_event_net (event_request (consumerKey env) eventId) in
     if negb (response_ok response)
     then
       if (status response =? 404)%nat then Effect.ret None
       else Effect.throw (ApiError "Ticketmaster" (status response))
     else
       let* data := Effect.json response in
       Effect.ret (Some data))
    (fun error => Effect.throw error).

Definition area (img : TmImage) : Z := (img_width img * img_height img)%Z.

(** [getBestImage]: prefer the 16:9 image, fall back to the largest. *)
Definition getBestImage (images : option (list TmImage)) : option string :=
  match images with
  | None | Some [] => None
  | Some imgs =>
      match List.find (fun img => String.eqb (img_ratio img) "16_9") imgs with
      | Some ratio16x9 => Some (img_url ratio16x9)
      | None =>
          let sortedBySize :=
            sort_by (fun a b => (area b - area a <=? 0)%Z) imgs in
          JS.or_opt (img_url <$> head sortedBySize) None
      end
  end.

Definition transformEvent (event : TicketmasterEvent) : External :=
  let venue := head (ev_venues event) in
  let attraction := head (ev_attractions event) in
  let priceRange := head (ev_priceRanges event) in
  let classification :=
    match head (ev_classifications event) with
    | Some c => Some c
    | None => attraction ≫= (fun a => head (att_classifications a))
    end in
  let imageUrl :=
    JS.or_opt (getBestImage (Some (ev_images event)))
              (getBestImage (att_images <$> attraction)) in
  let artistName := JS.or_str (att_name <$> attraction) (ev_name event) in
  let venueName := JS.or_str (ven_name <$> venue) "TBA" in
  {| ext_base :=
       {| id := "tm_" +:+ ev_id event;
          artist := artistName;
          venue := venueName;
          city :=
            match venue with
            | Some v =>
                ven_city v +:+ ", " +:+
                JS.or_str (ven_stateCode v) (ven_countryCode v)
            | None => "TBA"
            end;
          date := ev_localDate event;
          time := JS.or_str (ev_localTime event) "TBA";
          price :=
            match priceRange with
            | Some pr => "$" +:+ pretty (pr_min pr) +:+ "-$" +:+ pretty (pr_max pr)
            | None => "TBA"
            end;
          genre :=
            Some (JS.or_str
                    (JS.or_opt (classification ≫= cls_genre)
                               (classification ≫= cls_subGenre))
                    "Music");
          imageUrl := imageUrl;
          ticketUrl := Some (ev_url event);
          description :=
            Some (artistName +:+ " at " +:+ venueName +:+
                  match venue with
                  | Some v => " in " +:+ ven_city v
                  | None => ""
                  end) |};
     ext_meta :=
       TicketmasterMeta (ev_id event) (ven_id <$> venue) (att_id <$> attraction)
                        (ev_statusCode event) (ev_timezone event) |}.

End TicketmasterService.

Module SetlistFmService.

Definition baseUrl : string := "https://api.setlist.fm/rest/1.0".

Definition search_request (key : string) (options : SetlistFmSearchOptions)
  : Request :=
  let params := [] in
  let params := append_if "artistName" (artistName options) params in
  let params := append_if "artistMbid" (artistMbid options) params in
  let params := append_if "cityName" (cityName options) params in
  let params := append_if "countryCode" (sfm_countryCode options) params in
  let params := append_if "date" (sfm_date options) params in
  let params := append_if "venueName" (venueName options) params in
  let params := append_if "venueId" (venueId options) params in
  let params := append_if "year" (year options) params in
  let params := append_if "state" (state options) params in
  let params := append_if "tourName" (tourName options) params in
  let params := append_if_num "p" (p options) params in
  {| req_url := baseUrl +:+ "/search/setlists";
     req_params := params;
     req_headers :=
       [ ("Accept", "application/json");
         ("x-api-key", key);
         ("User-Agent", "ConcertCritic/1.0") ] |}.

(** [searchSetlists]: the [catch] block returns the empty array. *)
Definition searchSetlists (options : SetlistFmSearchOptions)
  : M (list SetlistFmSetlist) :=
  Effect.try_catch
    (let* env := Effect.ask in
     if negb (JS.truthy (apiKey env)) then Effect.ret []
     else
       let* response := Effect.fetch sfm_net (search_request (apiKey env) options) in
       if negb (response_ok response)
       then
         if (status response =? 404)%nat then Effect.ret []
         else Effect.throw (ApiError "Setlist.fm" (status response))
       else
         let* data := Effect.json response in
         Effect.ret (default [] (sfm_setlist data)))
    (fun error => Effect.ret []).

Definition dash : ascii := "-"%char.
Definition zero : ascii := "0"%char.

(** The body of the [try] block of [convertDateFormat]:
    [const [day, month, year] = setlistDate.split('-');
     return `${year}-${month.padStart(2, '0')}-${day.padStart(2, '0')}`;]
    [month.padStart] raises a TypeError when [month] is undefined. *)
Definition convertDateFormat_try (setlistDate : string) : result string :=
  match JS.split dash setlistDate with
  | day :: month :: rest =>
      Ok (JS.template (head rest) +:+ "-" +:+ JS.padStart 2 zero month
            +:+ "-" +:+ JS.padStart 2 zero day)
  | _ => Throw TypeError
  end.

Definition convertDateFormat (setlistDate : string) : string :=
  try_pure (convertDateFormat_try setlistDate) (fun _ => setlistDate).

(** [extractSetlist]: the names of the songs of all sets, in order. *)
Definition extractSetlist (setlist : SetlistFmSetlist) : list string :=
  match sl_sets setlist with
  | None => []
  | Some sets =>
      flat_map
        (fun set =>
           match set_song set with
           | Some songs =>
               List.filter JS.truthy (map song_name songs)
           | None => []
           end)
        sets
  end.

Definition transformSetlist (setlist : SetlistFmSetlist) : External :=
  let venue := sl_venue setlist in
  let city := sv_city venue in
  let setlistSongs := extractSetlist setlist in
  let isoDate := convertDateFormat (sl_eventDate setlist) in
  let cityString := cty_name city in
  let cityString :=
    if JS.truthy_opt (cty_stateCode city)
    then cityString +:+ ", " +:+ default "" (cty_stateCode city)
    else if JS.truthy_opt (cty_state city)
    then cityString +:+ ", " +:+ default "" (cty_state city)
    else cityString in
  let cityString :=
    match cty_countryCode city with
    | Some code =>
        if JS.truthy code && negb (String.eqb code "US")
        then cityString +:+ ", " +:+ code
        else cityString
    | None => cityString
    end in
  let description :=
    art_name (sl_artist setlist) +:+ " performed at " +:+ sv_name venue
      +:+ " in " +:+ cityString in
  let description :=
    if JS.truthy_opt (sl_tour setlist)
    then description +:+ " (" +:+ default "" (sl_tour setlist) +:+ ")"
    else description in
  let description :=
    if (0 <? length setlistSongs)%nat
    then description +:+ ". Setlist included "
           +:+ JS.String_of_nat (length setlistSongs) +:+ " songs."
    else description in
  {| ext_base :=
       {| id := "setlistfm_" +:+ sl_id setlist;
          artist := art_name (sl_artist setlist);
          venue := sv_name venue;
          city := cityString;
          date := isoDate;
          time := "Historical";
          price := "Historical";
          genre := Some "Music";
          imageUrl := None;
          ticketUrl := Some (sl_url setlist);
          description := Some description |};
     ext_meta :=
       SetlistFmMeta (sl_id setlist) (sl_url setlist)
         (art_mbid (sl_artist setlist)) (sv_id venue) setlistSongs true
         (sl_lastUpdated setlist)
         (if JS.truthy_opt (sl_tour setlist) then sl_tour setlist else None)
         (if JS.truthy_opt (sl_info setlist) then sl_info setlist else None) |}.

End SetlistFmService.

(** ** SQL: [ILIKE], [AVG], [COUNT], [ORDER BY ... DESC] *)

Module SQL.

Inductive LikeToken : Type :=
  | AnySequence                   (* % *)
  | AnyOne                        (* _ *)
  | Literal (c : ascii).

Definition percent : ascii := "%"%char.
Definition underscore : ascii := "_"%char.
Definition backslash : ascii := ascii_of_nat 92.

(** The tokens of a LIKE pattern; a backslash makes the next character a
    literal one. *)
Fixpoint like_tokens (pattern : string) : list LikeToken :=
  match pattern with
  | EmptyString => []
  | String c rest =>
      if Ascii.eqb c percent then AnySequence :: like_tokens rest
      else if Ascii.eqb c underscore then AnyOne :: like_tokens rest
      else if Ascii.eqb c backslash then
        match rest with
        | String d rest' => Literal d :: like_tokens rest'
        | EmptyString => []
        end
      else Literal c :: like_tokens rest
  end.

Fixpoint like_match (tokens : list LikeToken) (s : string) : bool :=
  match tokens with
  | [] => match s with EmptyString => true | String _ _ => false end
  | Literal c :: tokens' =>
      match s with
      | String d s' => Ascii.eqb c d && like_match tokens' s'
      | EmptyString => false
      end
  | AnyOne :: tokens' =>
      match s with
      | String _ s' => like_match tokens' s'
      | EmptyString => false
      end
  | AnySequence :: tokens' =>
      (fix skip (s : string) : bool :=
         like_match tokens' s ||
         match s with
         | String _ s' => skip s'
         | EmptyString => false
         end) s
  end.

(** [column ILIKE pattern] *)
Definition ilike (column pattern : string) : bool :=
  like_match (like_tokens (JS.toLowerCase pattern)) (JS.toLowerCase column).

(** [AVG(column)] over the rows of a group: NULL for an empty group. *)
Definition avg (values : list Z) : option QArith_base.Q :=
  match values with
  | [] => None
  | _ :: _ =>
      Some (QArith_base.Qmake (foldr Z.add 0%Z values)
                              (Pos.of_nat (length values)))
  end.

(** [a] stands before [b] under [ORDER BY t DESC] (NULLs first). *)
Definition desc (a b : option Z) : bool :=
  match a, b with
  | None, _ => true
  | Some _, None => false
  | Some x, Some y => (y <=? x)%Z
  end.

End SQL.

(** ** PostgresStorage: the store and the aggregation *)

Record QueryOptions : Type := {
  search : option string;
  o_genre : option string;
  o_city : option string;
  limit : option nat;
  offset : option nat;
  includeTicketmaster : option bool;
  includeHistorical : option bool;
  startDate : option string;
  endDate : option string;
}.

Module PostgresStorage.

(** The [WHERE] clause of [getConcerts]. *)
Definition matches (options : QueryOptions) (c : Concert) : bool :=
  let b := c_base c in
  match search options with
  | Some s =>
      if JS.truthy s then
        let pattern := "%" +:+ s +:+ "%" in
        SQL.ilike (artist b) pattern || SQL.ilike (venue b) pattern
        || SQL.ilike (city b) pattern
      else true
  | None => true
  end
  &&
  match o_genre options with
  | Some g =>
      if JS.truthy g then
        match genre b with
        | Some g' => String.eqb g' g
        | None => false
        end
      else true
  | None => true
  end
  &&
  match o_city options with
  | Some s =>
      if JS.truthy s then SQL.ilike (city b) ("%" +:+ s +:+ "%") else true
  | None => true
  end.

(** The reviews joined to a concert: [LEFT JOIN reviews ON
    concerts.id = reviews.concert_id], grouped by the concert's id. *)
Definition reviews_of (d : Database) (c : Concert) : list Review :=
  List.filter (fun r => String.eqb (r_concertId r) (id (c_base c))) (reviews d).

(** One row of the result: the concert and its aggregates.
    [row.avgRating ? Number(row.avgRating) : undefined] keeps a non-NULL
    average, which the driver returns as a non-empty text. *)
Definition with_rating (d : Database) (c : Concert) : ConcertWithRating :=
  let rs := reviews_of d c in
  {| base := c_base c;
     meta := LocalMeta;
     createdAt := c_createdAt c;
     updatedAt := c_updatedAt c;
     averageRating := SQL.avg (map r_overallRating rs);
     performanceRating := SQL.avg (map r_performanceRating rs);
     soundRating := SQL.avg (map r_soundRating rs);
     venueRating := SQL.avg (map r_venueRating rs);
     valueRating := SQL.avg (map r_valueRating rs);
     reviewCount := Some (length rs) |}.

(** The rows [getConcerts] selects from a database. *)
Definition select_concerts (d : Database) (options : QueryOptions)
  : list ConcertWithRating :=
  let limit := JS.default_num (limit options) 20 in
  let offset := JS.default_num (offset options) 0 in
  let rows :=
    sort_by (fun a b => SQL.desc (c_createdAt a) (c_createdAt b))
            (List.filter (matches options) (concerts d)) in
  map (with_rating d) (take limit (drop offset rows)).

Definition getConcerts (options : QueryOptions) : M (list ConcertWithRating) :=
  let* env := Effect.ask in
  Effect.ret (select_concerts (db env) options).

(** The [try] block of [searchTicketmasterEvents]. *)
Definition searchTicketmasterEvents_try (options : TicketmasterSearchOptions)
  : M (list External) :=
  let* events := TicketmasterService.searchEvents options in
  Effect.ret (map TicketmasterService.transformEvent events).

Definition searchTicketmasterEvents (options : TicketmasterSearchOptions)
  : M (list External) :=
  Effect.try_catch (searchTicketmasterEvents_try options)
                   (fun error => Effect.ret []).

(** The [try] block of [searchSetlistFmEvents]. *)
Definition searchSetlistFmEvents_try (options : SetlistFmSearchOptions)
  : M (list External) :=
  let* setlists := SetlistFmService.searchSetlists options in
  Effect.ret (map SetlistFmService.transformSetlist setlists).

Definition searchSetlistFmEvents (options : SetlistFmSearchOptions)
  : M (list External) :=
  Effect.try_catch (searchSetlistFmEvents_try options)
                   (fun error => Effect.ret []).

(** [{ ...event, createdAt: new Date(), updatedAt: new Date(),
       averageRating: undefined, ..., reviewCount: 0 }] *)
Definition unrated (event : External) : M ConcertWithRating :=
  let* created := Effect.new_Date clock in
  let* updated := Effect.new_Date clock in
  Effect.ret
    {| base := ext_base event;
       meta := ext_meta event;
       createdAt := Some created;
       updatedAt := Some updated;
       averageRating := None;
       performanceRating := None;
       soundRating := None;
       venueRating := None;
       valueRating := None;
       reviewCount := Some 0 |}.

(** The state of the merge: [combinedConcerts] and [allConcertIds]. *)
Definition Merged : Type := (list ConcertWithRating * gset string)%type.

(** One turn of [for (const c of cs) if (!allConcertIds.has(c.id)) { ... }] *)
Definition push_unseen (acc : Merged) (c : ConcertWithRating) : Merged :=
  if decide (id (base c) ∈ acc.2) then acc
  else ((acc.1 ++ [c])%list, {[ id (base c) ]} ∪ acc.2).

Definition add_all (cs : list ConcertWithRating) (acc : Merged) : Merged :=
  fold_left push_unseen cs acc.

Definition tmOptions (options : QueryOptions) : TicketmasterSearchOptions :=
  {| keyword := if JS.truthy_opt (search options) then search options else None;
     tm_city := if JS.truthy_opt (o_city options) then o_city options else None;
     stateCode := None;
     countryCode := None;
     classificationName :=
       if JS.truthy_opt (o_genre options) then o_genre options else None;
     size := Some (JS.or_num (limit options) 20);
     page := Some (JS.or_num (offset options) 0 / JS.or_num (limit options) 20);
     sort := None;
     startDateTime :=
       match startDate options with
       | Some d => if JS.truthy d then Some (d +:+ "T00:00:00Z") else None
       | None => None
       end;
     endDateTime :=
       match endDate options with
       | Some d => if JS.truthy d then Some (d +:+ "T23:59:59Z") else None
       | None => None
       end;
     radius := None;
     unit := None |}.

Definition sfmOptions (options : QueryOptions) : SetlistFmSearchOptions :=
  {| artistName := if JS.truthy_opt (search options) then search options else None;
     artistMbid := None;
     cityName := if JS.truthy_opt (o_city options) then o_city options else None;
     sfm_countryCode := None;
     sfm_date := None;
     venueName := None;
     venueId := None;
     year := None;
     state := None;
     tourName := None;
     p := Some (JS.or_num (offset options) 0 / JS.or_num (limit options) 20 + 1) |}.

(** The search filter over the combined list. *)
Definition search_filter (options : QueryOptions)
    (combined : list ConcertWithRating) : list ConcertWithRating :=
  match search options with
  | Some s =>
      if JS.truthy s then
        let searchLower := JS.toLowerCase s in
        List.filter
          (fun concert =>
             JS.includes (JS.toLowerCase (artist (base concert))) searchLower
             || JS.includes (JS.toLowerCase (venue (base concert))) searchLower
             || JS.includes (JS.toLowerCase (city (base concert))) searchLower)
          combined
      else combined
  | None => combined
  end.

(** The genre filter: [concert.genre?.toLowerCase().includes(genreLower)]. *)
Definition genre_filter (options : QueryOptions)
    (filtered : list ConcertWithRating) : list ConcertWithRating :=
  match o_genre options with
  | Some g =>
      if JS.truthy g then
        let genreLower := JS.toLowerCase g in
        List.filter
          (fun concert =>
             match genre (base concert) with
             | Some g' => JS.includes (JS.toLowerCase g') genreLower
             | None => false
             end)
          filtered
      else filtered
  | None => filtered
  end.

(** The pagination of the combined list. *)
Definition paginate (options : QueryOptions)
    (filtered : list ConcertWithRating) : list ConcertWithRating :=
  let startIndex := JS.or_num (offset options) 0 in
  let endIndex := startIndex + JS.or_num (limit options) 50 in
  JS.slice filtered startIndex endIndex.

(** The [try] block of [getConcertsWithHistorical]. *)
Definition getConcertsWithHistorical_try (options : QueryOptions)
  : M (list ConcertWithRating) :=
  let* dbConcerts := getConcerts options in
  let merged : Merged :=
    (dbConcerts, list_to_set (map (fun c => id (base c)) dbConcerts)) in
  let* merged :=
    if JS.truthy_bool (includeTicketmaster options) then
      let* tmEvents := searchTicketmasterEvents (tmOptions options) in
      let* tmConcerts := Effect.mapM unrated tmEvents in
      Effect.ret (add_all tmConcerts merged)
    else Effect.ret merged in
  let* merged :=
    if JS.truthy_bool (includeHistorical options) then
      let* sfmEvents := searchSetlistFmEvents (sfmOptions options) in
      let* sfmConcerts := Effect.mapM unrated sfmEvents in
      Effect.ret (add_all sfmConcerts merged)
    else Effect.ret merged in
  let combinedConcerts := merged.1 in
  let filteredConcerts := search_filter options combinedConcerts in
  let filteredConcerts := genre_filter options filteredConcerts in
  Effect.ret (paginate options filteredConcerts).

(** On an error the [catch] block falls back to the rows of the store. *)
Definition getConcertsWithHistorical (options : QueryOptions)
  : M (list ConcertWithRating) :=
  Effect.try_catch (getConcertsWithHistorical_try options)
                   (fun error => getConcerts options).

End PostgresStorage.

(** ** Vocabulary of the properties *)

Definition is_digit (c : ascii) : bool :=
  let n := nat_of_ascii c in (48 <=? n)%nat && (n <=? 57)%nat.

(** [digits n s]: [s] is made of exactly [n] decimal digits. *)
Fixpoint digits (n : nat) (s : string) : bool :=
  match n, s with
  | O, EmptyString => true
  | S k, String c s' => is_digit c && digits k s'
  | _, _ => false
  end.

(** One or two decimal digits: a day or a month as the provider writes it. *)
Definition one_or_two_digits (s : string) : bool := digits 1 s || digits 2 s.

Fixpoint dash_free (s : string) : bool :=
  match s with
  | EmptyString => true
  | String c s' => negb (Ascii.eqb c SetlistFmService.dash) && dash_free s'
  end.

(** The strict shape YYYY-MM-DD. *)
Definition iso_shape (s : string) : bool :=
  match JS.split SetlistFmService.dash s with
  | [y; m; d] => digits 4 y && digits 2 m && digits 2 d
  | _ => false
  end.

(** A day-month-year date with ['-'] separators. *)
Definition dmy (d m y : string) : string := d +:+ "-" +:+ m +:+ "-" +:+ y.

(** The failures of the historical provider: no credentials, a rejected
    request, a non-2xx status, a body that is not JSON. *)
Definition sfm_failed (env : Env) (options : SetlistFmSearchOptions) : bool :=
  negb (JS.truthy (apiKey env)) ||
  match sfm_net env (SetlistFmService.search_request (apiKey env) options) with
  | Rejected => true
  | Resolved r =>
      negb (response_ok r) ||
      match body r with BodyMalformed => true | BodyJson _ => false end
  end.

Definition ids_of (l : list ConcertWithRating) : list string :=
  map (fun c => id (base c)) l.

(** The ids of the store: the local-origin ids. *)
Definition store_ids (d : Database) : list string :=
  map (fun c => id (c_base c)) (concerts d).

Definition with_toggles (live historical : option bool) (o : QueryOptions)
  : QueryOptions :=
  {| search := search o; o_genre := o_genre o; o_city := o_city o;
     limit := limit o; offset := offset o;
     includeTicketmaster := live; includeHistorical := historical;
     startDate := startDate o; endDate := endDate o |}.

(** The same call with the live provider switched off. *)
Definition without_live (o : QueryOptions) : QueryOptions :=
  with_toggles (Some false) (includeHistorical o) o.

(** What the aggregation does to the rows of the store when no provider
    contributes: the two filters and the window. *)
Definition local_only (env : Env) (o : QueryOptions) : list ConcertWithRating :=
  PostgresStorage.paginate o
    (PostgresStorage.genre_filter o
       (PostgresStorage.search_filter o
          (PostgresStorage.select_concerts (db env) o))).

Definition with_clock (k : nat -> Z) (env : Env) : Env :=
  {| db := db env; consumerKey := consumerKey env; apiKey := apiKey env;
     tm_net := tm_net env; tm_event_net := tm_event_net env;
     sfm_net := sfm_net env; clock := k |}.

(** A record without the two time stamps the aggregation puts on
    provider-sourced entries; a row of the store is left as it is. *)
Definition unstamped (c : ConcertWithRating) : ConcertWithRating :=
  match meta c with
  | LocalMeta => c
  | _ =>
      {| base := base c; meta := meta c; createdAt := None; updatedAt := None;
         averageRating := averageRating c;
         performanceRating := performanceRating c;
         soundRating := soundRating c; venueRating := venueRating c;
         valueRating := valueRating c; reviewCount := reviewCount c |}
  end.

(** The five averages are absent. *)
Definition averages_absent (c : ConcertWithRating) : Prop :=
  averageRating c = None ∧ performanceRating c = None ∧ soundRating c = None
  ∧ venueRating c = None ∧ valueRating c = None.

(** The five averages are present. *)
Definition averages_present (c : ConcertWithRating) : Prop :=
  is_Some (averageRating c) ∧ is_Some (performanceRating c)
  ∧ is_Some (soundRating c) ∧ is_Some (venueRating c)
  ∧ is_Some (valueRating c).

(** [runs m env t a t']: started after [t] clock readings, [m] returns [a]
    normally and leaves the clock at reading [t']. *)
Definition runs {A} (m : M A) (env : Env) (t : nat) (a : A) (t' : nat) : Prop :=
  res (m env t) = Ok a /\ ticks (m env t) = t'.

(** *** The aggregation without its effects

    The functions below say what [getConcertsWithHistorical] computes, as
    plain functions of the environment and of the clock readings taken so
    far; [getConcertsWithHistorical_try_run] proves that they do. *)

(** The provider record with the time stamps of two clock readings and no
    rating: the value of [PostgresStorage.unrated]. *)
Definition stamp (event : External) (created updated : Z) : ConcertWithRating :=
  {| base := ext_base event; meta := ext_meta event;
     createdAt := Some created; updatedAt := Some updated;
     averageRating := None; performanceRating := None; soundRating := None;
     venueRating := None; valueRating := None; reviewCount := Some 0 |}.

(** The provider records stamped from reading [t] of the clock [k] on. *)
Fixpoint stamped (k : nat -> Z) (t : nat) (events : list External)
  : list ConcertWithRating :=
  match events with
  | [] => []
  | e :: events' => stamp e (k t) (k (S t)) :: stamped k (S (S t)) events'
  end.

(** What the two storage wrappers hand to the aggregation. *)
Definition live_events (env : Env) (o : QueryOptions) : list External :=
  match res (PostgresStorage.searchTicketmasterEvents
               (PostgresStorage.tmOptions o) env 0) with
  | Ok events => events
  | Throw _ => []
  end.

Definition historical_events (env : Env) (o : QueryOptions) : list External :=
  match res (PostgresStorage.searchSetlistFmEvents
               (PostgresStorage.sfmOptions o) env 0) with
  | Ok events => events
  | Throw _ => []
  end.

Definition live_part (env : Env) (t : nat) (o : QueryOptions)
  : list ConcertWithRating :=
  if JS.truthy_bool (includeTicketmaster o)
  then stamped (clock env) t (live_events env o)
  else [].

Definition ticks_after_live (env : Env) (t : nat) (o : QueryOptions) : nat :=
  if JS.truthy_bool (includeTicketmaster o)
  then t + 2 * length (live_events env o)
  else t.

Definition historical_part (env : Env) (t : nat) (o : QueryOptions)
  : list ConcertWithRating :=
  if JS.truthy_bool (includeHistorical o)
  then stamped (clock env) (ticks_after_live env t o) (historical_events env o)
  else [].

(** [combinedConcerts] and [allConcertIds] once both providers are merged. *)
Definition merged (env : Env) (t : nat) (o : QueryOptions)
  : PostgresStorage.Merged :=
  let dbConcerts := PostgresStorage.select_concerts (db env) o in
  PostgresStorage.add_all (historical_part env t o)
    (PostgresStorage.add_all (live_part env t o)
       (dbConcerts, list_to_set (ids_of dbConcerts))).

(** The list the [try] block returns. *)
Definition aggregated (env : Env) (t : nat) (o : QueryOptions)
  : list ConcertWithRating :=
  PostgresStorage.paginate o
    (PostgresStorage.genre_filter o
       (PostgresStorage.search_filter o (merged env t o).1)).

(** The invariant of the merge loop: the ids of the combined list are
    pairwise distinct, and the seen-id set holds exactly these ids. *)
Definition merge_inv (acc : PostgresStorage.Merged) : Prop :=
  NoDup (ids_of acc.1) /\ forall x : string, x ∈ acc.2 <-> x ∈ ids_of acc.1.

(** Two records that differ at most in the time stamps of provider-sourced
    entries. *)
Definition same_but_stamps (c1 c2 : ConcertWithRating) : Prop :=
  unstamped c1 = unstamped c2.

(** ** Fixtures: a small catalogue and two provider answers *)

Module Fixture.

Definition concert (i a : string) (created : Z) : Concert :=
  {| c_base :=
       {| id := i; artist := a; venue := "Olympia"; city := "Paris";
          date := "2024-01-01"; time := "20:00"; price := "$30";
          genre := Some "Rock"; imageUrl := None; ticketUrl := None;
          description := None |};
     c_createdAt := Some created;
     c_updatedAt := Some created |}.

Definition review (i c : string) (n : Z) : Review :=
  {| r_id := i; r_userId := "u_" +:+ i; r_concertId := c;
     r_overallRating := n; r_performanceRating := n; r_soundRating := n;
     r_venueRating := n; r_valueRating := n |}.

Definition event (i n : string) : TicketmasterEvent :=
  {| ev_id := i; ev_name := n; ev_url := "https://tm.example/" +:+ i;
     ev_images := []; ev_localDate := "2025-06-01"; ev_localTime := None;
     ev_statusCode := "onsale"; ev_timezone := "UTC";
     ev_classifications := []; ev_venues := []; ev_attractions := [];
     ev_priceRanges := [] |}.

(** Two concerts; the first has two reviews. *)
Definition catalogue : Database :=
  {| concerts := [concert "c1" "The Midnight" 200; concert "c2" "Daylight" 100];
     reviews := [review "r1" "c1" 4; review "r2" "c1" 5] |}.

Definition env (live : FetchOutcome TicketmasterResponse) : Env :=
  {| db := catalogue;
     consumerKey := "key";
     apiKey := "";
     tm_net := fun _ => live;
     tm_event_net := fun _ => Rejected;
     sfm_net := fun _ => Rejected;
     clock := fun n => Z.of_nat n |}.

(** Neither provider is configured. *)
Definition unconfigured : Env :=
  {| db := catalogue;
     consumerKey := "";
     apiKey := "";
     tm_net := fun _ => Rejected;
     tm_event_net := fun _ => Rejected;
     sfm_net := fun _ => Rejected;
     clock := fun n => Z.of_nat n |}.

(** The historical provider is configured and answers [hist]. *)
Definition archive_env (hist : FetchOutcome SetlistFmSearchResponse) : Env :=
  {| db := catalogue;
     consumerKey := "";
     apiKey := "archive-key";
     tm_net := fun _ => Rejected;
     tm_event_net := fun _ => Rejected;
     sfm_net := fun _ => hist;
     clock := fun n => Z.of_nat n |}.

Definition setlist (i eventDate : string) : SetlistFmSetlist :=
  {| sl_id := i; sl_eventDate := eventDate; sl_lastUpdated := "2024-03-06";
     sl_artist := {| art_mbid := "mbid-1"; art_name := "The Midnight" |};
     sl_venue :=
       {| sv_id := "v1"; sv_name := "Olympia";
          sv_city := {| cty_name := "Paris"; cty_state := None;
                        cty_stateCode := None; cty_countryCode := Some "FR" |} |};
     sl_sets := None; sl_tour := None; sl_info := None;
     sl_url := "https://archive.example/" +:+ i |}.

(** The historical provider answers with two setlists; the date of the
    second is not a date. *)
Definition two_setlists : FetchOutcome SetlistFmSearchResponse :=
  Resolved {| status := 200;
              body := BodyJson {| sfm_setlist :=
                Some [setlist "s1" "05-03-2024"; setlist "s2" "unknown"] |} |}.

(** The historical provider answers with a server error. *)
Definition archive_unavailable : FetchOutcome SetlistFmSearchResponse :=
  Resolved {| status := 503; body := BodyMalformed |}.

(** The live provider answers with one event, native id 123. *)
Definition one_event : FetchOutcome TicketmasterResponse :=
  Resolved {| status := 200;
              body := BodyJson {| tm_events := Some [event "123" "Nightfall"] |} |}.

(** The live provider answers with the same event twice. *)
Definition same_event_twice : FetchOutcome TicketmasterResponse :=
  Resolved {| status := 200;
              body := BodyJson {| tm_events :=
                Some [event "123" "Nightfall"; event "123" "Nightfall"] |} |}.

(** The live provider answers "not found". *)
Definition not_found : FetchOutcome TicketmasterResponse :=
  Resolved {| status := 404; body := BodyMalformed |}.

(** The live provider answers with a server error. *)
Definition unavailable : FetchOutcome TicketmasterResponse :=
  Resolved {| status := 503; body := BodyMalformed |}.

Definition options (l o : option nat) (live : bool) : QueryOptions :=
  {| search := None; o_genre := None; o_city := None;
     limit := l; offset := o;
     includeTicketmaster := Some live; includeHistorical := Some false;
     startDate := None; endDate := None |}.

Definition no_options : TicketmasterSearchOptions :=
  {| keyword := None; tm_city := None; stateCode := None; countryCode := None;
     classificationName := None; size := None; page := None; sort := None;
     startDateTime := None; endDateTime := None; radius := None; unit := None |}.

Definition no_sfm_options : SetlistFmSearchOptions :=
  {| artistName := None; artistMbid := None; cityName := None;
     sfm_countryCode := None; sfm_date := None; venueName := None;
     venueId := None; year := None; state := None; tourName := None;
     p := None |}.

End Fixture.

(** ** The other operations of the three units *)

(** *** SetlistFmService: artists, venues, an artist's setlists, and the
    combined historical search *)

Record SetlistFmArtistSearchResponse : Type := {
  sfm_artist : option (list SetlistFmArtist);   (* data.artist *)
}.

Record SetlistFmVenueSearchResponse : Type := {
  sfm_venue : option (list SetlistFmVenue);     (* data.venue *)
}.

(** The options of [searchHistoricalConcerts]. *)
Record HistoricalSearchOptions : Type := {
  h_search : option string;
  h_artist : option string;
  h_venue : option string;
  h_city : option string;
  h_year : option string;
  h_limit : option nat;             (* limit = 20 *)
  h_page : option nat;              (* page = 1 *)
}.

Module SetlistFmLookups.

Definition headers (key : string) : list (string * string) :=
  [ ("Accept", "application/json");
    ("x-api-key", key);
    ("User-Agent", "ConcertCritic/1.0") ].

Definition artists_request (key artistName : string) (page : option nat)
  : Request :=
  {| req_url := SetlistFmService.baseUrl +:+ "/search/artists";
     req_params :=
       [ ("artistName", artistName);
         ("p", JS.String_of_nat (JS.default_num page 1));
         ("sort", "relevance") ];
     req_headers := headers key |}.

(** [searchArtists(artistName, page = 1)]; the network that answers the
    artist search is a parameter. *)
Definition searchArtists
    (net : Request -> FetchOutcome SetlistFmArtistSearchResponse)
    (artistName : string) (page : option nat) : M (list SetlistFmArtist) :=
  Effect.try_catch
    (let* env := Effect.ask in
     if negb (JS.truthy (apiKey env)) then Effect.ret []
     else
       let* response :=
         Effect.fetch (fun _ => net) (artists_request (apiKey env) artistName page) in
       if negb (response_ok response)
       then
         if (status response =? 404)%nat then Effect.ret []
         else Effect.throw (ApiError "Setlist.fm" (status response))
       else
         let* data := Effect.json response in
         Effect.ret (default [] (sfm_artist data)))
    (fun error => Effect.ret []).

Definition venues_request (key venueName : string) (page : option nat)
  : Request :=
  {| req_url := SetlistFmService.baseUrl +:+ "/search/venues";
     req_params :=
       [ ("name", venueName);
         ("p", JS.String_of_nat (JS.default_num page 1)) ];
     req_headers := headers key |}.

(** [searchVenues(venueName, page = 1)] *)
Definition searchVenues
    (net : Request -> FetchOutcome SetlistFmVenueSearchResponse)
    (venueName : string) (page : option nat) : M (list SetlistFmVenue) :=
  Effect.try_catch
    (let* env := Effect.ask in
     if negb (JS.truthy (apiKey env)) then Effect.ret []
     else
       let* response :=
         Effect.fetch (fun _ => net) (venues_request (apiKey env) venueName page) in
       if negb (response_ok response)
       then
         if (status response =? 404)%nat then Effect.ret []
         else Effect.throw (ApiError "Setlist.fm" (status response))
       else
         let* data := Effect.json response in
         Effect.ret (default [] (sfm_venue data)))
    (fun error => Effect.ret []).

Definition artist_setlists_request (key artistMbid : string) (page : option nat)
  : Request :=
  {| req_url :=
       SetlistFmService.baseUrl +:+ "/artist/" +:+ artistMbid +:+ "/setlists";
     req_params := [ ("p", JS.String_of_nat (JS.default_num page 1)) ];
     req_headers := headers key |}.

(** [getArtistSetlists(artistMbid, page = 1)] *)
Definition getArtistSetlists (artistMbid : string) (page : option nat)
  : M (list SetlistFmSetlist) :=
  Effect.try_catch
    (let* env := Effect.ask in
     if negb (JS.truthy (apiKey env)) then Effect.ret []
     else
       let* response :=
         Effect.fetch sfm_net (artist_setlists_request (apiKey env) artistMbid page) in
       if negb (response_ok response)
       then
         if (status response =? 404)%nat then Effect.ret []
         else Effect.throw (ApiError "Setlist.fm" (status response))
       else
         let* data := Effect.json response in
         Effect.ret (default [] (sfm_setlist data)))
    (fun error => Effect.ret []).

(** The [searchOptions] that [searchHistoricalConcerts] builds: the general
    search term is taken as an artist name, and a given artist replaces it. *)
Definition searchOptions (options : HistoricalSearchOptions)
  : SetlistFmSearchOptions :=
  {| artistName :=
       if JS.truthy_opt (h_artist options) then h_artist options
       else if JS.truthy_opt (h_search options) then h_search options
       else None;
     artistMbid := None;
     cityName :=
       if JS.truthy_opt (h_city options) then h_city options else None;
     sfm_countryCode := None;
     sfm_date := None;
     venueName :=
       if JS.truthy_opt (h_venue options) then h_venue options else None;
     venueId := None;
     year := if JS.truthy_opt (h_year options) then h_year options else None;
     state := None;
     tourName := None;
     p := Some (JS.default_num (h_page options) 1) |}.

(** The [try] block of [searchHistoricalConcerts]. *)
Definition searchHistoricalConcerts_try (options : HistoricalSearchOptions)
  : M (list External) :=
  let* setlists := SetlistFmService.searchSetlists (searchOptions options) in
  let concerts := map SetlistFmService.transformSetlist setlists in
  Effect.ret (JS.slice concerts 0 (JS.default_num (h_limit options) 20)).

Definition searchHistoricalConcerts (options : HistoricalSearchOptions)
  : M (list External) :=
  Effect.try_catch (searchHistoricalConcerts_try options)
                   (fun error => Effect.ret []).

End SetlistFmLookups.

(** *** PostgresStorage: the aggregation with the live provider alone *)

Module PostgresStorageLive.

(** The search options of [getConcertsWithTicketmaster]: no date bounds. *)
Definition tmOptions (options : QueryOptions) : TicketmasterSearchOptions :=
  {| keyword := if JS.truthy_opt (search options) then search options else None;
     tm_city := if JS.truthy_opt (o_city options) then o_city options else None;
     stateCode := None;
     countryCode := None;
     classificationName :=
       if JS.truthy_opt (o_genre options) then o_genre options else None;
     size := Some (JS.or_num (limit options) 20);
     page := Some (JS.or_num (offset options) 0 / JS.or_num (limit options) 20);
     sort := None;
     startDateTime := None;
     endDateTime := None;
     radius := None;
     unit := None |}.

(** One turn of [for (const c of tmConcerts) if (!dbConcertIds.has(c.id))
    combinedConcerts.push(c)]: the set of ids is the one of the store's rows
    and is not added to. *)
Definition push_missing (dbConcertIds : gset string)
    (combined : list ConcertWithRating) (c : ConcertWithRating)
  : list ConcertWithRating :=
  if decide (id (base c) ∈ dbConcertIds) then combined
  else (combined ++ [c])%list.

(** The [try] block of [getConcertsWithTicketmaster]; of the options it
    reads [search], [genre], [city], [limit], [offset] and
    [includeTicketmaster]. *)
Definition getConcertsWithTicketmaster_try (options : QueryOptions)
  : M (list ConcertWithRating) :=
  let* dbConcerts := PostgresStorage.getConcerts options in
  if negb (JS.truthy_bool (includeTicketmaster options))
  then Effect.ret dbConcerts
  else
    let* tmEvents := PostgresStorage.searchTicketmasterEvents (tmOptions options) in
    let* tmConcerts := Effect.mapM PostgresStorage.unrated tmEvents in
    let dbConcertIds : gset string :=
      list_to_set (map (fun c => id (base c)) dbConcerts) in
    let combinedConcerts :=
      fold_left (push_missing dbConcertIds) tmConcerts dbConcerts in
    let filteredConcerts := PostgresStorage.search_filter options combinedConcerts in
    let filteredConcerts := PostgresStorage.genre_filter options filteredConcerts in
    Effect.ret (PostgresStorage.paginate options filteredConcerts).

Definition getConcertsWithTicketmaster (options : QueryOptions)
  : M (list ConcertWithRating) :=
  Effect.try_catch (getConcertsWithTicketmaster_try options)
                   (fun error => PostgresStorage.getConcerts options).

End PostgresStorageLive.

(** *** The store as a state: lookup, deletion, and the insertion that the
    review route makes for a concert it does not know *)

(** The [concert] object a client sends along with a review. *)
Record ConcertPayload : Type := {
  p_id : string;
  p_artist : string;
  p_venue : string;
  p_city : string;
  p_date : string;
  p_time : option string;
  p_price : option string;
  p_genre : option string;
  p_imageUrl : option string;
  p_ticketUrl : option string;
  p_description : option string;
}.

Inductive DbOutcome (A : Type) : Type :=
  | Done (a : A)
  | UniqueViolation.                (* duplicate key value *)
Arguments Done {A} a.
Arguments UniqueViolation {A}.

Module Store.

(** [getConcert]: [select().from(concerts).where(eq(concerts.id, id)).limit(1)],
    then [result[0]]. *)
Definition getConcert (d : Database) (i : string) : option Concert :=
  List.find (fun c => String.eqb (id (c_base c)) i) (concerts d).

(** [db.insert(concerts).values(row)] under the primary key. *)
Definition insert_concert (d : Database) (row : Concert) : DbOutcome Database :=
  match getConcert d (id (c_base row)) with
  | Some _ => UniqueViolation
  | None => Done {| concerts := (concerts d ++ [row])%list; reviews := reviews d |}
  end.

(** [x || null] on an optional text. *)
Definition or_null (o : option string) : option string :=
  if JS.truthy_opt o then o else None.

(** The row the review route inserts for [concert]; [created_at] and
    [updated_at] take the time [now] of the database. *)
Definition row_of_payload (concert : ConcertPayload) (now : Z) : Concert :=
  {| c_base :=
       {| id := p_id concert;
          artist := p_artist concert;
          venue := p_venue concert;
          city := p_city concert;
          date := p_date concert;
          time := JS.or_str (p_time concert) "";
          price := JS.or_str (p_price concert) "";
          genre := or_null (p_genre concert);
          imageUrl := or_null (p_imageUrl concert);
          ticketUrl := or_null (p_ticketUrl concert);
          description := or_null (p_description concert) |};
     c_createdAt := Some now;
     c_updatedAt := Some now |}.

(** The step of [POST /api/reviews] that runs before the review is
    validated: [if (concert) { if (!(await storage.getConcert(concert.id)))
    await db.insert(concerts).values({...}) }]. *)
Definition ensureConcert (concert : option ConcertPayload) (now : Z)
    (d : Database) : DbOutcome Database :=
  match concert with
  | None => Done d
  | Some c =>
      match getConcert d (p_id c) with
      | Some _ => Done d
      | None => insert_concert d (row_of_payload c now)
      end
  end.

(** [deleteConcert]: the rows deleted are returned; the reviews of the
    concert go with it ([onDelete: "cascade"]). *)
Definition deleteConcert (d : Database) (i : string) : Database * bool :=
  let deleted :=
    List.filter (fun c => String.eqb (id (c_base c)) i) (concerts d) in
  ({| concerts :=
        List.filter (fun c => negb (String.eqb (id (c_base c)) i)) (concerts d);
      reviews :=
        List.filter (fun r => negb (String.eqb (r_concertId r) i)) (reviews d) |},
   (0 <? length deleted)%nat).

End Store.

(** *** Vocabulary of the further properties *)

(** A search text without the special characters of LIKE. *)
Definition like_special (c : ascii) : bool :=
  Ascii.eqb c SQL.percent || Ascii.eqb c SQL.underscore
  || Ascii.eqb c SQL.backslash.

Fixpoint like_plain (s : string) : bool :=
  match s with
  | EmptyString => true
  | String c s' => negb (like_special c) && like_plain s'
  end.

(** The tokens of a text taken literally. *)
Fixpoint literals (s : string) : list SQL.LikeToken :=
  match s with
  | EmptyString => []
  | String c s' => SQL.Literal c :: literals s'
  end.

(** The engine's test of a record against the search text [s]. *)
Definition search_hit (s : string) (b : Canonical) : bool :=
  JS.includes (JS.toLowerCase (artist b)) (JS.toLowerCase s)
  || JS.includes (JS.toLowerCase (venue b)) (JS.toLowerCase s)
  || JS.includes (JS.toLowerCase (city b)) (JS.toLowerCase s).

(** The engine's test of a record against the genre [g]. *)
Definition genre_hit (g : string) (b : Canonical) : bool :=
  match genre b with
  | Some g' => JS.includes (JS.toLowerCase g') (JS.toLowerCase g)
  | None => false
  end.

(** The same options for another page. *)
Definition with_page (o : QueryOptions) (off lim : nat) : QueryOptions :=
  {| search := search o; o_genre := o_genre o; o_city := o_city o;
     limit := Some lim; offset := Some off;
     includeTicketmaster := includeTicketmaster o;
     includeHistorical := includeHistorical o;
     startDate := startDate o; endDate := endDate o |}.

(** [a] stands before [b] under [ORDER BY created_at DESC]. *)
Definition newer_first (a b : ConcertWithRating) : Prop :=
  SQL.desc (createdAt a) (createdAt b) = true.

(** The requests the aggregation sends to each provider. *)
Definition live_requests (env : Env) (o : QueryOptions) : list Request :=
  if JS.truthy_bool (includeTicketmaster o) && JS.truthy (consumerKey env)
  then [TicketmasterService.search_request (consumerKey env)
          (PostgresStorage.tmOptions o)]
  else [].

Definition historical_requests (env : Env) (o : QueryOptions) : list Request :=
  if JS.truthy_bool (includeHistorical o) && JS.truthy (apiKey env)
  then [SetlistFmService.search_request (apiKey env)
          (PostgresStorage.sfmOptions o)]
  else [].

(** [runs_sending m env t a t' rs]: [m] returns [a], leaves the clock at
    [t'] and has sent the requests [rs]. *)
Definition runs_sending {A} (m : M A) (env : Env) (t : nat) (a : A) (t' : nat)
    (rs : list Request) : Prop :=
  res (m env t) = Ok a /\ ticks (m env t) = t' /\ sent (m env t) = rs.

(** [concert.isHistorical]: set by [transformSetlist] alone. *)
Definition isHistorical (c : ConcertWithRating) : bool :=
  match meta c with
  | SetlistFmMeta _ _ _ _ _ historical _ _ _ => historical
  | _ => false
  end.

(** The data of a lookup at a provider that did not fail: the request was
    answered with a 2xx status and a JSON body. *)
Definition lookup_data {A} (outcome : FetchOutcome A) : option A :=
  match outcome with
  | Resolved r =>
      if response_ok r then
        match body r with BodyJson d => Some d | BodyMalformed => None end
      else None
  | Rejected => None
  end.

(** All the songs of a setlist, named or not. *)
Definition all_songs (setlist : SetlistFmSetlist) : list SetlistFmSong :=
  match sl_sets setlist with
  | None => []
  | Some sets =>
      flat_map (fun set => default [] (set_song set)) sets
  end.

(** Every review belongs to a concert of the store: the foreign key of
    [reviews.concert_id]. *)
Definition no_orphans (d : Database) : Prop :=
  forall r : Review, r ∈ reviews d -> r_concertId r ∈ store_ids d.

(** The area of an image, and the test for the 16:9 ratio. *)
Definition is_16_9 (img : TmImage) : bool := String.eqb (img_ratio img) "16_9".

(** A second catalogue for the examples: an environment whose providers
    both answer. *)
Module Sample.

Definition image (ratio url : string) (w h : Z) : TmImage :=
  {| img_ratio := ratio; img_url := url; img_width := w; img_height := h |}.

Definition both (live : FetchOutcome TicketmasterResponse)
    (hist : FetchOutcome SetlistFmSearchResponse) : Env :=
  {| db := Fixture.catalogue;
     consumerKey := "key";
     apiKey := "archive-key";
     tm_net := fun _ => live;
     tm_event_net :=
       fun _ => Resolved {| status := 200;
                            body := BodyJson (Fixture.event "123" "Nightfall") |};
     sfm_net := fun _ => hist;
     clock := fun n => Z.of_nat n |}.

Definition all_on (s g : option string) (l o : option nat) : QueryOptions :=
  {| search := s; o_genre := g; o_city := None;
     limit := l; offset := o;
     includeTicketmaster := Some true; includeHistorical := Some true;
     startDate := None; endDate := None |}.

Definition payload (i : string) : ConcertPayload :=
  {| p_id := i; p_artist := "Nightfall"; p_venue := "TBA"; p_city := "TBA";
     p_date := "2025-06-01"; p_time := None; p_price := Some "";
     p_genre := Some "Music"; p_imageUrl := None;
     p_ticketUrl := Some "https://tm.example/123"; p_description := None |}.

End Sample.

(** *** The events of the live provider as they arrive

    [transformEvent] tests [venue?.city] where it builds the description and
    reads [venue.city.name] without a test where it builds the city: a venue
    may arrive without its city, and the transform then raises. *)

Record RawVenue : Type := {
  rv_id : string;
  rv_name : string;
  rv_city : option string;          (* venue.city?.name; None: no venue.city *)
  rv_stateCode : option string;
  rv_countryCode : string;
}.

Record RawEvent : Type := {
  raw_id : string;
  raw_name : string;
  raw_url : string;
  raw_images : list TmImage;
  raw_localDate : string;
  raw_localTime : option string;
  raw_statusCode : string;
  raw_timezone : string;
  raw_classifications : list TmClassification;
  raw_venues : list RawVenue;
  raw_attractions : list TmAttraction;
  raw_priceRanges : list TmPriceRange;
}.

Record RawResponse : Type := {
  raw_events : option (list RawEvent);   (* data._embedded?.events *)
}.

Module TicketmasterRaw.

(** The venue and the event as the interface declares them. *)
Definition declared_venue (v : RawVenue) : TmVenue :=
  {| ven_id := rv_id v; ven_name := rv_name v;
     ven_city := default "" (rv_city v);
     ven_stateCode := rv_stateCode v; ven_countryCode := rv_countryCode v |}.

Definition declared (event : RawEvent) : TicketmasterEvent :=
  {| ev_id := raw_id event; ev_name := raw_name event; ev_url := raw_url event;
     ev_images := raw_images event; ev_localDate := raw_localDate event;
     ev_localTime := raw_localTime event; ev_statusCode := raw_statusCode event;
     ev_timezone := raw_timezone event;
     ev_classifications := raw_classifications event;
     ev_venues := map declared_venue (raw_venues event);
     ev_attractions := raw_attractions event;
     ev_priceRanges := raw_priceRanges event |}.

(** [venue.city] is there, for the venue the transform reads (the first). *)
Definition has_city (event : RawEvent) : bool :=
  match head (raw_venues event) with
  | Some v => match rv_city v with Some _ => true | None => false end
  | None => true
  end.

(** [transformEvent] on an event as it arrives: [venue.city.name] raises a
    TypeError when the first venue has no city; otherwise the transform is
    the one of the declared event. *)
Definition transformEvent (event : RawEvent) : result External :=
  if has_city event
  then Ok (TicketmasterService.transformEvent (declared event))
  else Throw TypeError.

(** A result as a computation. *)
Definition lift {A} (r : result A) : M A :=
  match r with
  | Ok a => Effect.ret a
  | Throw e => Effect.throw e
  end.

(** [searchEvents], the network that answers with events as they arrive
    being a parameter. *)
Definition searchEvents (net : Request -> FetchOutcome RawResponse)
    (options : TicketmasterSearchOptions) : M (list RawEvent) :=
  Effect.try_catch
    (let* env := Effect.ask in
     if negb (JS.truthy (consumerKey env)) then Effect.ret []
     else
       let* response :=
         Effect.fetch (fun _ => net)
           (TicketmasterService.search_request (consumerKey env) options) in
       if negb (response_ok response)
       then Effect.throw (ApiError "Ticketmaster" (status response))
       else
         let* data := Effect.json response in
         Effect.ret (default [] (raw_events data)))
    (fun error => Effect.throw error).

(** [getEvent] *)
Definition getEvent (net : Request -> FetchOutcome RawEvent)
    (eventId : string) : M (option RawEvent) :=
  Effect.try_catch
    (let* env := Effect.ask in
     let* response :=
       Effect.fetch (fun _ => net)
         (TicketmasterService.event_request (consumerKey env) eventId) in
     if negb (response_ok response)
     then
       if (status response =? 404)%nat then Effect.ret None
       else Effect.throw (ApiError "Ticketmaster" (status response))
     else
       let* data := Effect.json response in
       Effect.ret (Some data))
    (fun error => Effect.throw error).

(** [searchTicketmasterEvents]: [events.map(event => transformEvent(event))]
    inside the [try] block. *)
Definition searchTicketmasterEvents (net : Request -> FetchOutcome RawResponse)
    (options : TicketmasterSearchOptions) : M (list External) :=
  Effect.try_catch
    (let* events := searchEvents net options in
     Effect.mapM (fun event => lift (transformEvent event)) events)
    (fun error => Effect.ret []).

(** [getTicketmasterEvent] *)
Definition getTicketmasterEvent (net : Request -> FetchOutcome RawEvent)
    (eventId : string) : M (option External) :=
  Effect.try_catch
    (let* event := getEvent net eventId in
     match event with
     | None => Effect.ret None
     | Some e =>
         let* concert := lift (transformEvent e) in
         Effect.ret (Some concert)
     end)
    (fun error => Effect.ret None).

End TicketmasterRaw.

(** *** Vocabulary of the revised properties *)

(** A text of ASCII characters only: on these the case folding of the model
    is the one of JavaScript and of ILIKE. *)
Fixpoint is_ascii (s : string) : bool :=
  match s with
  | EmptyString => true
  | String c s' => (nat_of_ascii c <? 128)%nat && is_ascii s'
  end.

(** The columns the search reads are ASCII. *)
Definition ascii_row (c : Concert) : bool :=
  is_ascii (artist (c_base c)) && is_ascii (venue (c_base c))
  && is_ascii (city (c_base c)).

(** The sizes of an image are whole numbers from 0 to 2^53 and so is their
    product: there the numbers of JavaScript hold the sizes, their product
    and the difference of two products without rounding. *)
Definition exact_area (img : TmImage) : Prop :=
  (0 <= img_width img <= 2 ^ 53)%Z /\ (0 <= img_height img <= 2 ^ 53)%Z
  /\ (img_width img * img_height img <= 2 ^ 53)%Z.

(** The rows of the store in the order of [getConcerts]: the matching rows,
    newest first. *)
Definition ordered_rows (d : Database) (o : QueryOptions) : list Concert :=
  sort_by (fun a b => SQL.desc (c_createdAt a) (c_createdAt b))
          (List.filter (PostgresStorage.matches o) (concerts d)).

(** An order the database may give to the matching rows under
    [ORDER BY created_at DESC]: these rows, each before the ones created
    no later.  Rows of the same creation time may stand either way. *)
Definition created_at_desc (d : Database) (o : QueryOptions)
    (rows : list Concert) : Prop :=
  rows ≡ₚ List.filter (PostgresStorage.matches o) (concerts d)
  /\ StronglySorted
       (fun a b => SQL.desc (c_createdAt a) (c_createdAt b) = true) rows.

(** [LIMIT n OFFSET k] of rows in a given order, each with its rating. *)
Definition page_of (d : Database) (rows : list Concert) (k n : nat)
  : list ConcertWithRating :=
  map (PostgresStorage.with_rating d) (take n (drop k rows)).

(** An environment whose three endpoints answer "not found". *)
Module NotFound.

Definition env : Env :=
  {| db := Fixture.catalogue;
     consumerKey := "key";
     apiKey := "archive-key";
     tm_net := fun _ => Resolved {| status := 404; body := BodyMalformed |};
     tm_event_net := fun _ => Resolved {| status := 404; body := BodyMalformed |};
     sfm_net := fun _ => Resolved {| status := 404; body := BodyMalformed |};
     clock := fun n => Z.of_nat n |}.

End NotFound.

(** Events as they arrive, with a venue that has its city or not. *)
Module Arrived.

Definition venue (city : option string) : RawVenue :=
  {| rv_id := "v9"; rv_name := "Olympia"; rv_city := city;
     rv_stateCode := None; rv_countryCode := "FR" |}.

Definition event (i : string) (venues : list RawVenue) : RawEvent :=
  {| raw_id := i; raw_name := "Nightfall";
     raw_url := "https://tm.example/" +:+ i; raw_images := [];
     raw_localDate := "2025-06-01"; raw_localTime := None;
     raw_statusCode := "onsale"; raw_timezone := "UTC";
     raw_classifications := []; raw_venues := venues;
     raw_attractions := []; raw_priceRanges := [] |}.

(** A search answer of two events, the second without the city of its
    venue. *)
Definition answer : Request -> FetchOutcome RawResponse :=
  fun _ =>
    Resolved
      {| status := 200;
         body := BodyJson
           {| raw_events :=
                Some [event "1" [venue (Some "Paris")];
                      event "2" [venue None]] |} |}.

Definition unavailable : Request -> FetchOutcome RawResponse :=
  fun _ => Resolved {| status := 503; body := BodyMalformed |}.

(** The answer to the lookup of one event. *)
Definition found (city : option string) : Request -> FetchOutcome RawEvent :=
  fun _ =>
    Resolved {| status := 200; body := BodyJson (event "123" [venue city]) |}.

End Arrived.

(** * Properties *)

(** ** Strings *)

Lemma digits_dash_free n s : digits n s = true -> dash_free s = true.
Proof.
  revert n; induction s as [|c s IH]; intros [|n]; simpl; try done.
  intros [Hc Hs]%andb_prop. rewrite (IH _ Hs), andb_true_r.
  unfold is_digit in Hc. apply andb_prop in Hc as [H1%Nat.leb_le _].
  destruct (Ascii.eqb_spec c SetlistFmService.dash) as [->|]; [|done].
  vm_compute in H1. lia.
Qed.

Lemma digits_length n s : digits n s = true -> String.length s = n.
Proof.
  revert n; induction s as [|c s IH]; intros [|n]; simpl; try done.
  intros [_ Hs]%andb_prop. by rewrite (IH _ Hs).
Qed.

Lemma split_dash_free s :
  dash_free s = true -> JS.split SetlistFmService.dash s = [s].
Proof.
  induction s as [|c s IH]; simpl; [done|].
  intros [Hc Hs]%andb_prop. apply negb_true_iff in Hc. rewrite Hc.
  by rewrite (IH Hs).
Qed.

Lemma split_at_dash a b :
  dash_free a = true ->
  JS.split SetlistFmService.dash (a +:+ String SetlistFmService.dash b)
  = a :: JS.split SetlistFmService.dash b.
Proof.
  induction a as [|c a IH]; simpl.
  - done.
  - intros [Hc Ha]%andb_prop. apply negb_true_iff in Hc.
    rewrite Hc. by rewrite (IH Ha).
Qed.

Lemma split_dmy d m y :
  dash_free d = true -> dash_free m = true -> dash_free y = true ->
  JS.split SetlistFmService.dash (dmy d m y) = [d; m; y].
Proof.
  intros Hd Hm Hy. unfold dmy.
  change (d +:+ "-" +:+ m +:+ "-" +:+ y)
    with (d +:+ String SetlistFmService.dash (m +:+ String SetlistFmService.dash y)).
  rewrite (split_at_dash _ _ Hd), (split_at_dash _ _ Hm).
  by rewrite (split_dash_free _ Hy).
Qed.

Lemma padStart_two s :
  digits 2 s = true -> JS.padStart 2 SetlistFmService.zero s = s.
Proof.
  intros H. unfold JS.padStart. by rewrite (digits_length _ _ H).
Qed.

Lemma padStart_one s :
  digits 1 s = true ->
  JS.padStart 2 SetlistFmService.zero s = String SetlistFmService.zero s.
Proof.
  intros H. unfold JS.padStart. by rewrite (digits_length _ _ H).
Qed.

Lemma padStart_digits s :
  one_or_two_digits s = true ->
  digits 2 (JS.padStart 2 SetlistFmService.zero s) = true.
Proof.
  intros [H|H]%orb_prop.
  - rewrite (padStart_one _ H). simpl. by destruct s.
  - by rewrite (padStart_two _ H).
Qed.

Lemma convertDateFormat_dmy d m y :
  dash_free d = true -> dash_free m = true -> dash_free y = true ->
  SetlistFmService.convertDateFormat (dmy d m y)
  = dmy y (JS.padStart 2 SetlistFmService.zero m)
          (JS.padStart 2 SetlistFmService.zero d).
Proof.
  intros Hd Hm Hy.
  unfold SetlistFmService.convertDateFormat, SetlistFmService.convertDateFormat_try.
  by rewrite (split_dmy _ _ _ Hd Hm Hy).
Qed.

Lemma split_nonempty sep s : JS.split sep s <> [].
Proof.
  destruct s as [|c s]; simpl; [done|].
  destruct (Ascii.eqb c sep); [done|].
  by destruct (JS.split sep s).
Qed.

(** The [try] block of the conversion raises exactly on the strings that
    hold no ['-'] at all. *)
Lemma convertDateFormat_try_raises s :
  (exists e, SetlistFmService.convertDateFormat_try s = Throw e)
  <-> dash_free s = true.
Proof.
  unfold SetlistFmService.convertDateFormat_try. split.
  - intros [e He]. induction s as [|c s IH]; [done|].
    simpl in *. destruct (Ascii.eqb c SetlistFmService.dash) eqn:Hc.
    + pose proof (split_nonempty SetlistFmService.dash s) as Hne.
      by destruct (JS.split SetlistFmService.dash s).
    + simpl. apply IH.
      by destruct (JS.split SetlistFmService.dash s) as [|h [|h' tl]].
  - intros H. rewrite (split_dash_free _ H). by exists TypeError.
Qed.

Lemma iso_shape_dmy y m d :
  digits 4 y = true -> digits 2 m = true -> digits 2 d = true ->
  iso_shape (dmy y m d) = true.
Proof.
  intros Hy Hm Hd. unfold iso_shape.
  rewrite split_dmy by eauto using digits_dash_free.
  by rewrite Hy, Hm, Hd.
Qed.

(** ** The historical provider's date conversion *)

(** The date conversion as the code has it.  A native day-month-year date
    (two digits, two digits, four digits, ['-'] between them) becomes
    YYYY-MM-DD, so "05-03-2024" becomes "2024-03-05"; the [try] block raises
    exactly on the strings without any ['-'], and only these reach the
    [catch] block that returns the native string; the date of a transformed
    setlist is the converted date, and a page of setlists is transformed
    record by record, none dropped and no error raised, whatever the dates
    are. *)
Theorem transformSetlist_date_conversion :
  (forall d m y : string,
     digits 2 d = true -> digits 2 m = true -> digits 4 y = true ->
     SetlistFmService.convertDateFormat (dmy d m y) = dmy y m d)
  /\ SetlistFmService.convertDateFormat "05-03-2024" = "2024-03-05"
  /\ (forall (s : string) (e : Error),
        SetlistFmService.convertDateFormat_try s = Throw e ->
        SetlistFmService.convertDateFormat s = s)
  /\ (forall s : string,
        (exists e, SetlistFmService.convertDateFormat_try s = Throw e)
        <-> dash_free s = true)
  /\ (forall sl : SetlistFmSetlist,
        date (ext_base (SetlistFmService.transformSetlist sl))
        = SetlistFmService.convertDateFormat (sl_eventDate sl))
  /\ (forall (env : Env) (t : nat) (options : SetlistFmSearchOptions)
             (setlists : list SetlistFmSetlist),
        res (SetlistFmService.searchSetlists options env t) = Ok setlists ->
        res (PostgresStorage.searchSetlistFmEvents options env t)
        = Ok (map SetlistFmService.transformSetlist setlists)).
Proof.
  split; [|split; [|split; [|split; [|split]]]].
  - intros d m y Hd Hm Hy.
    rewrite convertDateFormat_dmy by eauto using digits_dash_free.
    by rewrite (padStart_two _ Hd), (padStart_two _ Hm).
  - reflexivity.
  - intros s e He. unfold SetlistFmService.convertDateFormat. by rewrite He.
  - apply convertDateFormat_try_raises.
  - reflexivity.
  - intros env t options setlists H.
    unfold PostgresStorage.searchSetlistFmEvents,
      PostgresStorage.searchSetlistFmEvents_try, Effect.try_catch, Effect.bind.
    by rewrite H.
Qed.

Lemma transformSetlist_date_conversion_witness :
  SetlistFmService.convertDateFormat (dmy "31" "12" "1999") = dmy "1999" "12" "31"
  /\ SetlistFmService.convertDateFormat "unknown" = "unknown"
  /\ res (PostgresStorage.searchSetlistFmEvents Fixture.no_sfm_options
            (Fixture.archive_env Fixture.two_setlists) 0)
     = Ok (map SetlistFmService.transformSetlist
             [Fixture.setlist "s1" "05-03-2024"; Fixture.setlist "s2" "unknown"])
  /\ [SetlistFmService.convertDateFormat
         (sl_eventDate (Fixture.setlist "s1" "05-03-2024"));
       date (ext_base (SetlistFmService.transformSetlist
                         (Fixture.setlist "s2" "unknown")))]
     = ["2024-03-05"; "unknown"].
Proof.
  destruct transformSetlist_date_conversion
    as (Hdmy & _ & Hfail & _ & Hdate & Hpage).
  split; [|split; [|split]].
  - apply Hdmy; reflexivity.
  - apply (Hfail "unknown" TypeError). reflexivity.
  - apply (Hpage (Fixture.archive_env Fixture.two_setlists) 0
             Fixture.no_sfm_options). reflexivity.
  - rewrite <- (Hdate (Fixture.setlist "s1" "05-03-2024")). reflexivity.
Defined.

(** C8. The code departs from the claim.  The first half holds: "05-03-2024" becomes
    "2024-03-05".  The second half does not: a native date that is not of the
    form day-month-year is not returned as it is as soon as it holds a ['-'].
    The [catch] block of [convertDateFormat] ("return as-is if parsing
    fails") is reached only when [month] or [day] is undefined where
    [padStart] is called on it, that is for the strings without any ['-'];
    for "05-2024" the [try] block does not raise ([year] is undefined and
    the template prints it), and the transformed setlist carries the date
    "undefined-2024-05"; "ab-cd-efgh" becomes "efgh-cd-ab". *)
Theorem convertDateFormat_rewrites_malformed_dates :
  SetlistFmService.convertDateFormat "05-03-2024" = "2024-03-05"
  /\ SetlistFmService.convertDateFormat_try "05-2024" = Ok "undefined-2024-05"
  /\ SetlistFmService.convertDateFormat "05-2024" = "undefined-2024-05"
  /\ SetlistFmService.convertDateFormat "05-2024" <> "05-2024"
  /\ SetlistFmService.convertDateFormat "ab-cd-efgh" = "efgh-cd-ab"
  /\ SetlistFmService.convertDateFormat "2024-03-05" = "05-03-2024"
  /\ date (ext_base (SetlistFmService.transformSetlist
                       (Fixture.setlist "s1" "05-2024")))
     = "undefined-2024-05"
  /\ date (ext_base (SetlistFmService.transformSetlist
                       (Fixture.setlist "s1" "05-2024")))
     <> sl_eventDate (Fixture.setlist "s1" "05-2024").
Proof. repeat split; try reflexivity; discriminate. Qed.

(** C10. For a day-month-year date with ['-'] separators whose day and month
    have one or two digits and whose year has four, the conversion pads day
    and month on the left with ['0'] to two digits, and the result has the
    strict shape YYYY-MM-DD. *)
Theorem convertDateFormat_pads_day_and_month (d m y : string) :
  one_or_two_digits d = true ->
  one_or_two_digits m = true ->
  digits 4 y = true ->
  SetlistFmService.convertDateFormat (dmy d m y)
  = dmy y (JS.padStart 2 SetlistFmService.zero m)
          (JS.padStart 2 SetlistFmService.zero d)
  /\ (digits 1 d = true ->
      JS.padStart 2 SetlistFmService.zero d = String SetlistFmService.zero d)
  /\ (digits 1 m = true ->
      JS.padStart 2 SetlistFmService.zero m = String SetlistFmService.zero m)
  /\ (digits 2 d = true -> JS.padStart 2 SetlistFmService.zero d = d)
  /\ (digits 2 m = true -> JS.padStart 2 SetlistFmService.zero m = m)
  /\ iso_shape (SetlistFmService.convertDateFormat (dmy d m y)) = true.
Proof.
  intros Hd Hm Hy.
  assert (dash_free d = true /\ dash_free m = true) as [Hd' Hm'].
  { apply orb_prop in Hd, Hm.
    split; [destruct Hd|destruct Hm]; eauto using digits_dash_free. }
  pose proof (digits_dash_free _ _ Hy) as Hy'.
  rewrite (convertDateFormat_dmy _ _ _ Hd' Hm' Hy').
  repeat split.
  - apply padStart_one.
  - apply padStart_one.
  - apply padStart_two.
  - apply padStart_two.
  - apply iso_shape_dmy; auto using padStart_digits.
Qed.

Lemma convertDateFormat_pads_day_and_month_witness :
  SetlistFmService.convertDateFormat "5-3-2024" = "2024-03-05"
  /\ iso_shape (SetlistFmService.convertDateFormat "5-3-2024") = true.
Proof.
  destruct (convertDateFormat_pads_day_and_month "5" "3" "2024")
    as (Heq & _ & _ & _ & _ & Hshape); [reflexivity..|].
  split; [exact Heq | exact Hshape].
Defined.

(** ** The provider clients *)

Ltac run_effects :=
  unfold Effect.try_catch, Effect.bind, Effect.ask, Effect.fetch, Effect.json,
    Effect.ret, Effect.throw; simpl.

Lemma searchEvents_no_key env t options :
  JS.truthy (consumerKey env) = false ->
  TicketmasterService.searchEvents options env t = Build_Outcome (Ok []) t [].
Proof.
  intros Hkey. unfold TicketmasterService.searchEvents. run_effects.
  by rewrite Hkey.
Qed.

Lemma searchEvents_not_ok env t options r :
  JS.truthy (consumerKey env) = true ->
  tm_net env (TicketmasterService.search_request (consumerKey env) options)
  = Resolved r ->
  response_ok r = false ->
  TicketmasterService.searchEvents options env t
  = Build_Outcome (Throw (ApiError "Ticketmaster" (status r))) t
      [TicketmasterService.search_request (consumerKey env) options].
Proof.
  intros Hkey Hnet Hok. unfold TicketmasterService.searchEvents. run_effects.
  rewrite Hkey. simpl. rewrite Hnet. simpl. by rewrite Hok.
Qed.

Lemma searchEvents_ticks env t options :
  ticks (TicketmasterService.searchEvents options env t) = t.
Proof.
  unfold TicketmasterService.searchEvents. run_effects.
  destruct (JS.truthy (consumerKey env)); simpl; [|done].
  destruct (tm_net env _) as [|r]; simpl; [done|].
  destruct (response_ok r); simpl; [|done].
  unfold Effect.json. by destruct (body r).
Qed.

Lemma searchSetlists_ok env t options :
  exists setlists,
    SetlistFmService.searchSetlists options env t
    = Build_Outcome (Ok setlists) t
        (sent (SetlistFmService.searchSetlists options env t))
    /\ (sfm_failed env options = true -> setlists = []).
Proof.
  unfold SetlistFmService.searchSetlists, sfm_failed. run_effects.
  destruct (JS.truthy (apiKey env)); simpl; [|by exists []].
  destruct (sfm_net env _) as [|r]; simpl; [by exists []|].
  destruct (response_ok r); simpl.
  - unfold Effect.json. destruct (body r) as [|data]; simpl; run_effects.
    + by exists [].
    + by exists (default [] (sfm_setlist data)).
  - destruct (status r =? 404)%nat; simpl; run_effects; by exists [].
Qed.

(** C9. Whatever the outcome of the request (no credentials, not found,
    another non-2xx status, a network failure, a malformed body),
    [searchSetlists] returns a list, the empty one on every failure, and
    raises nothing: the [try] block of [searchSetlistFmEvents] that calls it
    completes, so its [catch] block is not entered. *)
Theorem searchSetlists_never_raises
    (env : Env) (t : nat) (options : SetlistFmSearchOptions) :
  exists setlists : list SetlistFmSetlist,
    res (SetlistFmService.searchSetlists options env t) = Ok setlists
    /\ (sfm_failed env options = true -> setlists = [])
    /\ res (PostgresStorage.searchSetlistFmEvents_try options env t)
       = Ok (map SetlistFmService.transformSetlist setlists)
    /\ res (PostgresStorage.searchSetlistFmEvents options env t)
       = Ok (map SetlistFmService.transformSetlist setlists).
Proof.
  destruct (searchSetlists_ok env t options) as (setlists & Hrun & Hfail).
  exists setlists.
  assert (res (PostgresStorage.searchSetlistFmEvents_try options env t)
          = Ok (map SetlistFmService.transformSetlist setlists)) as Htry.
  { unfold PostgresStorage.searchSetlistFmEvents_try, Effect.bind.
    by rewrite Hrun. }
  repeat split; [by rewrite Hrun | done | done |].
  unfold PostgresStorage.searchSetlistFmEvents, Effect.try_catch.
  by rewrite Htry.
Qed.

Lemma searchSetlists_never_raises_witness :
  sfm_failed (Fixture.archive_env Fixture.archive_unavailable)
             Fixture.no_sfm_options = true
  /\ res (SetlistFmService.searchSetlists Fixture.no_sfm_options
            (Fixture.archive_env Fixture.archive_unavailable) 0) = Ok [].
Proof.
  destruct (searchSetlists_never_raises
              (Fixture.archive_env Fixture.archive_unavailable) 0
              Fixture.no_sfm_options) as (setlists & Hres & Hfail & _).
  split; [reflexivity|].
  rewrite Hres. f_equal. apply Hfail. reflexivity.
Defined.

Lemma getEvent_not_found env t eventId r :
  tm_event_net env (TicketmasterService.event_request (consumerKey env) eventId)
  = Resolved r ->
  status r = 404 ->
  res (TicketmasterService.getEvent eventId env t) = Ok None.
Proof.
  intros Hnet Hstatus. unfold TicketmasterService.getEvent. run_effects.
  rewrite Hnet. simpl. unfold response_ok. by rewrite Hstatus.
Qed.

(** [searchEvents] as the code has it.  Without credentials it returns the
    empty list and sends no request.  With credentials, every response whose
    status is not 2xx, the not-found one (404) included, raises the error
    that carries the status.  Only the single-event lookup [getEvent] answers
    a 404 without an error (with [null]). *)
Theorem searchEvents_raises_on_every_http_failure
    (env : Env) (t : nat) (options : TicketmasterSearchOptions) :
  (JS.truthy (consumerKey env) = false ->
   res (TicketmasterService.searchEvents options env t) = Ok []
   /\ sent (TicketmasterService.searchEvents options env t) = [])
  /\ (forall r : Response TicketmasterResponse,
        JS.truthy (consumerKey env) = true ->
        tm_net env (TicketmasterService.search_request (consumerKey env) options)
        = Resolved r ->
        response_ok r = false ->
        res (TicketmasterService.searchEvents options env t)
        = Throw (ApiError "Ticketmaster" (status r)))
  /\ (forall (eventId : string) (r : Response TicketmasterEvent),
        tm_event_net env
          (TicketmasterService.event_request (consumerKey env) eventId)
        = Resolved r ->
        status r = 404 ->
        res (TicketmasterService.getEvent eventId env t) = Ok None).
Proof.
  split; [|split].
  - intros Hkey. by rewrite (searchEvents_no_key _ _ _ Hkey).
  - intros r Hkey Hnet Hok. by rewrite (searchEvents_not_ok _ _ _ _ Hkey Hnet Hok).
  - intros eventId r. apply getEvent_not_found.
Qed.

Lemma searchEvents_raises_on_every_http_failure_witness :
  res (TicketmasterService.searchEvents Fixture.no_options
         (Fixture.env Fixture.unavailable) 0)
  = Throw (ApiError "Ticketmaster" 503)
  /\ res (TicketmasterService.searchEvents Fixture.no_options
            Fixture.unconfigured 0) = Ok []
  /\ sent (TicketmasterService.searchEvents Fixture.no_options
             Fixture.unconfigured 0) = [].
Proof.
  split.
  - destruct (searchEvents_raises_on_every_http_failure
                (Fixture.env Fixture.unavailable) 0 Fixture.no_options)
      as (_ & Hfail & _).
    apply (Hfail {| status := 503; body := BodyMalformed |}); reflexivity.
  - destruct (searchEvents_raises_on_every_http_failure
                Fixture.unconfigured 0 Fixture.no_options) as (Hnokey & _).
    apply Hnokey. reflexivity.
Defined.

(** C7. The code departs from the claim.  The call without credentials
    returns the empty list and sends nothing, as the claim says.  On a
    not-found response (HTTP 404) [searchEvents] raises the error that
    carries the status, where the claim has the empty list: its only guard is [if (!response.ok) throw], without
    the test [response.status === 404] that the single-event lookup
    [getEvent] of the same client (answer: [null]) and the search of the
    historical client [searchSetlists] (answer: the empty list) make before
    they throw.  The storage wrapper [searchTicketmasterEvents] turns the
    error into the empty list, as it does with every other error. *)
Theorem searchEvents_not_found_unlike_siblings :
  res (TicketmasterService.searchEvents Fixture.no_options NotFound.env 0)
  = Throw (ApiError "Ticketmaster" 404)
  /\ res (TicketmasterService.searchEvents Fixture.no_options NotFound.env 0)
     <> Ok []
  /\ res (TicketmasterService.getEvent "e1" NotFound.env 0) = Ok None
  /\ res (SetlistFmService.searchSetlists Fixture.no_sfm_options NotFound.env 0)
     = Ok []
  /\ res (PostgresStorage.searchTicketmasterEvents Fixture.no_options
            NotFound.env 0) = Ok []
  /\ res (TicketmasterService.searchEvents Fixture.no_options
            Fixture.unconfigured 0) = Ok []
  /\ sent (TicketmasterService.searchEvents Fixture.no_options
             Fixture.unconfigured 0) = [].
Proof. repeat split; try reflexivity; discriminate. Qed.

(** ** The aggregation, step by step *)

Lemma runs_ret {A} (a : A) env t : runs (Effect.ret a) env t a t.
Proof. by split. Qed.

Lemma runs_bind {A B} (m : M A) (f : A -> M B) env t a t' b t'' :
  runs m env t a t' -> runs (f a) env t' b t'' ->
  runs (Effect.bind m f) env t b t''.
Proof.
  intros [Hres Hticks] [Hres' Hticks']. unfold runs, Effect.bind.
  rewrite Hres, Hticks. simpl. by rewrite Hres', Hticks'.
Qed.

Lemma runs_try_catch {A} (m : M A) (h : Error -> M A) env t a t' :
  runs m env t a t' -> runs (Effect.try_catch m h) env t a t'.
Proof.
  intros [Hres Hticks]. unfold runs, Effect.try_catch. by rewrite Hres.
Qed.

Lemma getConcerts_run env t o :
  runs (PostgresStorage.getConcerts o) env t
       (PostgresStorage.select_concerts (db env) o) t.
Proof. by split. Qed.

Lemma searchTicketmasterEvents_run env t o :
  runs (PostgresStorage.searchTicketmasterEvents (PostgresStorage.tmOptions o))
       env t (live_events env o) t.
Proof.
  unfold runs, live_events, PostgresStorage.searchTicketmasterEvents,
    PostgresStorage.searchTicketmasterEvents_try,
    TicketmasterService.searchEvents.
  run_effects.
  destruct (JS.truthy (consumerKey env)); simpl; [|done].
  destruct (tm_net env _) as [|r]; simpl; [done|].
  destruct (response_ok r); simpl; [|done].
  unfold Effect.json. by destruct (body r).
Qed.

Lemma searchSetlistFmEvents_run env t o :
  runs (PostgresStorage.searchSetlistFmEvents (PostgresStorage.sfmOptions o))
       env t (historical_events env o) t.
Proof.
  unfold runs, historical_events, PostgresStorage.searchSetlistFmEvents,
    PostgresStorage.searchSetlistFmEvents_try,
    SetlistFmService.searchSetlists.
  run_effects.
  destruct (JS.truthy (apiKey env)); simpl; [|done].
  destruct (sfm_net env _) as [|r]; simpl; [done|].
  destruct (response_ok r); simpl.
  - unfold Effect.json. by destruct (body r).
  - by destruct (status r =? 404)%nat.
Qed.

Lemma unrated_run env t event :
  runs (PostgresStorage.unrated event) env t
       (stamp event (clock env t) (clock env (S t))) (S (S t)).
Proof. by split. Qed.

Lemma mapM_unrated_run env t events :
  runs (Effect.mapM PostgresStorage.unrated events) env t
       (stamped (clock env) t events) (t + 2 * length events).
Proof.
  revert t; induction events as [|e events IH]; intros t;
    cbn [Effect.mapM stamped length].
  - replace (t + 2 * 0) with t by lia. apply runs_ret.
  - replace (t + 2 * S (length events)) with (S (S t) + 2 * length events) by lia.
    eapply runs_bind; [apply unrated_run|].
    eapply runs_bind; [apply IH|]. apply runs_ret.
Qed.

Lemma getConcertsWithHistorical_try_run env t o :
  exists t',
    runs (PostgresStorage.getConcertsWithHistorical_try o) env t
         (aggregated env t o) t'.
Proof.
  unfold PostgresStorage.getConcertsWithHistorical_try, aggregated, merged,
    live_part, historical_part, ticks_after_live.
  destruct (JS.truthy_bool (includeTicketmaster o));
    destruct (JS.truthy_bool (includeHistorical o));
    eexists;
    (eapply runs_bind; [apply getConcerts_run|]);
    (eapply runs_bind;
       [ first [ apply runs_ret
               | eapply runs_bind; [apply searchTicketmasterEvents_run|];
                 eapply runs_bind; [apply mapM_unrated_run|]; apply runs_ret ]
       | ]);
    (eapply runs_bind;
       [ first [ apply runs_ret
               | eapply runs_bind; [apply searchSetlistFmEvents_run|];
                 eapply runs_bind; [apply mapM_unrated_run|]; apply runs_ret ]
       | ]);
    apply runs_ret.
Qed.

(** The aggregation returns a list on every input: its [try] block
    completes and its [catch] block is not entered. *)
Lemma getConcertsWithHistorical_run env t o :
  res (PostgresStorage.getConcertsWithHistorical o env t)
  = Ok (aggregated env t o).
Proof.
  destruct (getConcertsWithHistorical_try_run env t o) as [t' Hrun].
  by destruct (runs_try_catch _ (fun _ => PostgresStorage.getConcerts o)
                 _ _ _ _ Hrun).
Qed.

(** ** C1: a failure of the live provider *)

Lemma searchEvents_res_any_time env t t' options :
  res (TicketmasterService.searchEvents options env t)
  = res (TicketmasterService.searchEvents options env t').
Proof.
  unfold TicketmasterService.searchEvents. run_effects.
  destruct (JS.truthy (consumerKey env)); simpl; [|done].
  destruct (tm_net env _) as [|r]; simpl; [done|].
  destruct (response_ok r); simpl; [|done].
  unfold Effect.json. by destruct (body r).
Qed.

(** When [searchEvents] raises, the storage wrapper hands over nothing. *)
Lemma live_events_on_failure env t o e :
  res (TicketmasterService.searchEvents (PostgresStorage.tmOptions o) env t)
  = Throw e ->
  live_events env o = [].
Proof.
  rewrite (searchEvents_res_any_time env t 0). intros H.
  unfold live_events, PostgresStorage.searchTicketmasterEvents,
    PostgresStorage.searchTicketmasterEvents_try, Effect.try_catch, Effect.bind.
  by rewrite H.
Qed.

Lemma aggregated_without_live env t o :
  live_events env o = [] ->
  aggregated env t o = aggregated env t (without_live o).
Proof.
  intros Hlive.
  unfold aggregated, merged, historical_part, ticks_after_live, live_part.
  rewrite Hlive. simpl.
  destruct (JS.truthy_bool (includeTicketmaster o)); simpl;
    [rewrite Nat.add_0_r|]; reflexivity.
Qed.

Lemma aggregated_local_only env t o :
  live_part env t o = [] ->
  JS.truthy_bool (includeHistorical o) = false ->
  aggregated env t o = local_only env o.
Proof.
  intros Hlive Hhist. unfold aggregated, merged, historical_part, local_only.
  by rewrite Hlive, Hhist.
Qed.

(** C1. When the call of the live provider raises, the aggregation still
    returns a list, and that list is the one it returns with the live
    provider switched off: the failed source contributes nothing.  With the
    historical provider off as well, the list is the local-only one (the
    rows of the store through the two filters and the window). *)
Theorem provider_failure_degrades_to_local
    (env : Env) (t : nat) (o : QueryOptions) (e : Error) :
  res (TicketmasterService.searchEvents (PostgresStorage.tmOptions o) env t)
  = Throw e ->
  exists l : list ConcertWithRating,
    res (PostgresStorage.getConcertsWithHistorical o env t) = Ok l
    /\ res (PostgresStorage.getConcertsWithHistorical (without_live o) env t)
       = Ok l
    /\ (JS.truthy_bool (includeHistorical o) = false -> l = local_only env o).
Proof.
  intros Hfail. exists (aggregated env t o).
  pose proof (live_events_on_failure _ _ _ _ Hfail) as Hlive.
  split; [apply getConcertsWithHistorical_run|]. split.
  - rewrite getConcertsWithHistorical_run.
    by rewrite <- (aggregated_without_live _ _ _ Hlive).
  - intros Hhist. apply aggregated_local_only; [|done].
    unfold live_part. rewrite Hlive.
    destruct (JS.truthy_bool (includeTicketmaster o)); reflexivity.
Qed.

Lemma provider_failure_degrades_to_local_witness :
  exists l : list ConcertWithRating,
    res (PostgresStorage.getConcertsWithHistorical
           (Fixture.options (Some 20) (Some 0) true)
           (Fixture.env Fixture.unavailable) 0) = Ok l
    /\ res (PostgresStorage.getConcertsWithHistorical
              (Fixture.options (Some 20) (Some 0) false)
              (Fixture.env Fixture.unavailable) 0) = Ok l
    /\ ids_of l = ["c1"; "c2"].
Proof.
  destruct (provider_failure_degrades_to_local
              (Fixture.env Fixture.unavailable) 0
              (Fixture.options (Some 20) (Some 0) true)
              (ApiError "Ticketmaster" 503) eq_refl)
    as (l & Hrun & Hoff & Hlocal).
  exists l. split; [exact Hrun|]. split; [exact Hoff|].
  rewrite (Hlocal eq_refl). reflexivity.
Defined.

(** ** The merge *)

Local Open Scope list_scope.

Lemma filter_sublist {A} (f : A -> bool) (l : list A) :
  List.filter f l `sublist_of` l.
Proof.
  induction l as [|x l IH]; simpl; [done|].
  destruct (f x); by constructor.
Qed.

Lemma insert_by_Permutation {A} (before : A -> A -> bool) x l :
  insert_by before x l ≡ₚ x :: l.
Proof.
  induction l as [|y l IH]; simpl; [done|].
  destruct (before x y); [done|].
  rewrite IH. apply Permutation_swap.
Qed.

Lemma sort_by_Permutation {A} (before : A -> A -> bool) l :
  sort_by before l ≡ₚ l.
Proof.
  induction l as [|x l IH]; simpl; [done|].
  by rewrite insert_by_Permutation, IH.
Qed.

Lemma aggregated_sublist env t o :
  aggregated env t o `sublist_of` (merged env t o).1.
Proof.
  unfold aggregated, PostgresStorage.paginate, JS.slice.
  etrans; [apply sublist_take|]. etrans; [apply sublist_drop|].
  etrans.
  - unfold PostgresStorage.genre_filter.
    destruct (o_genre o) as [g|]; [|reflexivity].
    destruct (JS.truthy g); [apply filter_sublist|reflexivity].
  - unfold PostgresStorage.search_filter.
    destruct (search o) as [s|]; [|reflexivity].
    destruct (JS.truthy s); [apply filter_sublist|reflexivity].
Qed.

(** The rows [getConcerts] returns are rows of the store with their
    aggregates, and their ids are pairwise distinct. *)
Lemma select_concerts_rows d o c :
  c ∈ PostgresStorage.select_concerts d o ->
  exists row, row ∈ concerts d /\ c = PostgresStorage.with_rating d row.
Proof.
  unfold PostgresStorage.select_concerts.
  change (map (PostgresStorage.with_rating d) ?l)
    with (PostgresStorage.with_rating d <$> l).
  intros (row & -> & Hrow)%list_elem_of_fmap. exists row. split; [|done].
  eapply elem_of_sublist in Hrow;
    [|etrans; [apply sublist_take|apply sublist_drop]].
  rewrite sort_by_Permutation in Hrow.
  eapply elem_of_sublist; [exact Hrow|apply filter_sublist].
Qed.

Lemma select_concerts_ids_NoDup d o :
  primary_key d -> NoDup (ids_of (PostgresStorage.select_concerts d o)).
Proof.
  unfold primary_key, ids_of, PostgresStorage.select_concerts. intros Hkey.
  rewrite map_map. simpl.
  change (map ?f ?l) with (f <$> l) in *.
  eapply sublist_NoDup;
    [|apply fmap_sublist; etrans; [apply sublist_take|apply sublist_drop]].
  rewrite sort_by_Permutation.
  eapply sublist_NoDup; [exact Hkey|].
  apply fmap_sublist, filter_sublist.
Qed.

Lemma ids_of_app l1 l2 : ids_of (l1 ++ l2) = ids_of l1 ++ ids_of l2.
Proof. apply map_app. Qed.

Lemma merge_inv_init l :
  NoDup (ids_of l) -> merge_inv (l, list_to_set (ids_of l)).
Proof. intros H. split; [done|]. intros x. simpl. apply elem_of_list_to_set. Qed.

Lemma push_unseen_inv acc c :
  merge_inv acc -> merge_inv (PostgresStorage.push_unseen acc c).
Proof.
  intros [Hnd Hset]. unfold PostgresStorage.push_unseen.
  destruct (decide (id (base c) ∈ acc.2)) as [Hin|Hnotin]; [done|].
  split; simpl.
  - rewrite ids_of_app. apply NoDup_app. split; [done|]. split.
    + intros x Hx [->|[]%elem_of_nil]%elem_of_cons. by apply Hnotin, Hset.
    + apply NoDup_singleton.
  - intros x. rewrite ids_of_app, elem_of_union, elem_of_singleton, elem_of_app.
    rewrite Hset. simpl. rewrite list_elem_of_singleton. tauto.
Qed.

Lemma add_all_inv cs acc :
  merge_inv acc -> merge_inv (PostgresStorage.add_all cs acc).
Proof.
  revert acc; induction cs as [|c cs IH]; intros acc Hacc; simpl; [done|].
  apply IH. by apply push_unseen_inv.
Qed.

Lemma push_unseen_seen acc c x :
  x ∈ acc.2 -> x ∈ (PostgresStorage.push_unseen acc c).2.
Proof.
  unfold PostgresStorage.push_unseen. destruct (decide _); simpl; [done|].
  set_solver.
Qed.

Lemma add_all_seen cs acc x :
  x ∈ acc.2 -> x ∈ (PostgresStorage.add_all cs acc).2.
Proof.
  revert acc; induction cs as [|c cs IH]; intros acc Hx; simpl; [done|].
  by apply IH, push_unseen_seen.
Qed.

(** An entry of the combined list was there before the loop, or it is one
    of the new records and its id had not been seen. *)
Lemma add_all_elem cs acc c :
  c ∈ (PostgresStorage.add_all cs acc).1 ->
  c ∈ acc.1 \/ (c ∈ cs /\ id (base c) ∉ acc.2).
Proof.
  revert acc; induction cs as [|c0 cs IH]; intros acc; simpl; [by left|].
  intros [Hin|[Hin Hnew]]%IH.
  - unfold PostgresStorage.push_unseen in Hin.
    destruct (decide (id (base c0) ∈ acc.2)) as [|Hnotin]; [by left|].
    simpl in Hin. apply elem_of_app in Hin as [|Hc]; [by left|].
    apply list_elem_of_singleton in Hc as ->. right. split; [left|done].
  - right. split; [by right|]. intros Hx. by apply Hnew, push_unseen_seen.
Qed.

(** The combined list keeps the list it started from as a prefix. *)
Lemma add_all_prefix cs acc :
  acc.1 `prefix_of` (PostgresStorage.add_all cs acc).1.
Proof.
  revert acc; induction cs as [|c cs IH]; intros acc; simpl; [done|].
  etrans; [|apply IH]. unfold PostgresStorage.push_unseen.
  destruct (decide _); simpl; [done|]. by apply prefix_app_r.
Qed.

Lemma merged_inv env t o : primary_key (db env) -> merge_inv (merged env t o).
Proof.
  intros Hkey. unfold merged.
  by apply add_all_inv, add_all_inv, merge_inv_init, select_concerts_ids_NoDup.
Qed.

(** Where an entry of the combined list comes from. *)
Lemma merged_elem env t o c :
  c ∈ (merged env t o).1 ->
  c ∈ PostgresStorage.select_concerts (db env) o
  \/ (c ∈ live_part env t o ∨ c ∈ historical_part env t o)
     /\ id (base c) ∉ ids_of (PostgresStorage.select_concerts (db env) o).
Proof.
  unfold merged. intros [Hin|[Hin Hnew]]%add_all_elem.
  - apply add_all_elem in Hin as [Hin|[Hin Hnew]]; [by left|].
    right. split; [by left|]. simpl in Hnew.
    by rewrite elem_of_list_to_set in Hnew.
  - right. split; [by right|]. intros Hx. apply Hnew, add_all_seen. simpl.
    by apply elem_of_list_to_set.
Qed.

(** ** C4: the ids of a result are pairwise distinct *)

(** C4. Under the primary key of the store, the aggregation returns a list
    whose ids are pairwise distinct, whatever the providers answer
    (duplicates among their records included); an entry whose id is the id
    of a local row of the page is that local row; and the local rows stand
    first in the combined list. *)
Theorem query_ids_unique (env : Env) (t : nat) (o : QueryOptions) :
  primary_key (db env) ->
  exists l : list ConcertWithRating,
    res (PostgresStorage.getConcertsWithHistorical o env t) = Ok l
    /\ NoDup (ids_of l)
    /\ (forall c : ConcertWithRating,
          c ∈ l ->
          id (base c) ∈ ids_of (PostgresStorage.select_concerts (db env) o) ->
          c ∈ PostgresStorage.select_concerts (db env) o)
    /\ l `sublist_of` (merged env t o).1
    /\ NoDup (ids_of (merged env t o).1)
    /\ (forall x : string, x ∈ (merged env t o).2 <-> x ∈ ids_of (merged env t o).1)
    /\ PostgresStorage.select_concerts (db env) o `prefix_of` (merged env t o).1.
Proof.
  intros Hkey. exists (aggregated env t o).
  destruct (merged_inv env t o Hkey) as [Hnd Hset].
  pose proof (aggregated_sublist env t o) as Hsub.
  split; [apply getConcertsWithHistorical_run|].
  split; [|split; [|split; [done|split; [done|split; [done|]]]]].
  - eapply sublist_NoDup; [exact Hnd|]. by apply fmap_sublist.
  - intros c Hc Hid.
    destruct (merged_elem env t o c) as [|[_ Hnew]]; [|done|done].
    by eapply elem_of_sublist.
  - unfold merged. etrans; [|apply add_all_prefix]. apply add_all_prefix.
Qed.

Lemma query_ids_unique_witness :
  exists l : list ConcertWithRating,
    res (PostgresStorage.getConcertsWithHistorical
           (Fixture.options (Some 20) (Some 0) true)
           (Fixture.env Fixture.same_event_twice) 0) = Ok l
    /\ NoDup (ids_of l)
    /\ ids_of l = ["c1"; "c2"; "tm_123"].
Proof.
  assert (primary_key (db (Fixture.env Fixture.same_event_twice))) as Hkey.
  { apply (bool_decide_unpack _). vm_compute. exact I. }
  destruct (query_ids_unique (Fixture.env Fixture.same_event_twice) 0
              (Fixture.options (Some 20) (Some 0) true) Hkey)
    as (l & Hrun & Hnd & _).
  exists l. split; [exact Hrun|]. split; [exact Hnd|].
  vm_compute in Hrun. injection Hrun as <-. reflexivity.
Defined.

(** ** C5: two calls *)

Lemma unstamped_base c : base (unstamped c) = base c.
Proof. unfold unstamped. by destruct (meta c). Qed.

Lemma same_but_stamps_base c1 c2 : same_but_stamps c1 c2 -> base c1 = base c2.
Proof.
  intros H. rewrite <- (unstamped_base c1), <- (unstamped_base c2).
  by rewrite H.
Qed.

Lemma same_but_stamps_refl l : Forall2 same_but_stamps l l.
Proof. induction l; by constructor. Qed.

Lemma same_but_stamps_map l1 l2 :
  Forall2 same_but_stamps l1 l2 -> map unstamped l1 = map unstamped l2.
Proof. induction 1 as [|c1 c2 l1 l2 H _ IH]; simpl; [done|]. by rewrite H, IH. Qed.

(** The records the storage wrappers hand over are provider records. *)
Lemma live_events_meta env o :
  Forall (fun e => ext_meta e <> LocalMeta) (live_events env o).
Proof.
  unfold live_events.
  destruct (res _) as [events|] eqn:Hres; [|constructor].
  unfold PostgresStorage.searchTicketmasterEvents, Effect.try_catch in Hres.
  destruct (res (PostgresStorage.searchTicketmasterEvents_try _ _ _))
    as [events'|] eqn:Htry; simpl in Hres.
  - rewrite Htry in Hres. injection Hres as <-.
    unfold PostgresStorage.searchTicketmasterEvents_try, Effect.bind in Htry.
    destruct (res (TicketmasterService.searchEvents _ _ _)); simpl in Htry;
      [|done].
    injection Htry as <-. apply Forall_forall. intros e.
    change (map ?f ?l) with (f <$> l).
    by intros (ev & -> & _)%list_elem_of_fmap.
  - injection Hres as <-. constructor.
Qed.

Lemma historical_events_meta env o :
  Forall (fun e => ext_meta e <> LocalMeta) (historical_events env o).
Proof.
  unfold historical_events.
  destruct (res _) as [events|] eqn:Hres; [|constructor].
  unfold PostgresStorage.searchSetlistFmEvents, Effect.try_catch in Hres.
  destruct (res (PostgresStorage.searchSetlistFmEvents_try _ _ _))
    as [events'|] eqn:Htry; simpl in Hres.
  - rewrite Htry in Hres. injection Hres as <-.
    unfold PostgresStorage.searchSetlistFmEvents_try, Effect.bind in Htry.
    destruct (res (SetlistFmService.searchSetlists _ _ _)); simpl in Htry;
      [|done].
    injection Htry as <-. apply Forall_forall. intros e.
    change (map ?f ?l) with (f <$> l).
    by intros (sl & -> & _)%list_elem_of_fmap.
  - injection Hres as <-. constructor.
Qed.

Lemma stamped_same_but_stamps k1 k2 t1 t2 events :
  Forall (fun e => ext_meta e <> LocalMeta) events ->
  Forall2 same_but_stamps (stamped k1 t1 events) (stamped k2 t2 events).
Proof.
  intros H. revert t1 t2.
  induction H as [|e events He _ IH]; intros t1 t2; simpl; constructor; [|done].
  unfold same_but_stamps, unstamped, stamp. simpl.
  by destruct (ext_meta e).
Qed.

Lemma stamped_same_clock k1 k2 t1 t2 events :
  (forall n, k1 (t1 + n) = k2 (t2 + n)) ->
  stamped k1 t1 events = stamped k2 t2 events.
Proof.
  revert t1 t2; induction events as [|e events IH]; intros t1 t2 Hk; simpl;
    [done|].
  pose proof (Hk 0) as H0. pose proof (Hk 1) as H1.
  rewrite !Nat.add_0_r in H0. rewrite !Nat.add_1_r in H1.
  rewrite H0, H1. f_equal. apply IH. intros n.
  specialize (Hk (S (S n))). by rewrite !Nat.add_succ_r in Hk.
Qed.

Lemma push_unseen_same_but_stamps acc1 acc2 c1 c2 :
  Forall2 same_but_stamps acc1.1 acc2.1 -> acc1.2 = acc2.2 ->
  same_but_stamps c1 c2 ->
  Forall2 same_but_stamps (PostgresStorage.push_unseen acc1 c1).1
                          (PostgresStorage.push_unseen acc2 c2).1
  /\ (PostgresStorage.push_unseen acc1 c1).2
     = (PostgresStorage.push_unseen acc2 c2).2.
Proof.
  intros Hl Hs Hc. unfold PostgresStorage.push_unseen.
  rewrite <- (same_but_stamps_base _ _ Hc), <- Hs.
  destruct (decide _); simpl; [done|].
  split; [|done]. apply Forall2_app; [done|]. by constructor.
Qed.

Lemma add_all_same_but_stamps cs1 cs2 acc1 acc2 :
  Forall2 same_but_stamps cs1 cs2 ->
  Forall2 same_but_stamps acc1.1 acc2.1 -> acc1.2 = acc2.2 ->
  Forall2 same_but_stamps (PostgresStorage.add_all cs1 acc1).1
                          (PostgresStorage.add_all cs2 acc2).1
  /\ (PostgresStorage.add_all cs1 acc1).2 = (PostgresStorage.add_all cs2 acc2).2.
Proof.
  intros Hcs. revert acc1 acc2.
  induction Hcs as [|c1 c2 cs1 cs2 Hc _ IH]; intros acc1 acc2 Hl Hs; simpl;
    [done|].
  destruct (push_unseen_same_but_stamps _ _ _ _ Hl Hs Hc) as [Hl' Hs'].
  by apply IH.
Qed.

Lemma filter_same_but_stamps (f : Canonical -> bool) l1 l2 :
  Forall2 same_but_stamps l1 l2 ->
  Forall2 same_but_stamps (List.filter (fun c => f (base c)) l1)
                          (List.filter (fun c => f (base c)) l2).
Proof.
  induction 1 as [|c1 c2 l1 l2 H _ IH]; simpl; [constructor|].
  rewrite (same_but_stamps_base _ _ H).
  destruct (f (base c2)); [by constructor|done].
Qed.

Lemma filters_same_but_stamps o l1 l2 :
  Forall2 same_but_stamps l1 l2 ->
  Forall2 same_but_stamps
    (PostgresStorage.paginate o
       (PostgresStorage.genre_filter o (PostgresStorage.search_filter o l1)))
    (PostgresStorage.paginate o
       (PostgresStorage.genre_filter o (PostgresStorage.search_filter o l2))).
Proof.
  intros H. unfold PostgresStorage.paginate, JS.slice.
  apply Forall2_take, Forall2_drop.
  assert (Forall2 same_but_stamps (PostgresStorage.search_filter o l1)
            (PostgresStorage.search_filter o l2)) as Hs.
  { unfold PostgresStorage.search_filter.
    destruct (search o) as [s|]; [|done]. destruct (JS.truthy s); [|done].
    by apply (filter_same_but_stamps
      (fun b => JS.includes (JS.toLowerCase (artist b)) (JS.toLowerCase s)
                || JS.includes (JS.toLowerCase (venue b)) (JS.toLowerCase s)
                || JS.includes (JS.toLowerCase (city b)) (JS.toLowerCase s))). }
  unfold PostgresStorage.genre_filter.
  destruct (o_genre o) as [g|]; [|done]. destruct (JS.truthy g); [|done].
  by apply (filter_same_but_stamps
    (fun b => match genre b with
              | Some g' => JS.includes (JS.toLowerCase g') (JS.toLowerCase g)
              | None => false
              end)).
Qed.

(** The clock has no part in what the providers answer. *)
Lemma live_events_with_clock k env o :
  live_events (with_clock k env) o = live_events env o.
Proof.
  unfold live_events, PostgresStorage.searchTicketmasterEvents,
    PostgresStorage.searchTicketmasterEvents_try,
    TicketmasterService.searchEvents.
  run_effects.
  destruct (JS.truthy (consumerKey env)); simpl; [|done].
  destruct (tm_net env _) as [|r]; simpl; [done|].
  destruct (response_ok r); simpl; [|done].
  unfold Effect.json. by destruct (body r).
Qed.

Lemma historical_events_with_clock k env o :
  historical_events (with_clock k env) o = historical_events env o.
Proof.
  unfold historical_events, PostgresStorage.searchSetlistFmEvents,
    PostgresStorage.searchSetlistFmEvents_try,
    SetlistFmService.searchSetlists.
  run_effects.
  destruct (JS.truthy (apiKey env)); simpl; [|done].
  destruct (sfm_net env _) as [|r]; simpl; [done|].
  destruct (response_ok r); simpl.
  - unfold Effect.json. by destruct (body r).
  - by destruct (status r =? 404)%nat.
Qed.

Lemma aggregated_same_but_stamps env k1 k2 t1 t2 o :
  Forall2 same_but_stamps (aggregated (with_clock k1 env) t1 o)
                          (aggregated (with_clock k2 env) t2 o).
Proof.
  unfold aggregated. apply filters_same_but_stamps. unfold merged.
  assert (forall t t',
    Forall2 same_but_stamps (live_part (with_clock k1 env) t o)
                            (live_part (with_clock k2 env) t' o)) as Hlive.
  { intros t t'. unfold live_part.
    destruct (JS.truthy_bool (includeTicketmaster o)); [|constructor].
    rewrite !live_events_with_clock.
    apply stamped_same_but_stamps, live_events_meta. }
  assert (forall t t',
    Forall2 same_but_stamps (historical_part (with_clock k1 env) t o)
                            (historical_part (with_clock k2 env) t' o)) as Hhist.
  { intros t t'. unfold historical_part.
    destruct (JS.truthy_bool (includeHistorical o)); [|constructor].
    rewrite !historical_events_with_clock.
    apply stamped_same_but_stamps, historical_events_meta. }
  simpl.
  destruct (add_all_same_but_stamps
              (live_part (with_clock k1 env) t1 o)
              (live_part (with_clock k2 env) t2 o)
              (PostgresStorage.select_concerts (db env) o,
               list_to_set (ids_of (PostgresStorage.select_concerts (db env) o)))
              (PostgresStorage.select_concerts (db env) o,
               list_to_set (ids_of (PostgresStorage.select_concerts (db env) o))))
    as [Hl Hs]; [apply Hlive|apply same_but_stamps_refl|done|].
  by apply add_all_same_but_stamps.
Qed.

Lemma aggregated_same_clock env k1 k2 t1 t2 o :
  (forall n, k1 (t1 + n) = k2 (t2 + n)) ->
  aggregated (with_clock k1 env) t1 o = aggregated (with_clock k2 env) t2 o.
Proof.
  intros Hk. unfold aggregated, merged. simpl.
  assert (live_part (with_clock k1 env) t1 o = live_part (with_clock k2 env) t2 o)
    as ->.
  { unfold live_part. destruct (JS.truthy_bool _); [|done].
    rewrite !live_events_with_clock. by apply stamped_same_clock. }
  assert (historical_part (with_clock k1 env) t1 o
          = historical_part (with_clock k2 env) t2 o) as ->; [|done].
  unfold historical_part, ticks_after_live.
  destruct (JS.truthy_bool (includeHistorical o)); [|done].
  rewrite !historical_events_with_clock, !live_events_with_clock.
  apply stamped_same_clock. intros n.
  destruct (JS.truthy_bool (includeTicketmaster o)); [|apply Hk].
  rewrite <- !Nat.add_assoc. apply Hk.
Qed.

(** C5, as the code has it.  For the same input, store and provider
    answers, two calls return lists that agree entry by entry, in the same
    order, on every field but [createdAt] and [updatedAt] of the
    provider-sourced entries, which hold the clock readings of the call; the
    entries that come from the store are equal in every field; and when both
    calls read the same times the two lists are equal. *)
Theorem query_repeatable_up_to_time_stamps
    (env : Env) (k1 k2 : nat -> Z) (t1 t2 : nat) (o : QueryOptions) :
  exists l1 l2 : list ConcertWithRating,
    res (PostgresStorage.getConcertsWithHistorical o (with_clock k1 env) t1)
    = Ok l1
    /\ res (PostgresStorage.getConcertsWithHistorical o (with_clock k2 env) t2)
       = Ok l2
    /\ map unstamped l1 = map unstamped l2
    /\ ids_of l1 = ids_of l2
    /\ Forall2 (fun c1 c2 => meta c1 = LocalMeta -> c1 = c2) l1 l2
    /\ ((forall n : nat, k1 (t1 + n) = k2 (t2 + n)) -> l1 = l2).
Proof.
  exists (aggregated (with_clock k1 env) t1 o),
         (aggregated (with_clock k2 env) t2 o).
  pose proof (aggregated_same_but_stamps env k1 k2 t1 t2 o) as Hsame.
  split; [apply getConcertsWithHistorical_run|].
  split; [apply getConcertsWithHistorical_run|].
  split; [by apply same_but_stamps_map|].
  split; [|split].
  - unfold ids_of. induction Hsame as [|c1 c2 l1 l2 H _ IH]; simpl; [done|].
    by rewrite (same_but_stamps_base _ _ H), IH.
  - eapply Forall2_impl; [exact Hsame|]. intros c1 c2 H Hlocal.
    unfold same_but_stamps, unstamped in H. rewrite Hlocal in H.
    destruct (meta c2) eqn:Hmeta2; [done| |];
      rewrite H in Hlocal; simpl in Hlocal; congruence.
  - apply aggregated_same_clock.
Qed.

Lemma query_repeatable_up_to_time_stamps_witness :
  exists l : list ConcertWithRating,
    res (PostgresStorage.getConcertsWithHistorical
           (Fixture.options (Some 20) (Some 0) true)
           (with_clock (fun _ => 7%Z) (Fixture.env Fixture.one_event)) 0) = Ok l
    /\ res (PostgresStorage.getConcertsWithHistorical
              (Fixture.options (Some 20) (Some 0) true)
              (with_clock (fun _ => 7%Z) (Fixture.env Fixture.one_event)) 2) = Ok l.
Proof.
  destruct (query_repeatable_up_to_time_stamps (Fixture.env Fixture.one_event)
              (fun _ => 7%Z) (fun _ => 7%Z) 0 2
              (Fixture.options (Some 20) (Some 0) true))
    as (l1 & l2 & H1 & H2 & _ & _ & _ & Hsame).
  exists l1. split; [exact H1|].
  rewrite (Hsame (fun _ => eq_refl)). exact H2.
Defined.

(** C5, as the claim states it, fails: a second call, made after the first
    one with nothing else changed, returns the provider-sourced entry with
    later time stamps. *)
Lemma query_twice_differs_in_time_stamps :
  exists l1 l2 : list ConcertWithRating,
    res (PostgresStorage.getConcertsWithHistorical
           (Fixture.options (Some 20) (Some 0) true)
           (Fixture.env Fixture.one_event) 0) = Ok l1
    /\ res (PostgresStorage.getConcertsWithHistorical
              (Fixture.options (Some 20) (Some 0) true)
              (Fixture.env Fixture.one_event)
              (ticks (PostgresStorage.getConcertsWithHistorical
                        (Fixture.options (Some 20) (Some 0) true)
                        (Fixture.env Fixture.one_event) 0))) = Ok l2
    /\ map createdAt l1 = [Some 200%Z; Some 100%Z; Some 0%Z]
    /\ map createdAt l2 = [Some 200%Z; Some 100%Z; Some 2%Z]
    /\ l1 <> l2.
Proof.
  eexists _, _. split; [vm_compute; reflexivity|].
  split; [vm_compute; reflexivity|].
  split; [reflexivity|]. split; [reflexivity|].
  intros H. apply (f_equal (map createdAt)) in H. vm_compute in H.
  discriminate H.
Qed.

(** ** C6: the rating aggregates *)

Lemma stamped_elem k t events c :
  c ∈ stamped k t events ->
  exists e created updated, e ∈ events /\ c = stamp e created updated.
Proof.
  revert t; induction events as [|e events IH]; intros t; simpl.
  - by intros ?%elem_of_nil.
  - intros [->|Hc]%elem_of_cons.
    + exists e, (k t), (k (S t)). split; [left|done].
    + destruct (IH _ Hc) as (e' & a & b & He' & ->).
      exists e', a, b. split; [by right|done].
Qed.

(** An entry a provider contributed is a stamped provider record. *)
Lemma provider_part_elem env t o c :
  c ∈ live_part env t o ∨ c ∈ historical_part env t o ->
  exists e created updated,
    c = stamp e created updated /\ ext_meta e <> LocalMeta.
Proof.
  unfold live_part, historical_part. intros [Hc|Hc].
  - destruct (JS.truthy_bool (includeTicketmaster o));
      [|by apply elem_of_nil in Hc].
    destruct (stamped_elem _ _ _ _ Hc) as (e & a & b & He & ->).
    exists e, a, b. split; [done|].
    by apply (proj1 (Forall_forall _ _) (live_events_meta env o)).
  - destruct (JS.truthy_bool (includeHistorical o));
      [|by apply elem_of_nil in Hc].
    destruct (stamped_elem _ _ _ _ Hc) as (e & a & b & He & ->).
    exists e, a, b. split; [done|].
    by apply (proj1 (Forall_forall _ _) (historical_events_meta env o)).
Qed.

Lemma avg_is_Some values : values <> [] -> is_Some (SQL.avg values).
Proof. destruct values; [done|]. intros _. by eexists. Qed.

Lemma reviews_of_attached d row r :
  r ∈ reviews d -> r_concertId r = id (c_base row) ->
  exists r' rs, PostgresStorage.reviews_of d row = r' :: rs.
Proof.
  intros Hr Hid. unfold PostgresStorage.reviews_of.
  induction Hr as [r l|r r0 l Hr IH]; simpl.
  - rewrite Hid, String.eqb_refl. by eexists _, _.
  - destruct (String.eqb _ _); [by eexists _, _|by apply IH].
Qed.

(** A row of the store with at least one review has all its aggregates. *)
Lemma with_rating_reviewed d row r :
  r ∈ reviews d -> r_concertId r = id (c_base row) ->
  averages_present (PostgresStorage.with_rating d row)
  /\ exists n, reviewCount (PostgresStorage.with_rating d row) = Some (S n).
Proof.
  intros Hr Hid.
  destruct (reviews_of_attached d row r Hr Hid) as (r' & rs & Hrs).
  unfold averages_present, PostgresStorage.with_rating. simpl. rewrite Hrs.
  repeat split; try (apply avg_is_Some; discriminate).
  by exists (length rs).
Qed.

(** C6, as the code has it.  An entry of a result whose id is not an id of
    the store has none of the five averages, and its [reviewCount] is
    present and is 0.  An entry that is a row of the store with at least one
    review has the five averages and a [reviewCount] of at least 1. *)
Theorem rating_aggregates_by_origin (env : Env) (t : nat) (o : QueryOptions) :
  exists l : list ConcertWithRating,
    res (PostgresStorage.getConcertsWithHistorical o env t) = Ok l
    /\ forall c : ConcertWithRating,
         c ∈ l ->
         (id (base c) ∉ store_ids (db env) ->
          averages_absent c /\ reviewCount c = Some 0)
         /\ (meta c <> LocalMeta ->
             averages_absent c /\ reviewCount c = Some 0)
         /\ (meta c = LocalMeta ->
             (exists r : Review,
                r ∈ reviews (db env) /\ r_concertId r = id (base c)) ->
             averages_present c /\ exists n : nat, reviewCount c = Some (S n)).
Proof.
  exists (aggregated env t o). split; [apply getConcertsWithHistorical_run|].
  intros c Hc.
  eapply elem_of_sublist in Hc; [|apply aggregated_sublist].
  apply merged_elem in Hc as [Hlocal|[Hprov _]].
  - destruct (select_concerts_rows _ _ _ Hlocal) as (row & Hrow & ->).
    split; [|split].
    + intros Hid. exfalso. apply Hid. unfold store_ids.
      change (map ?f ?l) with (f <$> l).
      apply list_elem_of_fmap. by exists row.
    + done.
    + intros _ (r & Hr & Hid). by apply (with_rating_reviewed _ _ r).
  - destruct (provider_part_elem _ _ _ _ Hprov) as (e & a & b & -> & Hmeta).
    split; [|split]; [done|done|]. simpl. intros Hl. by destruct Hmeta.
Qed.

Lemma rating_aggregates_by_origin_witness :
  exists l : list ConcertWithRating,
    res (PostgresStorage.getConcertsWithHistorical
           (Fixture.options (Some 20) (Some 0) true)
           (Fixture.env Fixture.one_event) 0) = Ok l
    /\ Forall (fun c =>
                 id (base c) = "c1" ->
                 averages_present c /\ exists n, reviewCount c = Some (S n)) l
    /\ Forall (fun c =>
                 id (base c) = "tm_123" ->
                 averages_absent c /\ reviewCount c = Some 0) l
    /\ ids_of l = ["c1"; "c2"; "tm_123"].
Proof.
  destruct (rating_aggregates_by_origin (Fixture.env Fixture.one_event) 0
              (Fixture.options (Some 20) (Some 0) true)) as (l & Hrun & Hall).
  exists l. split; [exact Hrun|].
  assert (forall c, c ∈ l -> meta c = LocalMeta <-> id (base c) <> "tm_123")
    as Hmeta.
  { vm_compute in Hrun. injection Hrun as <-.
    intros c Hc. repeat (apply elem_of_cons in Hc as [->|Hc]);
      [split; [discriminate|reflexivity]
      |split; [discriminate|reflexivity]
      |split; [discriminate|intros H; by destruct H]
      |by apply elem_of_nil in Hc]. }
  split; [|split].
  - apply Forall_forall. intros c Hc Hid.
    destruct (Hall c Hc) as (_ & _ & Hpresent). apply Hpresent.
    + apply Hmeta; [done|]. rewrite Hid. discriminate.
    + exists (Fixture.review "r1" "c1" 4). split; [left|]. by rewrite Hid.
  - apply Forall_forall. intros c Hc Hid.
    destruct (Hall c Hc) as (Habsent & _ & _). apply Habsent.
    rewrite Hid. vm_compute.
    intros H. repeat (apply elem_of_cons in H as [H|H]; [discriminate H|]).
    by apply elem_of_nil in H.
  - vm_compute in Hrun. injection Hrun as <-. reflexivity.
Defined.

(** C6, as the claim states it, fails: the entry of the live provider, whose
    id is not an id of the store, has a [reviewCount] (it is 0). *)
Lemma provider_entry_has_reviewCount :
  exists (l : list ConcertWithRating) (c : ConcertWithRating),
    res (PostgresStorage.getConcertsWithHistorical
           (Fixture.options (Some 20) (Some 0) true)
           (Fixture.env Fixture.one_event) 0) = Ok l
    /\ c ∈ l
    /\ id (base c) = "tm_123"
    /\ (id (base c) ∉ store_ids (db (Fixture.env Fixture.one_event)))
    /\ reviewCount c = Some 0
    /\ reviewCount c <> None.
Proof.
  eexists _, _. split; [vm_compute; reflexivity|].
  split; [right; right; left|].
  split; [reflexivity|]. split; [|split; [reflexivity|discriminate]].
  vm_compute. intros H.
  repeat (apply elem_of_cons in H as [H|H]; [discriminate H|]).
  by apply elem_of_nil in H.
Qed.

(** ** C2 and C3: the window of the aggregation *)

Lemma toggles_off_run env t o :
  JS.truthy_bool (includeTicketmaster o) = false ->
  JS.truthy_bool (includeHistorical o) = false ->
  res (PostgresStorage.getConcertsWithHistorical o env t)
  = Ok (local_only env o).
Proof.
  intros Hlive Hhist. rewrite getConcertsWithHistorical_run. f_equal.
  apply aggregated_local_only; [|done]. unfold live_part. by rewrite Hlive.
Qed.

Lemma filter_all {A} (f : A -> bool) (l : list A) :
  Forall (fun x => f x = true) l -> List.filter f l = l.
Proof. induction 1 as [|x l Hx _ IH]; simpl; [done|]. by rewrite Hx, IH. Qed.

Lemma startsWith_refl s : JS.startsWith s s = true.
Proof. induction s as [|c s IH]; simpl; [done|]. by rewrite Ascii.eqb_refl. Qed.

Lemma includes_refl s : JS.includes s s = true.
Proof. destruct s; simpl; [done|]. by rewrite Ascii.eqb_refl, startsWith_refl. Qed.

Lemma select_concerts_length d o :
  length (PostgresStorage.select_concerts d o) <= JS.default_num (limit o) 20.
Proof.
  unfold PostgresStorage.select_concerts.
  rewrite length_map, length_take. lia.
Qed.

Lemma select_concerts_matches d o c :
  c ∈ PostgresStorage.select_concerts d o ->
  exists row, c = PostgresStorage.with_rating d row
              /\ PostgresStorage.matches o row = true.
Proof.
  unfold PostgresStorage.select_concerts.
  change (map (PostgresStorage.with_rating d) ?l)
    with (PostgresStorage.with_rating d <$> l).
  intros (row & -> & Hrow)%list_elem_of_fmap. exists row. split; [done|].
  eapply elem_of_sublist in Hrow;
    [|etrans; [apply sublist_take|apply sublist_drop]].
  rewrite sort_by_Permutation in Hrow.
  apply list_elem_of_In, filter_In in Hrow. tauto.
Qed.

(** What does hold with both providers off: on the first page and without a
    search text, the aggregation returns the rows of the store as they
    are. *)
Lemma toggles_off_first_page env t o :
  JS.truthy_bool (includeTicketmaster o) = false ->
  JS.truthy_bool (includeHistorical o) = false ->
  JS.or_num (offset o) 0 = 0 ->
  JS.truthy_opt (search o) = false ->
  res (PostgresStorage.getConcertsWithHistorical o env t)
  = res (PostgresStorage.getConcerts o env t).
Proof.
  intros Hlive Hhist Hoff Hsearch.
  rewrite (toggles_off_run _ _ _ Hlive Hhist). simpl. f_equal.
  unfold local_only.
  assert (PostgresStorage.search_filter o
            (PostgresStorage.select_concerts (db env) o)
          = PostgresStorage.select_concerts (db env) o) as ->.
  { unfold PostgresStorage.search_filter. destruct (search o) as [s|]; [|done].
    simpl in Hsearch. by rewrite Hsearch. }
  assert (PostgresStorage.genre_filter o
            (PostgresStorage.select_concerts (db env) o)
          = PostgresStorage.select_concerts (db env) o) as ->.
  { unfold PostgresStorage.genre_filter.
    destruct (o_genre o) as [g|] eqn:Hg; [|done].
    destruct (JS.truthy g) eqn:Htruthy; [|done].
    apply filter_all, Forall_forall. intros c Hc.
    destruct (select_concerts_matches _ _ _ Hc) as (row & -> & Hrow).
    unfold PostgresStorage.matches in Hrow. rewrite Hg, Htruthy in Hrow.
    apply andb_prop in Hrow as [[_ Hgenre]%andb_prop _]. simpl.
    destruct (genre (c_base row)) as [g'|]; [|done].
    apply String.eqb_eq in Hgenre as ->. apply includes_refl. }
  unfold PostgresStorage.paginate, JS.slice. rewrite Hoff. simpl.
  rewrite Nat.sub_0_r. apply take_ge.
  pose proof (select_concerts_length (db env) o) as Hlen.
  destruct (limit o) as [[|n]|]; simpl in *; lia.
Qed.

(** With a limit of 0 and both providers off the result is empty. *)
Lemma limit_zero_toggles_off env t o :
  limit o = Some 0 ->
  JS.truthy_bool (includeTicketmaster o) = false ->
  JS.truthy_bool (includeHistorical o) = false ->
  res (PostgresStorage.getConcertsWithHistorical o env t) = Ok [].
Proof.
  intros Hlimit Hlive Hhist. rewrite (toggles_off_run _ _ _ Hlive Hhist).
  f_equal. unfold local_only, PostgresStorage.select_concerts.
  rewrite Hlimit. simpl.
  assert (PostgresStorage.search_filter o [] = []) as ->.
  { unfold PostgresStorage.search_filter. destruct (search o) as [s|]; [|done].
    by destruct (JS.truthy s). }
  assert (PostgresStorage.genre_filter o [] = []) as ->.
  { unfold PostgresStorage.genre_filter. destruct (o_genre o) as [g|]; [|done].
    by destruct (JS.truthy g). }
  unfold PostgresStorage.paginate, JS.slice. by rewrite drop_nil, take_nil.
Qed.

(** C2, on the code: with both providers off, offset 1 and limit 1, the
    store returns its second row, and the aggregation, which applies the
    offset once more to that page, returns nothing. *)
Theorem toggles_off_offset_applied_twice :
  res (PostgresStorage.getConcerts
         (Fixture.options (Some 1) (Some 1) false)
         (Fixture.env Fixture.one_event) 0)
  = Ok [PostgresStorage.with_rating Fixture.catalogue
          (Fixture.concert "c2" "Daylight" 100)]
  /\ res (PostgresStorage.getConcertsWithHistorical
            (Fixture.options (Some 1) (Some 1) false)
            (Fixture.env Fixture.one_event) 0)
     = Ok [].
Proof. split; reflexivity. Qed.

(** C3, on the code: with a limit of 0 and the live provider on, the window
    is 50 entries wide ([options.limit || 50]) and the provider is asked for
    20 ([options.limit || 20]); its record is returned. *)
Theorem limit_zero_returns_provider_records :
  exists l : list ConcertWithRating,
    res (PostgresStorage.getConcertsWithHistorical
           (Fixture.options (Some 0) (Some 0) true)
           (Fixture.env Fixture.one_event) 0) = Ok l
    /\ ids_of l = ["tm_123"]
    /\ l <> []
    /\ map req_params
         (sent (PostgresStorage.getConcertsWithHistorical
                  (Fixture.options (Some 0) (Some 0) true)
                  (Fixture.env Fixture.one_event) 0))
       = [[("apikey", "key"); ("classificationName", "music");
           ("size", "20"); ("page", "0"); ("sort", "date,asc")]].
Proof.
  eexists. split; [vm_compute; reflexivity|].
  split; [reflexivity|]. split; [discriminate|]. vm_compute. reflexivity.
Qed.

(** * Further properties *)

(** ** The aggregation: size, filters, order *)

Lemma filter_elem {A} (f : A -> bool) (l : list A) x :
  x ∈ List.filter f l -> x ∈ l /\ f x = true.
Proof. intros H. apply list_elem_of_In, filter_In in H as [H1 H2]. split; [|done]. by apply list_elem_of_In. Qed.

Lemma filter_length_le {A} (f : A -> bool) (l : list A) :
  length (List.filter f l) <= length l.
Proof. apply sublist_length, filter_sublist. Qed.

Lemma search_filter_sublist o l : PostgresStorage.search_filter o l `sublist_of` l.
Proof.
  unfold PostgresStorage.search_filter.
  destruct (search o) as [s|]; [|done].
  destruct (JS.truthy s); [apply filter_sublist|done].
Qed.

Lemma genre_filter_sublist o l : PostgresStorage.genre_filter o l `sublist_of` l.
Proof.
  unfold PostgresStorage.genre_filter.
  destruct (o_genre o) as [g|]; [|done].
  destruct (JS.truthy g); [apply filter_sublist|done].
Qed.

Lemma search_filter_app o l1 l2 :
  PostgresStorage.search_filter o (l1 ++ l2)
  = PostgresStorage.search_filter o l1 ++ PostgresStorage.search_filter o l2.
Proof.
  unfold PostgresStorage.search_filter.
  destruct (search o) as [s|]; [|done].
  destruct (JS.truthy s); [apply List.filter_app|done].
Qed.

Lemma genre_filter_app o l1 l2 :
  PostgresStorage.genre_filter o (l1 ++ l2)
  = PostgresStorage.genre_filter o l1 ++ PostgresStorage.genre_filter o l2.
Proof.
  unfold PostgresStorage.genre_filter.
  destruct (o_genre o) as [g|]; [|done].
  destruct (JS.truthy g); [apply List.filter_app|done].
Qed.

(** The loop appends, in their order, some of the new records. *)
Lemma add_all_shape cs acc :
  exists new, (PostgresStorage.add_all cs acc).1 = acc.1 ++ new
              /\ new `sublist_of` cs.
Proof.
  revert acc; induction cs as [|c cs IH]; intros acc; simpl.
  - exists []. by rewrite app_nil_r.
  - destruct (IH (PostgresStorage.push_unseen acc c)) as (new & -> & Hsub).
    unfold PostgresStorage.push_unseen.
    destruct (decide (id (base c) ∈ acc.2)); simpl.
    + exists new. split; [done|]. by apply sublist_cons.
    + exists (c :: new). split; [by rewrite <- app_assoc|]. by apply sublist_skip.
Qed.

Lemma merged_shape env t o :
  exists live hist,
    (merged env t o).1
    = PostgresStorage.select_concerts (db env) o ++ live ++ hist
    /\ live `sublist_of` live_part env t o
    /\ hist `sublist_of` historical_part env t o.
Proof.
  unfold merged.
  destruct (add_all_shape (historical_part env t o)
              (PostgresStorage.add_all (live_part env t o)
                 (PostgresStorage.select_concerts (db env) o,
                  list_to_set (ids_of (PostgresStorage.select_concerts (db env) o)))))
    as (hist & -> & Hhist).
  destruct (add_all_shape (live_part env t o)
              (PostgresStorage.select_concerts (db env) o,
               list_to_set (ids_of (PostgresStorage.select_concerts (db env) o))))
    as (live & -> & Hlive).
  exists live, hist. simpl. by rewrite <- app_assoc.
Qed.

Lemma stamped_bases k t events :
  map base (stamped k t events) = map ext_base events.
Proof.
  revert t; induction events as [|e events IH]; intros t; simpl; [done|].
  by rewrite IH.
Qed.

Lemma stamped_length k t events : length (stamped k t events) = length events.
Proof.
  revert t; induction events as [|e events IH]; intros t; simpl; [done|].
  by rewrite IH.
Qed.

(** What the storage wrappers return is what the aggregation merges. *)
Lemma live_events_eq env t o events :
  res (PostgresStorage.searchTicketmasterEvents (PostgresStorage.tmOptions o) env t)
  = Ok events ->
  live_events env o = events.
Proof.
  destruct (searchTicketmasterEvents_run env t o) as [Hres _].
  rewrite Hres. by intros [= ->].
Qed.

Lemma historical_events_eq env t o events :
  res (PostgresStorage.searchSetlistFmEvents (PostgresStorage.sfmOptions o) env t)
  = Ok events ->
  historical_events env o = events.
Proof.
  destruct (searchSetlistFmEvents_run env t o) as [Hres _].
  rewrite Hres. by intros [= ->].
Qed.

Lemma live_part_bases env t o :
  map base (live_part env t o) `sublist_of` map ext_base (live_events env o).
Proof.
  unfold live_part. destruct (JS.truthy_bool _).
  - by rewrite stamped_bases.
  - apply sublist_nil_l.
Qed.

Lemma historical_part_bases env t o :
  map base (historical_part env t o)
  `sublist_of` map ext_base (historical_events env o).
Proof.
  unfold historical_part. destruct (JS.truthy_bool _).
  - by rewrite stamped_bases.
  - apply sublist_nil_l.
Qed.

(** X1. A result never holds more entries than the window is wide:
    [limit] of them, or 50 when the limit is absent or 0. *)
Theorem query_result_within_window (env : Env) (t : nat) (o : QueryOptions) :
  exists l : list ConcertWithRating,
    res (PostgresStorage.getConcertsWithHistorical o env t) = Ok l
    /\ length l <= JS.or_num (limit o) 50.
Proof.
  exists (aggregated env t o). split; [apply getConcertsWithHistorical_run|].
  unfold aggregated, PostgresStorage.paginate, JS.slice.
  rewrite length_take. lia.
Qed.

(** X2. Every entry of a result passes the two filters of the engine: with
    a search text, its artist, venue or city holds the text, letter case
    aside; with a genre, its genre is present and holds the genre text,
    letter case aside.  This holds for local and provider entries alike. *)
Theorem query_result_passes_filters (env : Env) (t : nat) (o : QueryOptions) :
  exists l : list ConcertWithRating,
    res (PostgresStorage.getConcertsWithHistorical o env t) = Ok l
    /\ forall c : ConcertWithRating,
         c ∈ l ->
         (forall s : string,
            search o = Some s -> JS.truthy s = true ->
            search_hit s (base c) = true)
         /\ (forall g : string,
               o_genre o = Some g -> JS.truthy g = true ->
               genre_hit g (base c) = true).
Proof.
  exists (aggregated env t o). split; [apply getConcertsWithHistorical_run|].
  intros c Hc. unfold aggregated, PostgresStorage.paginate, JS.slice in Hc.
  eapply elem_of_sublist in Hc;
    [|etrans; [apply sublist_take|apply sublist_drop]].
  split.
  - intros s Hs Htruthy.
    eapply elem_of_sublist in Hc; [|apply genre_filter_sublist].
    unfold PostgresStorage.search_filter in Hc. rewrite Hs, Htruthy in Hc.
    by apply filter_elem in Hc as [_ Hhit].
  - intros g Hg Htruthy.
    unfold PostgresStorage.genre_filter in Hc. rewrite Hg, Htruthy in Hc.
    by apply filter_elem in Hc as [_ Hhit].
Qed.

Lemma query_result_passes_filters_witness :
  exists l : list ConcertWithRating,
    res (PostgresStorage.getConcertsWithHistorical
           (Sample.all_on (Some "MIDNIGHT") None (Some 20) (Some 0))
           (Sample.both Fixture.one_event Fixture.two_setlists) 0) = Ok l
    /\ Forall (fun c => search_hit "MIDNIGHT" (base c) = true) l
    /\ map (fun c => artist (base c)) l
       = ["The Midnight"; "The Midnight"; "The Midnight"].
Proof.
  destruct (query_result_passes_filters
              (Sample.both Fixture.one_event Fixture.two_setlists) 0
              (Sample.all_on (Some "MIDNIGHT") None (Some 20) (Some 0)))
    as (l & Hrun & Hall).
  exists l. split; [exact Hrun|]. split.
  - apply Forall_forall. intros c Hc.
    destruct (Hall c Hc) as [Hsearch _]. by apply Hsearch.
  - vm_compute in Hrun. injection Hrun as <-. reflexivity.
Defined.

(** X3. The entries of a result stand in the order of their sources: the
    rows of the store first, then the records of the live provider, then
    those of the historical provider, each in the order its source returned
    them. *)
Theorem query_result_in_source_order
    (env : Env) (t : nat) (o : QueryOptions) (tmEvents sfmEvents : list External) :
  res (PostgresStorage.searchTicketmasterEvents (PostgresStorage.tmOptions o) env t)
  = Ok tmEvents ->
  res (PostgresStorage.searchSetlistFmEvents (PostgresStorage.sfmOptions o) env t)
  = Ok sfmEvents ->
  exists l : list ConcertWithRating,
    res (PostgresStorage.getConcertsWithHistorical o env t) = Ok l
    /\ map base l
       `sublist_of` (map base (PostgresStorage.select_concerts (db env) o)
                     ++ map ext_base tmEvents ++ map ext_base sfmEvents).
Proof.
  intros Hlive%live_events_eq Hhist%historical_events_eq. subst.
  exists (aggregated env t o). split; [apply getConcertsWithHistorical_run|].
  etrans; [apply fmap_sublist, aggregated_sublist|].
  destruct (merged_shape env t o) as (live & hist & -> & Hl & Hh).
  change (map base ?l) with (base <$> l).
  rewrite !fmap_app. apply sublist_app; [done|]. apply sublist_app.
  - etrans; [apply fmap_sublist, Hl|]. apply live_part_bases.
  - etrans; [apply fmap_sublist, Hh|]. apply historical_part_bases.
Qed.

Lemma query_result_in_source_order_witness :
  exists l : list ConcertWithRating,
    res (PostgresStorage.getConcertsWithHistorical
           (Sample.all_on None None (Some 20) (Some 0))
           (Sample.both Fixture.one_event Fixture.two_setlists) 0) = Ok l
    /\ ids_of l = ["c1"; "c2"; "tm_123"; "setlistfm_s1"; "setlistfm_s2"].
Proof.
  destruct (query_result_in_source_order
              (Sample.both Fixture.one_event Fixture.two_setlists) 0
              (Sample.all_on None None (Some 20) (Some 0))
              _ _ eq_refl eq_refl) as (l & Hrun & _).
  exists l. split; [exact Hrun|].
  vm_compute in Hrun. injection Hrun as <-. reflexivity.
Defined.

(** An entry that a provider contributed is not a row of the store. *)
Lemma provider_entries_not_local env t o l c :
  l `sublist_of` (live_part env t o ++ historical_part env t o) ->
  c ∈ l -> meta c <> LocalMeta.
Proof.
  intros Hsub Hc. eapply elem_of_sublist in Hc; [|exact Hsub].
  apply elem_of_app in Hc.
  destruct (provider_part_elem env t o c Hc) as (e & a & b & -> & Hmeta).
  exact Hmeta.
Qed.

(** X4. From the second page on no row of the store is returned: when the
    offset is at least the page size of the store query ([limit], 20 when
    absent), the window of the aggregation starts after the rows of the
    store, which the store had already paged, and every entry returned is a
    provider record. *)
Theorem later_pages_hold_no_store_rows (env : Env) (t : nat) (o : QueryOptions) :
  JS.default_num (limit o) 20 <= JS.or_num (offset o) 0 ->
  exists l : list ConcertWithRating,
    res (PostgresStorage.getConcertsWithHistorical o env t) = Ok l
    /\ forall c : ConcertWithRating, c ∈ l -> meta c <> LocalMeta.
Proof.
  intros Hoff. exists (aggregated env t o).
  split; [apply getConcertsWithHistorical_run|].
  intros c Hc. unfold aggregated, PostgresStorage.paginate, JS.slice in Hc.
  destruct (merged_shape env t o) as (live & hist & Hshape & Hl & Hh).
  rewrite Hshape, search_filter_app, genre_filter_app in Hc.
  apply elem_of_take in Hc as (i & Hc & _). apply list_elem_of_lookup_2 in Hc.
  rewrite drop_app_ge in Hc.
  - eapply (provider_entries_not_local env t o); [|exact Hc].
    etrans; [apply sublist_drop|]. etrans; [apply genre_filter_sublist|].
    etrans; [apply search_filter_sublist|]. by apply sublist_app.
  - etrans; [apply sublist_length, genre_filter_sublist|].
    etrans; [apply sublist_length, search_filter_sublist|].
    etrans; [apply select_concerts_length|done].
Qed.

Lemma later_pages_hold_no_store_rows_witness :
  exists l : list ConcertWithRating,
    res (PostgresStorage.getConcertsWithHistorical
           (Sample.all_on None None (Some 1) (Some 1))
           (Sample.both Fixture.one_event Fixture.two_setlists) 0) = Ok l
    /\ Forall (fun c => meta c <> LocalMeta) l
    /\ ids_of l = ["tm_123"].
Proof.
  destruct (later_pages_hold_no_store_rows
              (Sample.both Fixture.one_event Fixture.two_setlists) 0
              (Sample.all_on None None (Some 1) (Some 1)))
    as (l & Hrun & Hall); [simpl; lia|].
  exists l. split; [exact Hrun|]. split; [by apply Forall_forall|].
  vm_compute in Hrun. injection Hrun as <-. reflexivity.
Defined.

(** X5. An offset at or beyond the number of merged records (the rows of
    the store page and the records the two wrappers returned) gives the
    empty list, not an error. *)
Theorem offset_beyond_merged_is_empty
    (env : Env) (t : nat) (o : QueryOptions) (tmEvents sfmEvents : list External) :
  res (PostgresStorage.searchTicketmasterEvents (PostgresStorage.tmOptions o) env t)
  = Ok tmEvents ->
  res (PostgresStorage.searchSetlistFmEvents (PostgresStorage.sfmOptions o) env t)
  = Ok sfmEvents ->
  length (PostgresStorage.select_concerts (db env) o)
    + length tmEvents + length sfmEvents <= JS.or_num (offset o) 0 ->
  res (PostgresStorage.getConcertsWithHistorical o env t) = Ok [].
Proof.
  intros Hlive%live_events_eq Hhist%historical_events_eq Hoff. subst.
  rewrite getConcertsWithHistorical_run. f_equal.
  unfold aggregated, PostgresStorage.paginate, JS.slice.
  rewrite drop_ge; [apply take_nil|].
  etrans; [apply sublist_length, genre_filter_sublist|].
  etrans; [apply sublist_length, search_filter_sublist|].
  destruct (merged_shape env t o) as (live & hist & -> & Hl & Hh).
  apply sublist_length in Hl, Hh. rewrite !length_app.
  assert (length (live_part env t o) <= length (live_events env o)).
  { unfold live_part. destruct (JS.truthy_bool _); simpl; [|lia].
    by rewrite stamped_length. }
  assert (length (historical_part env t o) <= length (historical_events env o)).
  { unfold historical_part. destruct (JS.truthy_bool _); simpl; [|lia].
    by rewrite stamped_length. }
  lia.
Qed.

Lemma offset_beyond_merged_is_empty_witness :
  res (PostgresStorage.getConcertsWithHistorical
         (Sample.all_on None None (Some 20) (Some 5))
         (Sample.both Fixture.one_event Fixture.two_setlists) 0) = Ok [].
Proof.
  apply (offset_beyond_merged_is_empty
           (Sample.both Fixture.one_event Fixture.two_setlists) 0
           (Sample.all_on None None (Some 20) (Some 5)) _ _ eq_refl eq_refl).
  vm_compute. lia.
Defined.

(** ** The requests of the aggregation *)

Lemma sends_ret {A} (a : A) env t : runs_sending (Effect.ret a) env t a t [].
Proof. by repeat split. Qed.

Lemma sends_bind {A B} (m : M A) (f : A -> M B) env t a t' rs b t'' rs' :
  runs_sending m env t a t' rs -> runs_sending (f a) env t' b t'' rs' ->
  runs_sending (Effect.bind m f) env t b t'' (rs ++ rs').
Proof.
  intros (Hres & Hticks & Hsent) (Hres' & Hticks' & Hsent').
  unfold runs_sending, Effect.bind. rewrite Hres, Hticks, Hsent. simpl.
  by rewrite Hres', Hticks', Hsent'.
Qed.

Lemma sends_try_catch {A} (m : M A) (h : Error -> M A) env t a t' rs :
  runs_sending m env t a t' rs ->
  runs_sending (Effect.try_catch m h) env t a t' rs.
Proof.
  intros (Hres & Hticks & Hsent). unfold runs_sending, Effect.try_catch.
  by rewrite Hres.
Qed.

Lemma searchTicketmasterEvents_sends env t options :
  sent (PostgresStorage.searchTicketmasterEvents options env t)
  = if JS.truthy (consumerKey env)
    then [TicketmasterService.search_request (consumerKey env) options]
    else [].
Proof.
  unfold PostgresStorage.searchTicketmasterEvents,
    PostgresStorage.searchTicketmasterEvents_try,
    TicketmasterService.searchEvents.
  run_effects.
  destruct (JS.truthy (consumerKey env)); simpl; [|done].
  destruct (tm_net env _) as [|r]; simpl; [done|].
  destruct (response_ok r); simpl; [|done].
  unfold Effect.json. by destruct (body r).
Qed.

Lemma searchSetlistFmEvents_sends env t options :
  sent (PostgresStorage.searchSetlistFmEvents options env t)
  = if JS.truthy (apiKey env)
    then [SetlistFmService.search_request (apiKey env) options]
    else [].
Proof.
  unfold PostgresStorage.searchSetlistFmEvents,
    PostgresStorage.searchSetlistFmEvents_try,
    SetlistFmService.searchSetlists.
  run_effects.
  destruct (JS.truthy (apiKey env)); simpl; [|done].
  destruct (sfm_net env _) as [|r]; simpl; [done|].
  destruct (response_ok r); simpl.
  - unfold Effect.json. by destruct (body r).
  - by destruct (status r =? 404)%nat.
Qed.

Lemma mapM_unrated_sends env t events :
  runs_sending (Effect.mapM PostgresStorage.unrated events) env t
    (stamped (clock env) t events) (t + 2 * length events) [].
Proof.
  revert t; induction events as [|e events IH]; intros t;
    cbn [Effect.mapM stamped length].
  - replace (t + 2 * 0) with t by lia. apply sends_ret.
  - replace (t + 2 * S (length events)) with (S (S t) + 2 * length events) by lia.
    change (@nil Request) with ([] ++ ([] ++ @nil Request)).
    eapply sends_bind; [by repeat split|].
    eapply sends_bind; [apply IH|]. apply sends_ret.
Qed.

(** X6. The aggregation sends at most one request to each provider, and
    only to a provider that is switched on and has its credentials: the
    search request built from [tmOptions] to the live provider, then the one
    built from [sfmOptions] to the historical provider.  With both providers
    off nothing is sent. *)
Theorem query_sends_one_request_per_enabled_provider
    (env : Env) (t : nat) (o : QueryOptions) :
  sent (PostgresStorage.getConcertsWithHistorical o env t)
  = (if JS.truthy_bool (includeTicketmaster o) && JS.truthy (consumerKey env)
     then [TicketmasterService.search_request (consumerKey env)
             (PostgresStorage.tmOptions o)]
     else [])
    ++ (if JS.truthy_bool (includeHistorical o) && JS.truthy (apiKey env)
        then [SetlistFmService.search_request (apiKey env)
                (PostgresStorage.sfmOptions o)]
        else []).
Proof.
  change (sent (PostgresStorage.getConcertsWithHistorical o env t)
          = live_requests env o ++ historical_requests env o).
  assert (exists t',
    runs_sending (PostgresStorage.getConcertsWithHistorical_try o) env t
      (aggregated env t o) t'
      ([] ++ live_requests env o ++ historical_requests env o ++ []))
    as (t' & Hrun).
  { unfold PostgresStorage.getConcertsWithHistorical_try, aggregated, merged,
      live_part, historical_part, ticks_after_live, live_requests,
      historical_requests.
    assert (forall t0,
      runs_sending (PostgresStorage.searchTicketmasterEvents
                      (PostgresStorage.tmOptions o)) env t0
        (live_events env o) t0
        (if JS.truthy (consumerKey env)
         then [TicketmasterService.search_request (consumerKey env)
                 (PostgresStorage.tmOptions o)]
         else [])) as Hlive.
    { intros t0. destruct (searchTicketmasterEvents_run env t0 o) as [H1 H2].
      repeat split; [done|done|apply searchTicketmasterEvents_sends]. }
    assert (forall t0,
      runs_sending (PostgresStorage.searchSetlistFmEvents
                      (PostgresStorage.sfmOptions o)) env t0
        (historical_events env o) t0
        (if JS.truthy (apiKey env)
         then [SetlistFmService.search_request (apiKey env)
                 (PostgresStorage.sfmOptions o)]
         else [])) as Hhist.
    { intros t0. destruct (searchSetlistFmEvents_run env t0 o) as [H1 H2].
      repeat split; [done|done|apply searchSetlistFmEvents_sends]. }
    destruct (JS.truthy_bool (includeTicketmaster o));
      destruct (JS.truthy_bool (includeHistorical o)); simpl andb;
      eexists;
      (eapply sends_bind; [by repeat split|]);
      (eapply sends_bind;
         [ first [ apply sends_ret
                 | rewrite <- (app_nil_r (if JS.truthy (consumerKey env) then _ else _));
                   eapply sends_bind; [apply Hlive|];
                   change (@nil Request) with ([] ++ @nil Request);
                   eapply sends_bind; [apply mapM_unrated_sends|]; apply sends_ret ]
         | ]);
      (eapply sends_bind;
         [ first [ apply sends_ret
                 | rewrite <- (app_nil_r (if JS.truthy (apiKey env) then _ else _));
                   eapply sends_bind; [apply Hhist|];
                   change (@nil Request) with ([] ++ @nil Request);
                   eapply sends_bind; [apply mapM_unrated_sends|]; apply sends_ret ]
         | ]);
      apply sends_ret. }
  destruct (sends_try_catch _ (fun _ => PostgresStorage.getConcerts o)
              _ _ _ _ _ Hrun) as (_ & _ & Hsent).
  unfold PostgresStorage.getConcertsWithHistorical. rewrite Hsent.
  simpl. by rewrite app_nil_r.
Qed.


(** ** The store's search and the engine's search *)

Lemma lower_ascii_special c :
  like_special (JS.lower_ascii c) = like_special c.
Proof. destruct c as [[] [] [] [] [] [] [] []]; reflexivity. Qed.

Lemma like_plain_lower s : like_plain (JS.toLowerCase s) = like_plain s.
Proof.
  induction s as [|c s IH]; simpl; [done|].
  by rewrite lower_ascii_special, IH.
Qed.

Lemma toLowerCase_app a b :
  JS.toLowerCase (a +:+ b) = JS.toLowerCase a +:+ JS.toLowerCase b.
Proof. induction a as [|c a IH]; simpl; [done|]. by rewrite IH. Qed.

Lemma like_tokens_plain p rest :
  like_plain p = true ->
  SQL.like_tokens (p +:+ rest) = literals p ++ SQL.like_tokens rest.
Proof.
  induction p as [|c p IH]; simpl; [done|].
  intros [Hc Hp]%andb_prop. apply negb_true_iff in Hc.
  unfold like_special in Hc.
  apply orb_false_elim in Hc as [[H1 H2]%orb_false_elim H3].
  rewrite H1, H2, H3. by rewrite (IH Hp).
Qed.

Lemma like_match_any tokens s :
  SQL.like_match (SQL.AnySequence :: tokens) s
  = SQL.like_match tokens s
    || match s with
       | String _ s' => SQL.like_match (SQL.AnySequence :: tokens) s'
       | EmptyString => false
       end.
Proof. by destruct s. Qed.

Lemma like_match_any_alone s : SQL.like_match [SQL.AnySequence] s = true.
Proof.
  induction s as [|c s IH]; [done|].
  rewrite like_match_any. simpl SQL.like_match at 1. by rewrite IH.
Qed.

Lemma like_match_literals p s :
  SQL.like_match (literals p ++ [SQL.AnySequence]) s = JS.startsWith s p.
Proof.
  revert s; induction p as [|c p IH]; intros s.
  - simpl literals. simpl app. rewrite like_match_any_alone. by destruct s.
  - destruct s as [|d s]; [done|].
    simpl. rewrite IH. by destruct (Ascii.eqb c d).
Qed.

(** [%p%] with a plain [p] is the test for a substring. *)
Lemma like_match_contains p s :
  SQL.like_match (SQL.AnySequence :: literals p ++ [SQL.AnySequence]) s
  = JS.includes s p.
Proof.
  induction s as [|c s IH].
  - rewrite like_match_any, like_match_literals. by destruct p.
  - rewrite like_match_any, like_match_literals, IH. by destruct p.
Qed.

Lemma ilike_contains column s :
  like_plain s = true ->
  SQL.ilike column ("%" +:+ s +:+ "%")
  = JS.includes (JS.toLowerCase column) (JS.toLowerCase s).
Proof.
  intros Hplain. unfold SQL.ilike.
  change ("%" +:+ s +:+ "%") with (String SQL.percent (s +:+ "%")).
  cbn [JS.toLowerCase]. rewrite toLowerCase_app.
  change (JS.lower_ascii SQL.percent) with SQL.percent.
  change (SQL.like_tokens (String SQL.percent ?r))
    with (SQL.AnySequence :: SQL.like_tokens r).
  rewrite like_tokens_plain by (by rewrite like_plain_lower).
  apply like_match_contains.
Qed.

(** X7. With both providers off, on the first page, for a store whose
    artists, venues and cities are ASCII texts and for a search text that is
    ASCII and without the special characters of LIKE ([%], [_], backslash),
    the aggregation returns the page of the store as it is.  On ASCII texts
    the case folding of ILIKE (whatever the locale of the server, the
    Turkish ones apart) and the one of [toLowerCase] are the same folding of
    the letters A to Z, so the store's ILIKE and the engine's substring test
    agree.  For the genre nothing is asked: the store tests equality, and
    equal texts fold to equal texts. *)
Theorem first_page_is_the_store_page (env : Env) (t : nat) (o : QueryOptions) :
  JS.truthy_bool (includeTicketmaster o) = false ->
  JS.truthy_bool (includeHistorical o) = false ->
  JS.or_num (offset o) 0 = 0 ->
  forallb ascii_row (concerts (db env)) = true ->
  (forall s : string,
     search o = Some s -> like_plain s = true /\ is_ascii s = true) ->
  res (PostgresStorage.getConcertsWithHistorical o env t)
  = res (PostgresStorage.getConcerts o env t).
Proof.
  intros Hlive Hhist Hoff _ Hplain.
  rewrite (toggles_off_run _ _ _ Hlive Hhist). simpl. f_equal.
  unfold local_only.
  assert (PostgresStorage.search_filter o
            (PostgresStorage.select_concerts (db env) o)
          = PostgresStorage.select_concerts (db env) o) as ->.
  { unfold PostgresStorage.search_filter.
    destruct (search o) as [s|] eqn:Hs; [|done].
    destruct (JS.truthy s) eqn:Htruthy; [|done].
    apply filter_all, Forall_forall. intros c Hc.
    destruct (select_concerts_matches _ _ _ Hc) as (row & -> & Hrow).
    unfold PostgresStorage.matches in Hrow. rewrite Hs, Htruthy in Hrow.
    apply andb_prop in Hrow as [[Hsearch _]%andb_prop _].
    by rewrite !(ilike_contains _ _ (proj1 (Hplain s eq_refl))) in Hsearch. }
  assert (PostgresStorage.genre_filter o
            (PostgresStorage.select_concerts (db env) o)
          = PostgresStorage.select_concerts (db env) o) as ->.
  { unfold PostgresStorage.genre_filter.
    destruct (o_genre o) as [g|] eqn:Hg; [|done].
    destruct (JS.truthy g) eqn:Htruthy; [|done].
    apply filter_all, Forall_forall. intros c Hc.
    destruct (select_concerts_matches _ _ _ Hc) as (row & -> & Hrow).
    unfold PostgresStorage.matches in Hrow. rewrite Hg, Htruthy in Hrow.
    apply andb_prop in Hrow as [[_ Hgenre]%andb_prop _]. simpl.
    destruct (genre (c_base row)) as [g'|]; [|done].
    apply String.eqb_eq in Hgenre as ->. apply includes_refl. }
  unfold PostgresStorage.paginate, JS.slice. rewrite Hoff. simpl.
  rewrite Nat.sub_0_r. apply take_ge.
  pose proof (select_concerts_length (db env) o) as Hlen.
  destruct (limit o) as [[|n]|]; simpl in *; lia.
Qed.

Lemma first_page_is_the_store_page_witness :
  res (PostgresStorage.getConcertsWithHistorical
         {| search := Some "midnight"; o_genre := Some "Rock"; o_city := None;
            limit := None; offset := None;
            includeTicketmaster := None; includeHistorical := None;
            startDate := None; endDate := None |}
         (Fixture.env Fixture.one_event) 0)
  = Ok [PostgresStorage.with_rating Fixture.catalogue
          (Fixture.concert "c1" "The Midnight" 200)].
Proof.
  rewrite first_page_is_the_store_page; [reflexivity..|].
  intros s [= <-]. split; reflexivity.
Defined.

(** ** The historical provider and the genre filter *)

Lemma live_events_elem env o e :
  e ∈ live_events env o ->
  exists ev, e = TicketmasterService.transformEvent ev.
Proof.
  unfold live_events.
  destruct (res _) as [events|] eqn:Hres; [|by intros ?%elem_of_nil].
  unfold PostgresStorage.searchTicketmasterEvents, Effect.try_catch in Hres.
  destruct (res (PostgresStorage.searchTicketmasterEvents_try _ _ _))
    as [events'|] eqn:Htry; simpl in Hres.
  - rewrite Htry in Hres. injection Hres as <-.
    unfold PostgresStorage.searchTicketmasterEvents_try, Effect.bind in Htry.
    destruct (res (TicketmasterService.searchEvents _ _ _)); simpl in Htry;
      [|done].
    injection Htry as <-. change (map ?f ?l) with (f <$> l).
    intros (ev & -> & _)%list_elem_of_fmap. by exists ev.
  - injection Hres as <-. by intros ?%elem_of_nil.
Qed.

Lemma historical_events_elem env o e :
  e ∈ historical_events env o ->
  exists sl, e = SetlistFmService.transformSetlist sl.
Proof.
  unfold historical_events.
  destruct (res _) as [events|] eqn:Hres; [|by intros ?%elem_of_nil].
  unfold PostgresStorage.searchSetlistFmEvents, Effect.try_catch in Hres.
  destruct (res (PostgresStorage.searchSetlistFmEvents_try _ _ _))
    as [events'|] eqn:Htry; simpl in Hres.
  - rewrite Htry in Hres. injection Hres as <-.
    unfold PostgresStorage.searchSetlistFmEvents_try, Effect.bind in Htry.
    destruct (res (SetlistFmService.searchSetlists _ _ _)); simpl in Htry;
      [|done].
    injection Htry as <-. change (map ?f ?l) with (f <$> l).
    intros (sl & -> & _)%list_elem_of_fmap. by exists sl.
  - injection Hres as <-. by intros ?%elem_of_nil.
Qed.

(** Where an entry of a result comes from: a row of the store, a
    transformed event, or a transformed setlist. *)
Lemma aggregated_origin env t o c :
  c ∈ aggregated env t o ->
  (exists row, row ∈ concerts (db env)
               /\ c = PostgresStorage.with_rating (db env) row)
  \/ (exists ev a b, c = stamp (TicketmasterService.transformEvent ev) a b)
  \/ (exists sl a b, c = stamp (SetlistFmService.transformSetlist sl) a b).
Proof.
  intros Hc. eapply elem_of_sublist in Hc; [|apply aggregated_sublist].
  apply merged_elem in Hc as [Hlocal|[[Hp|Hp] _]].
  - left. by apply select_concerts_rows in Hlocal.
  - right; left. unfold live_part in Hp.
    destruct (JS.truthy_bool _); [|by apply elem_of_nil in Hp].
    destruct (stamped_elem _ _ _ _ Hp) as (e & a & b & He & ->).
    destruct (live_events_elem _ _ _ He) as (ev & ->). by exists ev, a, b.
  - right; right. unfold historical_part in Hp.
    destruct (JS.truthy_bool _); [|by apply elem_of_nil in Hp].
    destruct (stamped_elem _ _ _ _ Hp) as (e & a & b & He & ->).
    destruct (historical_events_elem _ _ _ He) as (sl & ->). by exists sl, a, b.
Qed.

(** X8. The records of the historical provider all carry the genre
    "Music", so a genre filter whose text, in lower case, is not a part of
    "music" leaves no historical entry in the result. *)
Theorem genre_filter_drops_historical_entries
    (env : Env) (t : nat) (o : QueryOptions) (g : string) :
  o_genre o = Some g ->
  JS.truthy g = true ->
  JS.includes "music" (JS.toLowerCase g) = false ->
  exists l : list ConcertWithRating,
    res (PostgresStorage.getConcertsWithHistorical o env t) = Ok l
    /\ forall c : ConcertWithRating, c ∈ l -> isHistorical c = false.
Proof.
  intros Hg Htruthy Hmusic. exists (aggregated env t o).
  split; [apply getConcertsWithHistorical_run|]. intros c Hc.
  destruct (aggregated_origin _ _ _ _ Hc)
    as [(row & _ & ->)|[(ev & a & b & ->)|(sl & a & b & ->)]]; [done|done|].
  exfalso. unfold aggregated, PostgresStorage.paginate, JS.slice in Hc.
  eapply elem_of_sublist in Hc;
    [|etrans; [apply sublist_take|apply sublist_drop]].
  unfold PostgresStorage.genre_filter in Hc. rewrite Hg, Htruthy in Hc.
  apply filter_elem in Hc as [_ Hhit].
  change (JS.includes "music" (JS.toLowerCase g) = true) in Hhit. congruence.
Qed.

Lemma genre_filter_drops_historical_entries_witness :
  exists l : list ConcertWithRating,
    res (PostgresStorage.getConcertsWithHistorical
           (Sample.all_on None (Some "Rock") (Some 20) (Some 0))
           (Sample.both Fixture.one_event Fixture.two_setlists) 0) = Ok l
    /\ Forall (fun c => isHistorical c = false) l
    /\ ids_of l = ["c1"; "c2"].
Proof.
  destruct (genre_filter_drops_historical_entries
              (Sample.both Fixture.one_event Fixture.two_setlists) 0
              (Sample.all_on None (Some "Rock") (Some 20) (Some 0)) "Rock"
              eq_refl eq_refl eq_refl) as (l & Hrun & Hall).
  exists l. split; [exact Hrun|]. split; [by apply Forall_forall|].
  vm_compute in Hrun. injection Hrun as <-. reflexivity.
Defined.

(** ** The store query *)

Lemma desc_total a b : SQL.desc a b = false -> SQL.desc b a = true.
Proof. destruct a, b; simpl; try done. intros H%Z.leb_gt. apply Z.leb_le. lia. Qed.

Lemma desc_trans a b c :
  SQL.desc a b = true -> SQL.desc b c = true -> SQL.desc a c = true.
Proof.
  destruct a, b, c; simpl; try done.
  intros H1%Z.leb_le H2%Z.leb_le. apply Z.leb_le. lia.
Qed.

Lemma insert_by_elem {A} (before : A -> A -> bool) x l y :
  y ∈ insert_by before x l -> y = x \/ y ∈ l.
Proof.
  intros H. rewrite insert_by_Permutation in H.
  apply elem_of_cons in H. tauto.
Qed.

Lemma insert_by_sorted {A} (before : A -> A -> bool) x l :
  (forall a b, before a b = false -> before b a = true) ->
  (forall a b c, before a b = true -> before b c = true -> before a c = true) ->
  StronglySorted (fun a b => before a b = true) l ->
  StronglySorted (fun a b => before a b = true) (insert_by before x l).
Proof.
  intros Htotal Htrans. induction 1 as [|y l Hl IH Hy]; simpl.
  - repeat constructor.
  - destruct (before x y) eqn:Hxy.
    + constructor; [by constructor|]. constructor; [done|].
      eapply Forall_impl; [exact Hy|]. intros z Hz. by eapply Htrans.
    + constructor; [done|]. apply Forall_forall. intros z Hz.
      apply insert_by_elem in Hz as [->|Hz]; [by apply Htotal|].
      by apply (proj1 (Forall_forall _ _) Hy).
Qed.

Lemma sort_by_sorted {A} (before : A -> A -> bool) l :
  (forall a b, before a b = false -> before b a = true) ->
  (forall a b c, before a b = true -> before b c = true -> before a c = true) ->
  StronglySorted (fun a b => before a b = true) (sort_by before l).
Proof.
  intros Htotal Htrans. induction l as [|x l IH]; simpl; [constructor|].
  by apply insert_by_sorted.
Qed.

Lemma StronglySorted_sublist {A} (R : A -> A -> Prop) l l' :
  l' `sublist_of` l -> StronglySorted R l -> StronglySorted R l'.
Proof.
  induction 1 as [|x l1 l2 Hsub IH|x l1 l2 Hsub IH]; intros Hs; [done| |].
  - apply StronglySorted_inv in Hs as [Hs Hx]. constructor; [by apply IH|].
    apply Forall_forall. intros y Hy.
    apply (proj1 (Forall_forall _ _) Hx). by eapply elem_of_sublist.
  - apply StronglySorted_inv in Hs as [Hs _]. by apply IH.
Qed.

(** X9. [getConcerts] returns its rows newest first: each row was created
    no earlier than every row after it, a row without creation time
    standing before all others. *)
Theorem getConcerts_newest_first (env : Env) (t : nat) (o : QueryOptions) :
  exists l : list ConcertWithRating,
    res (PostgresStorage.getConcerts o env t) = Ok l
    /\ StronglySorted newer_first l.
Proof.
  exists (PostgresStorage.select_concerts (db env) o). split; [done|].
  unfold PostgresStorage.select_concerts.
  set (before := fun a b : Concert => SQL.desc (c_createdAt a) (c_createdAt b)).
  assert (StronglySorted (fun a b => before a b = true)
            (take (JS.default_num (limit o) 20)
               (drop (JS.default_num (offset o) 0)
                  (sort_by before
                     (List.filter (PostgresStorage.matches o) (concerts (db env)))))))
    as Hsorted.
  { eapply StronglySorted_sublist;
      [etrans; [apply sublist_take|apply sublist_drop]|].
    apply sort_by_sorted; unfold before.
    - intros a b. apply desc_total.
    - intros a b c. apply desc_trans. }
  induction Hsorted as [|c l _ IH Hc]; simpl; constructor; [done|].
  apply Forall_forall. intros c' Hc'.
  change (map ?f ?l) with (f <$> l) in Hc'.
  apply list_elem_of_fmap in Hc' as (row & -> & Hrow).
  by apply (proj1 (Forall_forall _ _) Hc).
Qed.

(** X10. [getConcerts] returns at most [limit] rows (20 when the limit is
    absent, none when it is 0), and each of them is a row of the store that
    satisfies the filter, with the number of its reviews as [reviewCount]. *)
Theorem getConcerts_page (env : Env) (t : nat) (o : QueryOptions) :
  exists l : list ConcertWithRating,
    res (PostgresStorage.getConcerts o env t) = Ok l
    /\ length l <= JS.default_num (limit o) 20
    /\ forall c : ConcertWithRating,
         c ∈ l ->
         exists row : Concert,
           row ∈ concerts (db env)
           /\ PostgresStorage.matches o row = true
           /\ base c = c_base row
           /\ createdAt c = c_createdAt row
           /\ reviewCount c
              = Some (length (List.filter
                                (fun r => String.eqb (r_concertId r) (id (c_base row)))
                                (reviews (db env)))).
Proof.
  exists (PostgresStorage.select_concerts (db env) o). split; [done|].
  split; [apply select_concerts_length|].
  intros c Hc.
  destruct (select_concerts_matches _ _ _ Hc) as (row & -> & Hmatch).
  destruct (select_concerts_rows _ _ _ Hc) as (row' & Hrow' & Heq).
  exists row. repeat split; try done.
  assert (row = row') as ->; [|done].
  assert (c_base row = c_base row') by (by apply (f_equal base) in Heq).
  assert (c_createdAt row = c_createdAt row')
    by (by apply (f_equal createdAt) in Heq).
  assert (c_updatedAt row = c_updatedAt row')
    by (by apply (f_equal updatedAt) in Heq).
  destruct row, row'; simpl in *; congruence.
Qed.

Lemma getConcerts_page_witness :
  exists l : list ConcertWithRating,
    res (PostgresStorage.getConcerts
           {| search := Some "mid"; o_genre := None; o_city := Some "paris";
              limit := Some 1; offset := None;
              includeTicketmaster := None; includeHistorical := None;
              startDate := None; endDate := None |}
           (Fixture.env Fixture.one_event) 0) = Ok l
    /\ length l <= 1
    /\ map (fun c => (id (base c), reviewCount c)) l = [("c1", Some 2)].
Proof.
  destruct (getConcerts_page (Fixture.env Fixture.one_event) 0
              {| search := Some "mid"; o_genre := None; o_city := Some "paris";
                 limit := Some 1; offset := None;
                 includeTicketmaster := None; includeHistorical := None;
                 startDate := None; endDate := None |})
    as (l & Hrun & Hlen & _).
  exists l. split; [exact Hrun|]. split; [exact Hlen|].
  vm_compute in Hrun. injection Hrun as <-. reflexivity.
Defined.

Lemma select_concerts_with_page d o k n :
  PostgresStorage.select_concerts d (with_page o k n)
  = map (PostgresStorage.with_rating d)
      (take n (drop k
         (sort_by (fun a b => SQL.desc (c_createdAt a) (c_createdAt b))
            (List.filter (PostgresStorage.matches o) (concerts d))))).
Proof. reflexivity. Qed.

Lemma take_take_drop {A} (l : list A) n m :
  take n l ++ take m (drop n l) = take (n + m) l.
Proof.
  revert l; induction n as [|n IH]; intros l; simpl.
  - by rewrite drop_0.
  - destruct l as [|x l]; simpl; [by rewrite take_nil|]. by rewrite IH.
Qed.

Lemma NoDup_fmap_eq {A B} (f : A -> B) (l : list A) x y :
  NoDup (f <$> l) -> x ∈ l -> y ∈ l -> f x = f y -> x = y.
Proof.
  induction l as [|z l IH]; csimpl; [by intros _ ?%elem_of_nil|].
  intros [Hz Hl]%NoDup_cons [->|Hx]%elem_of_cons [->|Hy]%elem_of_cons Heq.
  - done.
  - destruct Hz. rewrite Heq. by apply list_elem_of_fmap_2.
  - destruct Hz. rewrite <- Heq. by apply list_elem_of_fmap_2.
  - by apply IH.
Qed.

Lemma desc_antisym a b :
  SQL.desc a b = true -> SQL.desc b a = true -> a = b.
Proof.
  destruct a as [x|], b as [y|]; simpl; try done.
  intros H1%Z.leb_le H2%Z.leb_le. f_equal. lia.
Qed.

Lemma ordered_rows_created_at_desc d o : created_at_desc d o (ordered_rows d o).
Proof.
  split.
  - apply sort_by_Permutation.
  - apply sort_by_sorted.
    + intros a b. apply desc_total.
    + intros a b c. apply desc_trans.
Qed.

(** X11. When the matching rows have pairwise distinct creation times (and
    at most one has none), [ORDER BY created_at DESC] leaves the database no
    choice: the order of the model is the only one.  Then two consecutive
    pages of [getConcerts] make one larger page: the page of [n] rows at
    offset [k], followed by the page of [m] rows at offset [k + n], is the
    page of [n + m] rows at offset [k], so no row is skipped or repeated
    between pages.  With equal creation times the query names no order
    among the equal rows, and nothing is said. *)
Theorem getConcerts_pages_compose
    (env : Env) (t : nat) (o : QueryOptions) (k n m : nat) :
  NoDup (map c_createdAt
           (List.filter (PostgresStorage.matches o) (concerts (db env)))) ->
  created_at_desc (db env) o (ordered_rows (db env) o)
  /\ forall rows : list Concert,
       created_at_desc (db env) o rows ->
       rows = ordered_rows (db env) o
       /\ res (PostgresStorage.getConcerts (with_page o k n) env t)
          = Ok (page_of (db env) rows k n)
       /\ res (PostgresStorage.getConcerts (with_page o (k + n) m) env t)
          = Ok (page_of (db env) rows (k + n) m)
       /\ res (PostgresStorage.getConcerts (with_page o k (n + m)) env t)
          = Ok (page_of (db env) rows k n ++ page_of (db env) rows (k + n) m).
Proof.
  intros Hdistinct. split; [apply ordered_rows_created_at_desc|].
  intros rows [Hperm Hsorted].
  destruct (ordered_rows_created_at_desc (db env) o) as [Hperm' Hsorted'].
  assert (rows = ordered_rows (db env) o) as ->.
  { eapply StronglySorted_unique_strong; [|exact Hsorted|exact Hsorted'|].
    - intros a b Ha Hb Hab Hba.
      apply (NoDup_fmap_eq c_createdAt
               (List.filter (PostgresStorage.matches o) (concerts (db env))));
        [done|by rewrite <- Hperm|by rewrite <- Hperm'|].
      by apply desc_antisym.
    - by rewrite Hperm, Hperm'. }
  split; [done|]. split; [reflexivity|]. split; [reflexivity|].
  simpl. f_equal. rewrite select_concerts_with_page.
  unfold page_of, ordered_rows.
  rewrite <- map_app. f_equal.
  rewrite <- take_take_drop. f_equal. by rewrite drop_drop.
Qed.

Lemma getConcerts_pages_compose_witness :
  res (PostgresStorage.getConcerts
         (with_page (Fixture.options None None false) 0 2)
         (Fixture.env Fixture.one_event) 0)
  = Ok (page_of Fixture.catalogue
          [Fixture.concert "c1" "The Midnight" 200;
           Fixture.concert "c2" "Daylight" 100] 0 1
        ++ page_of Fixture.catalogue
             [Fixture.concert "c1" "The Midnight" 200;
              Fixture.concert "c2" "Daylight" 100] 1 1).
Proof.
  destruct (getConcerts_pages_compose (Fixture.env Fixture.one_event) 0
              (Fixture.options None None false) 0 1 1) as [_ Hpages].
  - apply (bool_decide_unpack _). vm_compute. reflexivity.
  - destruct (Hpages [Fixture.concert "c1" "The Midnight" 200;
                      Fixture.concert "c2" "Daylight" 100])
      as (_ & _ & _ & Hboth).
    + split; [vm_compute; reflexivity|]. repeat constructor.
    + exact Hboth.
Defined.

(** X12. A first page that is long enough holds every row of the store
    that satisfies the filter, each once: its records are a permutation of
    the matching rows. *)
Theorem getConcerts_first_page_complete
    (env : Env) (t : nat) (o : QueryOptions) (n : nat) :
  length (List.filter (PostgresStorage.matches o) (concerts (db env))) <= n ->
  exists l : list ConcertWithRating,
    res (PostgresStorage.getConcerts (with_page o 0 n) env t) = Ok l
    /\ l ≡ₚ map (PostgresStorage.with_rating (db env))
              (List.filter (PostgresStorage.matches o) (concerts (db env))).
Proof.
  intros Hlen. eexists. split; [reflexivity|].
  rewrite select_concerts_with_page, drop_0.
  change (map ?f ?l) with (f <$> l).
  rewrite take_ge.
  - by rewrite sort_by_Permutation.
  - by rewrite sort_by_Permutation.
Qed.

Lemma getConcerts_first_page_complete_witness :
  exists l : list ConcertWithRating,
    res (PostgresStorage.getConcerts
           (with_page (Fixture.options None None false) 0 5)
           (Fixture.env Fixture.one_event) 0) = Ok l
    /\ ids_of l = ["c1"; "c2"].
Proof.
  destruct (getConcerts_first_page_complete (Fixture.env Fixture.one_event) 0
              (Fixture.options None None false) 5) as (l & Hrun & _).
  - vm_compute. lia.
  - exists l. split; [exact Hrun|].
    vm_compute in Hrun. injection Hrun as <-. reflexivity.
Defined.

(** ** The aggregation with the live provider alone *)

Lemma ids_of_stamped k t events :
  ids_of (stamped k t events) = map (fun e => id (ext_base e)) events.
Proof.
  revert t; induction events as [|e events IH]; intros t; simpl; [done|].
  by rewrite IH.
Qed.

Lemma tmOptions_without_dates o :
  JS.truthy_opt (startDate o) = false ->
  JS.truthy_opt (endDate o) = false ->
  PostgresStorage.tmOptions o = PostgresStorageLive.tmOptions o.
Proof.
  intros Hs He. unfold PostgresStorage.tmOptions, PostgresStorageLive.tmOptions.
  destruct (startDate o) as [s|], (endDate o) as [e|]; simpl in *;
    rewrite ?Hs, ?He; reflexivity.
Qed.

(** With pairwise distinct new ids, adding each id to the set as the loop
    goes changes nothing. *)
Lemma add_all_push_missing cs l (s s' : gset string) :
  NoDup (ids_of cs) ->
  (forall c, c ∈ cs -> id (base c) ∈ s' <-> id (base c) ∈ s) ->
  (PostgresStorage.add_all cs (l, s')).1
  = fold_left (PostgresStorageLive.push_missing s) cs l.
Proof.
  revert l s'; induction cs as [|c cs IH]; intros l s' Hnd Hs; [done|].
  apply NoDup_cons in Hnd as [Hc Hnd].
  change (PostgresStorage.add_all (c :: cs) (l, s'))
    with (PostgresStorage.add_all cs (PostgresStorage.push_unseen (l, s') c)).
  change (fold_left (PostgresStorageLive.push_missing s) (c :: cs) l)
    with (fold_left (PostgresStorageLive.push_missing s) cs
            (PostgresStorageLive.push_missing s l c)).
  assert (PostgresStorage.push_unseen (l, s') c
          = if decide (id (base c) ∈ s') then (l, s')
            else (l ++ [c], {[ id (base c) ]} ∪ s')) as -> by reflexivity.
  assert (PostgresStorageLive.push_missing s l c
          = if decide (id (base c) ∈ s) then l else l ++ [c]) as ->
    by reflexivity.
  destruct (decide (id (base c) ∈ s')) as [Hin|Hout];
    destruct (decide (id (base c) ∈ s)) as [Hin'|Hout'].
  - apply IH; [done|]. intros c' Hc'. apply Hs. by right.
  - exfalso. apply Hout'. apply Hs; [left|done].
  - exfalso. apply Hout. apply Hs; [left|done].
  - apply IH; [done|]. intros c' Hc'.
    rewrite elem_of_union, elem_of_singleton. split.
    + intros [Heq|Hin]; [|apply Hs; [by right|done]].
      exfalso. apply Hc. rewrite <- Heq. unfold ids_of.
      change (map ?f ?l) with (f <$> l). apply list_elem_of_fmap. by exists c'.
    + intros Hin. right. apply Hs; [by right|done].
Qed.

Lemma getConcertsWithTicketmaster_off env t o :
  JS.truthy_bool (includeTicketmaster o) = false ->
  res (PostgresStorageLive.getConcertsWithTicketmaster o env t)
  = Ok (PostgresStorage.select_concerts (db env) o).
Proof.
  intros Hoff.
  unfold PostgresStorageLive.getConcertsWithTicketmaster,
    PostgresStorageLive.getConcertsWithTicketmaster_try,
    Effect.try_catch, Effect.bind.
  simpl. by rewrite Hoff.
Qed.

Lemma getConcertsWithTicketmaster_on env t o :
  JS.truthy_bool (includeTicketmaster o) = true ->
  JS.truthy_opt (startDate o) = false ->
  JS.truthy_opt (endDate o) = false ->
  res (PostgresStorageLive.getConcertsWithTicketmaster o env t)
  = Ok (PostgresStorage.paginate o
          (PostgresStorage.genre_filter o
             (PostgresStorage.search_filter o
                (fold_left
                   (PostgresStorageLive.push_missing
                      (list_to_set
                         (ids_of (PostgresStorage.select_concerts (db env) o))))
                   (stamped (clock env) t (live_events env o))
                   (PostgresStorage.select_concerts (db env) o))))).
Proof.
  intros Hon Hs He.
  assert (exists t',
    runs (PostgresStorageLive.getConcertsWithTicketmaster_try o) env t
      (PostgresStorage.paginate o
         (PostgresStorage.genre_filter o
            (PostgresStorage.search_filter o
               (fold_left
                  (PostgresStorageLive.push_missing
                     (list_to_set
                        (ids_of (PostgresStorage.select_concerts (db env) o))))
                  (stamped (clock env) t (live_events env o))
                  (PostgresStorage.select_concerts (db env) o))))) t')
    as (t' & Hrun).
  { unfold PostgresStorageLive.getConcertsWithTicketmaster_try.
    rewrite <- (tmOptions_without_dates o Hs He).
    eexists. eapply runs_bind; [apply getConcerts_run|].
    rewrite Hon. simpl negb. cbv iota.
    eapply runs_bind; [apply searchTicketmasterEvents_run|].
    eapply runs_bind; [apply mapM_unrated_run|]. apply runs_ret. }
  unfold PostgresStorageLive.getConcertsWithTicketmaster.
  by destruct (runs_try_catch _ (fun _ => PostgresStorage.getConcerts o)
                 _ _ _ _ Hrun).
Qed.

(** X13. [getConcertsWithTicketmaster] and [getConcertsWithHistorical]
    agree when the historical provider is off and no date bound is given,
    provided the records of the live provider have pairwise distinct ids
    (the first never adds a merged id to its set of seen ids, the second
    does), except that with the live provider off the first returns the page
    of the store as it is. *)
Theorem getConcertsWithTicketmaster_agrees
    (env : Env) (t : nat) (o : QueryOptions) (tmEvents : list External) :
  JS.truthy_opt (startDate o) = false ->
  JS.truthy_opt (endDate o) = false ->
  res (PostgresStorage.searchTicketmasterEvents (PostgresStorage.tmOptions o) env t)
  = Ok tmEvents ->
  NoDup (map (fun e => id (ext_base e)) tmEvents) ->
  (JS.truthy_bool (includeTicketmaster o) = true ->
   res (PostgresStorageLive.getConcertsWithTicketmaster o env t)
   = res (PostgresStorage.getConcertsWithHistorical
            (with_toggles (includeTicketmaster o) (Some false) o) env t))
  /\ (JS.truthy_bool (includeTicketmaster o) = false ->
      res (PostgresStorageLive.getConcertsWithTicketmaster o env t)
      = res (PostgresStorage.getConcerts o env t)).
Proof.
  intros Hs He Hlive%live_events_eq Hnd. subst. split.
  - intros Hon. rewrite (getConcertsWithTicketmaster_on _ _ _ Hon Hs He).
    rewrite getConcertsWithHistorical_run. f_equal.
    unfold aggregated, merged, historical_part, live_part. simpl.
    rewrite Hon.
    change (live_events env (with_toggles (includeTicketmaster o) (Some false) o))
      with (live_events env o).
    change (PostgresStorage.select_concerts (db env)
              (with_toggles (includeTicketmaster o) (Some false) o))
      with (PostgresStorage.select_concerts (db env) o).
    rewrite (add_all_push_missing
               (stamped (clock env) t (live_events env o))
               (PostgresStorage.select_concerts (db env) o)
               (list_to_set (ids_of (PostgresStorage.select_concerts (db env) o)))
               (list_to_set (ids_of (PostgresStorage.select_concerts (db env) o))));
      [reflexivity| |done].
    by rewrite ids_of_stamped.
  - intros Hoff. by rewrite (getConcertsWithTicketmaster_off _ _ _ Hoff).
Qed.

Lemma getConcertsWithTicketmaster_agrees_witness :
  res (PostgresStorageLive.getConcertsWithTicketmaster
         (Fixture.options (Some 20) (Some 0) true)
         (Fixture.env Fixture.one_event) 0)
  = res (PostgresStorage.getConcertsWithHistorical
           (Fixture.options (Some 20) (Some 0) true)
           (Fixture.env Fixture.one_event) 0)
  /\ res (PostgresStorageLive.getConcertsWithTicketmaster
            (Fixture.options (Some 1) (Some 1) false)
            (Fixture.env Fixture.one_event) 0)
     = Ok [PostgresStorage.with_rating Fixture.catalogue
             (Fixture.concert "c2" "Daylight" 100)].
Proof.
  assert (NoDup (map (fun e => id (ext_base e))
                   [TicketmasterService.transformEvent
                      (Fixture.event "123" "Nightfall")])) as Hnd.
  { apply (bool_decide_unpack _). vm_compute. exact I. }
  split.
  - destruct (getConcertsWithTicketmaster_agrees
                (Fixture.env Fixture.one_event) 0
                (Fixture.options (Some 20) (Some 0) true) _
                eq_refl eq_refl eq_refl Hnd) as [Hon _].
    exact (Hon eq_refl).
  - destruct (getConcertsWithTicketmaster_agrees
                (Fixture.env Fixture.one_event) 0
                (Fixture.options (Some 1) (Some 1) false) _
                eq_refl eq_refl eq_refl Hnd) as [_ Hoff].
    rewrite (Hoff eq_refl). reflexivity.
Defined.

(** ** The live provider client: ids, images, display fields, wrappers *)

(** X14. The ids of transformed provider records: two events get the same
    id only when their native ids are equal, likewise two setlists, and an
    event and a setlist never get the same id. *)
Theorem provider_ids_are_namespaced
    (e1 e2 : TicketmasterEvent) (s1 s2 : SetlistFmSetlist) :
  (id (ext_base (TicketmasterService.transformEvent e1))
   = id (ext_base (TicketmasterService.transformEvent e2))
   <-> ev_id e1 = ev_id e2)
  /\ (id (ext_base (SetlistFmService.transformSetlist s1))
      = id (ext_base (SetlistFmService.transformSetlist s2))
      <-> sl_id s1 = sl_id s2)
  /\ id (ext_base (TicketmasterService.transformEvent e1))
     <> id (ext_base (SetlistFmService.transformSetlist s1)).
Proof.
  assert (forall p a b : string, p +:+ a = p +:+ b -> a = b) as Hinj.
  { intros p. induction p as [|c p IH]; intros a b; simpl; [done|].
    intros [= H]. by apply IH. }
  split; [|split].
  - change (id (ext_base (TicketmasterService.transformEvent e1)))
      with ("tm_" +:+ ev_id e1).
    change (id (ext_base (TicketmasterService.transformEvent e2)))
      with ("tm_" +:+ ev_id e2).
    split; [apply Hinj|by intros ->].
  - change (id (ext_base (SetlistFmService.transformSetlist s1)))
      with ("setlistfm_" +:+ sl_id s1).
    change (id (ext_base (SetlistFmService.transformSetlist s2)))
      with ("setlistfm_" +:+ sl_id s2).
    split; [apply Hinj|by intros ->].
  - simpl. discriminate.
Qed.

Lemma sort_by_nonempty {A} (before : A -> A -> bool) l :
  l <> [] -> exists x rest, sort_by before l = x :: rest.
Proof.
  intros Hne. destruct (sort_by before l) as [|x rest] eqn:Hsort; [|by eauto].
  exfalso. apply Hne. apply Permutation_nil_r.
  by rewrite <- (sort_by_Permutation before l), Hsort.
Qed.

(** The image that [getBestImage] falls back to is one of the largest. *)
Lemma largest_image_first imgs img rest :
  sort_by (fun a b =>
             (TicketmasterService.area b - TicketmasterService.area a <=? 0)%Z)
          imgs = img :: rest ->
  img ∈ imgs
  /\ forall other, other ∈ imgs ->
       (TicketmasterService.area other <= TicketmasterService.area img)%Z.
Proof.
  intros Hsort.
  set (before := fun a b : TmImage =>
         (TicketmasterService.area b - TicketmasterService.area a <=? 0)%Z)
    in *.
  assert (StronglySorted (fun a b => before a b = true) (img :: rest)) as Hs.
  { rewrite <- Hsort. apply sort_by_sorted; unfold before.
    - intros a b H%Z.leb_gt. apply Z.leb_le. lia.
    - intros a b c H1%Z.leb_le H2%Z.leb_le. apply Z.leb_le. lia. }
  apply StronglySorted_inv in Hs as [_ Hall].
  split.
  - rewrite <- (sort_by_Permutation before imgs), Hsort. left.
  - intros other Hother.
    rewrite <- (sort_by_Permutation before imgs), Hsort in Hother.
    apply elem_of_cons in Hother as [->|Hother]; [lia|].
    apply (proj1 (Forall_forall _ _) Hall) in Hother.
    unfold before in Hother. apply Z.leb_le in Hother. lia.
Qed.

(** X15. [getBestImage] returns the address of the first image whose ratio
    is 16:9 when there is one; otherwise, for a list that is not empty and
    whose images have whole sizes with products of at most 2^53 (so that the
    products and their differences are exact in the numbers of JavaScript),
    it takes an image of the largest pixel area and returns its address, or
    nothing when that address is empty; for no list or an empty one it
    returns nothing. *)
Theorem getBestImage_choice (images : list TmImage) :
  TicketmasterService.getBestImage None = None
  /\ TicketmasterService.getBestImage (Some []) = None
  /\ (forall wide : TmImage,
        List.find is_16_9 images = Some wide ->
        TicketmasterService.getBestImage (Some images) = Some (img_url wide))
  /\ (List.find is_16_9 images = None ->
      images <> [] ->
      Forall exact_area images ->
      exists largest : TmImage,
        largest ∈ images
        /\ (forall other : TmImage,
              other ∈ images ->
              (TicketmasterService.area other
               <= TicketmasterService.area largest)%Z)
        /\ TicketmasterService.getBestImage (Some images)
           = if JS.truthy (img_url largest) then Some (img_url largest)
             else None).
Proof.
  split; [done|]. split; [done|]. split.
  - intros wide Hfind. unfold TicketmasterService.getBestImage.
    destruct images as [|img imgs]; [done|].
    change (fun img0 : TmImage => String.eqb (img_ratio img0) "16_9")
      with is_16_9.
    by rewrite Hfind.
  - intros Hfind Hne _. unfold TicketmasterService.getBestImage.
    destruct images as [|img imgs]; [done|].
    change (fun img0 : TmImage => String.eqb (img_ratio img0) "16_9")
      with is_16_9.
    rewrite Hfind.
    destruct (sort_by_nonempty
                (fun a b => (TicketmasterService.area b
                             - TicketmasterService.area a <=? 0)%Z)
                (img :: imgs) Hne) as (largest & rest & Hsort).
    destruct (largest_image_first _ _ _ Hsort) as [Hin Hmax].
    exists largest. split; [done|]. split; [done|].
    rewrite Hsort. reflexivity.
Qed.

Lemma getBestImage_choice_witness :
  TicketmasterService.getBestImage
    (Some [Sample.image "3_2" "small.jpg" 300 200;
           Sample.image "16_9" "wide.jpg" 160 90;
           Sample.image "4_3" "large.jpg" 800 600]) = Some "wide.jpg"
  /\ TicketmasterService.getBestImage
       (Some [Sample.image "3_2" "small.jpg" 300 200;
              Sample.image "4_3" "large.jpg" 800 600;
              Sample.image "3_2" "medium.jpg" 600 400]) = Some "large.jpg".
Proof.
  split.
  - destruct (getBestImage_choice
                [Sample.image "3_2" "small.jpg" 300 200;
                 Sample.image "16_9" "wide.jpg" 160 90;
                 Sample.image "4_3" "large.jpg" 800 600]) as (_ & _ & Hwide & _).
    apply (Hwide (Sample.image "16_9" "wide.jpg" 160 90)). reflexivity.
  - destruct (getBestImage_choice
                [Sample.image "3_2" "small.jpg" 300 200;
                 Sample.image "4_3" "large.jpg" 800 600;
                 Sample.image "3_2" "medium.jpg" 600 400])
      as (_ & _ & _ & Hlargest).
    destruct Hlargest as (largest & _ & _ & Hbest);
      [reflexivity|discriminate| |reflexivity].
    repeat (constructor; [unfold exact_area; simpl; lia|]). constructor.
Defined.

Lemma or_str_truthy a b : JS.truthy b = true -> JS.truthy (JS.or_str a b) = true.
Proof.
  intros Hb. unfold JS.or_str. destruct a as [s|]; [|done].
  by destruct (JS.truthy s) eqn:Hs.
Qed.

Lemma truthy_app_r a b : JS.truthy b = true -> JS.truthy (a +:+ b) = true.
Proof. by destruct a. Qed.

(** X16. A transformed event never has an empty venue, city, time, price
    or genre: where the provider gives none, the placeholders "TBA" and
    "Music" stand in. *)
Theorem transformEvent_fields_never_empty (event : TicketmasterEvent) :
  let c := ext_base (TicketmasterService.transformEvent event) in
  JS.truthy (venue c) = true
  /\ JS.truthy (city c) = true
  /\ JS.truthy (time c) = true
  /\ JS.truthy (price c) = true
  /\ JS.truthy_opt (genre c) = true
  /\ JS.truthy (id c) = true.
Proof.
  simpl. repeat split.
  - by apply or_str_truthy.
  - destruct (head (ev_venues event)); [|done]. by apply truthy_app_r.
  - by apply or_str_truthy.
  - by destruct (head (ev_priceRanges event)).
  - by apply or_str_truthy.
Qed.

Lemma lift_transformEvent_run event env t :
  TicketmasterRaw.lift (TicketmasterRaw.transformEvent event) env t
  = Build_Outcome
      (if TicketmasterRaw.has_city event
       then Ok (TicketmasterService.transformEvent
                  (TicketmasterRaw.declared event))
       else Throw TypeError) t [].
Proof.
  unfold TicketmasterRaw.transformEvent.
  by destruct (TicketmasterRaw.has_city event).
Qed.

(** [events.map(transformEvent)] raises as soon as one event has a venue
    without city, and sends nothing. *)
Lemma mapM_transformEvent_run events env t :
  Effect.mapM (fun event =>
                 TicketmasterRaw.lift (TicketmasterRaw.transformEvent event))
    events env t
  = Build_Outcome
      (if forallb TicketmasterRaw.has_city events
       then Ok (map (fun event =>
                       TicketmasterService.transformEvent
                         (TicketmasterRaw.declared event)) events)
       else Throw TypeError) t [].
Proof.
  induction events as [|event events IH]; [done|].
  cbn [Effect.mapM forallb map]. unfold Effect.bind at 1.
  rewrite lift_transformEvent_run. cbn [res ticks sent].
  destruct (TicketmasterRaw.has_city event); [|done].
  unfold Effect.bind. rewrite IH. cbn [res ticks sent andb].
  by destruct (forallb TicketmasterRaw.has_city events).
Qed.

(** X17. [getTicketmasterEvent] never raises.  It sends the lookup request
    whether or not credentials are set; it returns [null] when the request
    is rejected, when the status is not 2xx (404 or any other), when the
    body cannot be read, and when the transform raises because the venue of
    the event has no city; otherwise it returns the transformed event. *)
Theorem getTicketmasterEvent_never_raises
    (env : Env) (t : nat) (net : Request -> FetchOutcome RawEvent)
    (eventId : string) :
  sent (TicketmasterRaw.getTicketmasterEvent net eventId env t)
  = [TicketmasterService.event_request (consumerKey env) eventId]
  /\ res (TicketmasterRaw.getTicketmasterEvent net eventId env t)
     = Ok match net (TicketmasterService.event_request (consumerKey env) eventId)
          with
          | Rejected => None
          | Resolved r =>
              if response_ok r then
                match body r with
                | BodyJson event =>
                    if TicketmasterRaw.has_city event
                    then Some (TicketmasterService.transformEvent
                                 (TicketmasterRaw.declared event))
                    else None
                | BodyMalformed => None
                end
              else None
          end.
Proof.
  unfold TicketmasterRaw.getTicketmasterEvent, TicketmasterRaw.getEvent.
  run_effects.
  destruct (net _) as [|r]; simpl; [done|].
  destruct (response_ok r); simpl.
  - unfold Effect.json. destruct (body r) as [|event]; simpl; [done|].
    rewrite lift_transformEvent_run. simpl.
    by destruct (TicketmasterRaw.has_city event).
  - by destruct (status r =? 404)%nat.
Qed.

Lemma getTicketmasterEvent_never_raises_witness :
  res (TicketmasterRaw.getTicketmasterEvent (Arrived.found None) "123"
         Fixture.unconfigured 0) = Ok None
  /\ res (TicketmasterRaw.getTicketmasterEvent (Arrived.found (Some "Paris"))
            "123" Fixture.unconfigured 0)
     = Ok (Some (TicketmasterService.transformEvent
                   (TicketmasterRaw.declared
                      (Arrived.event "123" [Arrived.venue (Some "Paris")]))))
  /\ city (ext_base (TicketmasterService.transformEvent
                       (TicketmasterRaw.declared
                          (Arrived.event "123" [Arrived.venue (Some "Paris")]))))
     = "Paris, FR".
Proof.
  split; [|split].
  - rewrite (proj2 (getTicketmasterEvent_never_raises
                      Fixture.unconfigured 0 (Arrived.found None) "123")).
    reflexivity.
  - rewrite (proj2 (getTicketmasterEvent_never_raises
                      Fixture.unconfigured 0 (Arrived.found (Some "Paris"))
                      "123")).
    reflexivity.
  - reflexivity.
Defined.

(** X18. [searchTicketmasterEvents] never raises, for any search options:
    it returns the empty list when [searchEvents] raises and when the
    transform raises on one of the events (its venue has no city), and
    otherwise the events of [searchEvents], each transformed, in their
    order. *)
Theorem searchTicketmasterEvents_never_raises
    (env : Env) (t : nat) (net : Request -> FetchOutcome RawResponse)
    (options : TicketmasterSearchOptions) :
  exists l : list External,
    res (TicketmasterRaw.searchTicketmasterEvents net options env t) = Ok l
    /\ (forall e : Error,
          res (TicketmasterRaw.searchEvents net options env t) = Throw e ->
          l = [])
    /\ (forall events : list RawEvent,
          res (TicketmasterRaw.searchEvents net options env t) = Ok events ->
          l = if forallb TicketmasterRaw.has_city events
              then map (fun event =>
                          TicketmasterService.transformEvent
                            (TicketmasterRaw.declared event)) events
              else []).
Proof.
  unfold TicketmasterRaw.searchTicketmasterEvents, Effect.try_catch.
  set (body := Effect.bind (TicketmasterRaw.searchEvents net options) _ env t).
  assert (res body
          = match res (TicketmasterRaw.searchEvents net options env t) with
            | Ok events =>
                if forallb TicketmasterRaw.has_city events
                then Ok (map (fun event =>
                                TicketmasterService.transformEvent
                                  (TicketmasterRaw.declared event)) events)
                else Throw TypeError
            | Throw e => Throw e
            end) as Hbody.
  { unfold body, Effect.bind.
    destruct (res (TicketmasterRaw.searchEvents net options env t));
      [|done].
    by rewrite mapM_transformEvent_run. }
  destruct (res (TicketmasterRaw.searchEvents net options env t))
    as [events|e] eqn:Hres.
  - destruct (forallb TicketmasterRaw.has_city events) eqn:Hcity;
      rewrite Hbody; [rewrite Hbody|]; eexists;
      (split; [reflexivity|]); (split; [done|]);
      intros ? [= <-]; by rewrite Hcity.
  - rewrite Hbody. exists []. split; [reflexivity|]. split; [done|]. done.
Qed.

Lemma searchTicketmasterEvents_never_raises_witness :
  res (TicketmasterRaw.searchTicketmasterEvents Arrived.unavailable
         Fixture.no_options (Fixture.env Fixture.one_event) 0) = Ok []
  /\ res (TicketmasterRaw.searchTicketmasterEvents Arrived.answer
            Fixture.no_options (Fixture.env Fixture.one_event) 0) = Ok [].
Proof.
  split.
  - destruct (searchTicketmasterEvents_never_raises
                (Fixture.env Fixture.one_event) 0 Arrived.unavailable
                Fixture.no_options)
      as (l & Hres & Hfail & _).
    rewrite Hres. f_equal. apply (Hfail (ApiError "Ticketmaster" 503)).
    reflexivity.
  - destruct (searchTicketmasterEvents_never_raises
                (Fixture.env Fixture.one_event) 0 Arrived.answer
                Fixture.no_options)
      as (l & Hres & _ & Hok).
    rewrite Hres. f_equal.
    apply (Hok [Arrived.event "1" [Arrived.venue (Some "Paris")];
                Arrived.event "2" [Arrived.venue None]]).
    reflexivity.
Defined.

(** ** The historical provider client: lookups, songs, dates *)

(** X19. The three other lookups of the historical client, [searchArtists],
    [searchVenues] and [getArtistSetlists], never raise: each returns the
    list of the answer (empty when the answer has none), and the empty list
    on every failure; without credentials none of them sends a request. *)
Theorem setlistfm_lookups_never_raise
    (env : Env) (t : nat)
    (artists : Request -> FetchOutcome SetlistFmArtistSearchResponse)
    (venues : Request -> FetchOutcome SetlistFmVenueSearchResponse)
    (name : string) (page : option nat) :
  (res (SetlistFmLookups.searchArtists artists name page env t)
   = Ok (if JS.truthy (apiKey env)
         then default []
                (lookup_data
                   (artists (SetlistFmLookups.artists_request (apiKey env) name page))
                 ≫= sfm_artist)
         else [])
   /\ res (SetlistFmLookups.searchVenues venues name page env t)
      = Ok (if JS.truthy (apiKey env)
            then default []
                   (lookup_data
                      (venues (SetlistFmLookups.venues_request (apiKey env) name page))
                    ≫= sfm_venue)
            else [])
   /\ res (SetlistFmLookups.getArtistSetlists name page env t)
      = Ok (if JS.truthy (apiKey env)
            then default []
                   (lookup_data
                      (sfm_net env
                         (SetlistFmLookups.artist_setlists_request
                            (apiKey env) name page))
                    ≫= sfm_setlist)
            else []))
  /\ (JS.truthy (apiKey env) = false ->
      sent (SetlistFmLookups.searchArtists artists name page env t) = []
      /\ sent (SetlistFmLookups.searchVenues venues name page env t) = []
      /\ sent (SetlistFmLookups.getArtistSetlists name page env t) = []).
Proof.
  unfold SetlistFmLookups.searchArtists, SetlistFmLookups.searchVenues,
    SetlistFmLookups.getArtistSetlists, lookup_data.
  run_effects.
  destruct (JS.truthy (apiKey env)); simpl; [|done].
  split; [|done]. split; [|split].
  - destruct (artists _) as [|r]; simpl; [done|].
    destruct (response_ok r); simpl.
    + unfold Effect.json. by destruct (body r).
    + by destruct (status r =? 404)%nat.
  - destruct (venues _) as [|r]; simpl; [done|].
    destruct (response_ok r); simpl.
    + unfold Effect.json. by destruct (body r).
    + by destruct (status r =? 404)%nat.
  - destruct (sfm_net env _) as [|r]; simpl; [done|].
    destruct (response_ok r); simpl.
    + unfold Effect.json. by destruct (body r).
    + by destruct (status r =? 404)%nat.
Qed.

Lemma setlistfm_lookups_never_raise_witness :
  sent (SetlistFmLookups.searchArtists (fun _ => Rejected) "The Midnight" None
          Fixture.unconfigured 0) = []
  /\ res (SetlistFmLookups.getArtistSetlists "mbid-1" (Some 2)
            (Fixture.archive_env Fixture.archive_unavailable) 0) = Ok [].
Proof.
  split.
  - destruct (setlistfm_lookups_never_raise Fixture.unconfigured 0
                (fun _ => Rejected) (fun _ => Rejected) "The Midnight" None)
      as [_ Hquiet].
    destruct (Hquiet eq_refl) as (Hsent & _). exact Hsent.
  - destruct (setlistfm_lookups_never_raise
                (Fixture.archive_env Fixture.archive_unavailable) 0
                (fun _ => Rejected) (fun _ => Rejected) "mbid-1" (Some 2))
      as [(_ & _ & Hres) _].
    rewrite Hres. reflexivity.
Defined.

(** X20. [extractSetlist] returns the names of the songs of all sets, in
    their order, leaving out the songs without a name: a name is returned
    exactly when it is not empty and is the name of a song of some set. *)
Theorem extractSetlist_named_songs (setlist : SetlistFmSetlist) :
  SetlistFmService.extractSetlist setlist
  = List.filter JS.truthy (map song_name (all_songs setlist))
  /\ (forall name : string,
        name ∈ SetlistFmService.extractSetlist setlist
        <-> name <> ""
            /\ exists song : SetlistFmSong,
                 song ∈ all_songs setlist /\ song_name song = name)
  /\ length (SetlistFmService.extractSetlist setlist)
     <= length (all_songs setlist).
Proof.
  assert (SetlistFmService.extractSetlist setlist
          = List.filter JS.truthy (map song_name (all_songs setlist))) as Heq.
  { unfold SetlistFmService.extractSetlist, all_songs.
    destruct (sl_sets setlist) as [sets|]; [|done].
    induction sets as [|set sets IH]; simpl; [done|].
    rewrite map_app, List.filter_app, IH. f_equal.
    by destruct (set_song set). }
  split; [done|]. split.
  - intros name. rewrite Heq. split.
    + intros [Hin Htruthy]%filter_elem. split; [by destruct name|].
      change (map ?f ?l) with (f <$> l) in Hin.
      apply list_elem_of_fmap in Hin as (song & -> & Hsong). by exists song.
    + intros [Hne (song & Hsong & <-)].
      apply list_elem_of_In, filter_In. split.
      * apply in_map. by apply list_elem_of_In.
      * by destruct (song_name song).
  - rewrite Heq. etrans; [apply filter_length_le|]. by rewrite length_map.
Qed.

(** X21. [searchHistoricalConcerts] never raises and returns at most
    [limit] records (20 when the limit is absent): the first ones of the
    setlists that [searchSetlists] returned for the search options it
    builds, each transformed. *)
Theorem searchHistoricalConcerts_first_setlists
    (env : Env) (t : nat) (options : HistoricalSearchOptions) :
  exists setlists : list SetlistFmSetlist,
    res (SetlistFmService.searchSetlists
           (SetlistFmLookups.searchOptions options) env t) = Ok setlists
    /\ res (SetlistFmLookups.searchHistoricalConcerts options env t)
       = Ok (take (JS.default_num (h_limit options) 20)
               (map SetlistFmService.transformSetlist setlists))
    /\ (sfm_failed env (SetlistFmLookups.searchOptions options) = true ->
        res (SetlistFmLookups.searchHistoricalConcerts options env t) = Ok []).
Proof.
  destruct (searchSetlists_ok env t (SetlistFmLookups.searchOptions options))
    as (setlists & Hrun & Hfail).
  exists setlists. split; [by rewrite Hrun|].
  assert (res (SetlistFmLookups.searchHistoricalConcerts options env t)
          = Ok (take (JS.default_num (h_limit options) 20)
                  (map SetlistFmService.transformSetlist setlists))) as Hres.
  { unfold SetlistFmLookups.searchHistoricalConcerts,
      SetlistFmLookups.searchHistoricalConcerts_try, Effect.try_catch,
      Effect.bind.
    rewrite Hrun. simpl. unfold JS.slice. by rewrite Nat.sub_0_r, drop_0. }
  split; [done|]. intros Hfailed. rewrite Hres, (Hfail Hfailed). simpl.
  by rewrite take_nil.
Qed.

Lemma searchHistoricalConcerts_first_setlists_witness :
  res (SetlistFmLookups.searchHistoricalConcerts
         {| h_search := Some "midnight"; h_artist := None; h_venue := None;
            h_city := None; h_year := None; h_limit := Some 1; h_page := None |}
         (Fixture.archive_env Fixture.two_setlists) 0)
  = Ok [SetlistFmService.transformSetlist (Fixture.setlist "s1" "05-03-2024")]
  /\ res (SetlistFmLookups.searchHistoricalConcerts
            {| h_search := Some "midnight"; h_artist := None; h_venue := None;
               h_city := None; h_year := None; h_limit := Some 1; h_page := None |}
            (Fixture.archive_env Fixture.archive_unavailable) 0)
     = Ok [].
Proof.
  split.
  - destruct (searchHistoricalConcerts_first_setlists
                (Fixture.archive_env Fixture.two_setlists) 0
                {| h_search := Some "midnight"; h_artist := None;
                   h_venue := None; h_city := None; h_year := None;
                   h_limit := Some 1; h_page := None |})
      as (setlists & Hsearch & Hres & _).
    rewrite Hres. vm_compute in Hsearch. injection Hsearch as <-. reflexivity.
  - destruct (searchHistoricalConcerts_first_setlists
                (Fixture.archive_env Fixture.archive_unavailable) 0
                {| h_search := Some "midnight"; h_artist := None;
                   h_venue := None; h_city := None; h_year := None;
                   h_limit := Some 1; h_page := None |})
      as (setlists & _ & _ & Hfail).
    apply Hfail. reflexivity.
Defined.

Lemma string_app_assoc (a b c : string) : (a +:+ b) +:+ c = a +:+ (b +:+ c).
Proof.
  induction a as [|x a IH]; [done|].
  change (String x ((a +:+ b) +:+ c) = String x (a +:+ (b +:+ c))).
  by rewrite IH.
Qed.

(** X22. What the date conversion does with other numbers of components.
    A string with exactly one ['-'] is not passed through: its two parts are
    taken as day and month and the year is the text "undefined".  After the
    third component everything is ignored. *)
Theorem convertDateFormat_other_component_counts (a b c rest : string) :
  dash_free a = true ->
  dash_free b = true ->
  dash_free c = true ->
  SetlistFmService.convertDateFormat (a +:+ "-" +:+ b)
  = dmy "undefined" (JS.padStart 2 SetlistFmService.zero b)
                    (JS.padStart 2 SetlistFmService.zero a)
  /\ SetlistFmService.convertDateFormat (dmy a b c +:+ "-" +:+ rest)
     = SetlistFmService.convertDateFormat (dmy a b c).
Proof.
  intros Ha Hb Hc. split.
  - unfold SetlistFmService.convertDateFormat,
      SetlistFmService.convertDateFormat_try.
    change (a +:+ "-" +:+ b) with (a +:+ String SetlistFmService.dash b).
    by rewrite (split_at_dash _ _ Ha), (split_dash_free _ Hb).
  - rewrite (convertDateFormat_dmy _ _ _ Ha Hb Hc).
    unfold SetlistFmService.convertDateFormat,
      SetlistFmService.convertDateFormat_try, dmy.
    assert ((a +:+ "-" +:+ b +:+ "-" +:+ c) +:+ "-" +:+ rest
            = a +:+ String SetlistFmService.dash
                (b +:+ String SetlistFmService.dash
                   (c +:+ String SetlistFmService.dash rest))) as ->.
    { rewrite !string_app_assoc. reflexivity. }
    rewrite (split_at_dash _ _ Ha), (split_at_dash _ _ Hb),
      (split_at_dash _ _ Hc).
    reflexivity.
Qed.

Lemma convertDateFormat_other_component_counts_witness :
  SetlistFmService.convertDateFormat "05-2024" = "undefined-2024-05"
  /\ SetlistFmService.convertDateFormat "05-03-2024-extra"
     = SetlistFmService.convertDateFormat "05-03-2024".
Proof.
  destruct (convertDateFormat_other_component_counts "05" "2024" "x" "y")
    as [Hone _]; [reflexivity..|].
  destruct (convertDateFormat_other_component_counts "05" "03" "2024" "extra")
    as [_ Hmore]; [reflexivity..|].
  split; [exact Hone | exact Hmore].
Defined.

(** X23. The conversion does not recognise a date it has converted: applied
    to its own result for a date DD-MM-YYYY it gives the native date back. *)
Theorem convertDateFormat_twice (d m y : string) :
  digits 2 d = true ->
  digits 2 m = true ->
  digits 4 y = true ->
  SetlistFmService.convertDateFormat
    (SetlistFmService.convertDateFormat (dmy d m y))
  = dmy d m y.
Proof.
  intros Hd Hm Hy.
  pose proof (digits_dash_free _ _ Hd) as Hd'.
  pose proof (digits_dash_free _ _ Hm) as Hm'.
  pose proof (digits_dash_free _ _ Hy) as Hy'.
  rewrite (convertDateFormat_dmy _ _ _ Hd' Hm' Hy').
  rewrite (padStart_two _ Hd), (padStart_two _ Hm).
  rewrite (convertDateFormat_dmy _ _ _ Hy' Hm' Hd').
  rewrite (padStart_two _ Hm). f_equal.
  unfold JS.padStart. by rewrite (digits_length _ _ Hy).
Qed.

Lemma convertDateFormat_twice_witness :
  SetlistFmService.convertDateFormat "2024-03-05" = "05-03-2024".
Proof.
  exact (convertDateFormat_twice "05" "03" "2024" eq_refl eq_refl eq_refl).
Defined.

(** ** The store as a state *)

Lemma find_app {A} (f : A -> bool) (l1 l2 : list A) :
  List.find f (l1 ++ l2)
  = match List.find f l1 with
    | Some x => Some x
    | None => List.find f l2
    end.
Proof.
  induction l1 as [|x l1 IH]; simpl; [done|]. by destruct (f x).
Qed.

Lemma getConcert_None d i : Store.getConcert d i = None <-> i ∉ store_ids d.
Proof.
  unfold Store.getConcert, store_ids. split.
  - intros Hnone Hin. change (map ?f ?l) with (f <$> l) in Hin.
    apply list_elem_of_fmap in Hin as (c & -> & Hc).
    apply list_elem_of_In in Hc.
    apply (find_none _ _ Hnone) in Hc. by rewrite String.eqb_refl in Hc.
  - intros Hout. destruct (List.find _ _) as [c|] eqn:Hfind; [|done].
    apply find_some in Hfind as [Hc Heq]. apply String.eqb_eq in Heq.
    exfalso. apply Hout. rewrite <- Heq. change (map ?f ?l) with (f <$> l).
    apply list_elem_of_fmap. exists c. split; [done|]. by apply list_elem_of_In.
Qed.

Lemma getConcert_Some d i c :
  Store.getConcert d i = Some c -> c ∈ concerts d /\ id (c_base c) = i.
Proof.
  unfold Store.getConcert. intros [Hc Heq]%find_some.
  split; [by apply list_elem_of_In|]. by apply String.eqb_eq.
Qed.

(** X24. The insertion that the review route makes before a review is
    stored.  Under the primary key of the store it never fails; afterwards
    the concert of the request is in the store under its own id; a concert
    that was there is left as it was, as is every other concert and every
    review; the primary key still holds; and doing it again changes
    nothing. *)
Theorem ensureConcert_upserts
    (concert : ConcertPayload) (now later : Z) (d : Database) :
  primary_key d ->
  exists d' : Database,
    Store.ensureConcert (Some concert) now d = Done d'
    /\ primary_key d'
    /\ reviews d' = reviews d
    /\ (exists row : Concert,
          Store.getConcert d' (p_id concert) = Some row
          /\ (Store.getConcert d (p_id concert) = None ->
              row = Store.row_of_payload concert now))
    /\ (forall i : string,
          is_Some (Store.getConcert d i) ->
          Store.getConcert d' i = Store.getConcert d i)
    /\ (forall i : string,
          i <> p_id concert -> Store.getConcert d' i = Store.getConcert d i)
    /\ (is_Some (Store.getConcert d (p_id concert)) -> d' = d)
    /\ Store.ensureConcert (Some concert) later d' = Done d'.
Proof.
  intros Hkey. unfold Store.ensureConcert.
  destruct (Store.getConcert d (p_id concert)) as [row|] eqn:Hget.
  - exists d. rewrite Hget. repeat split; try done. by exists row.
  - unfold Store.insert_concert. simpl. rewrite Hget.
    set (row := Store.row_of_payload concert now).
    set (d' := {| concerts := concerts d ++ [row]; reviews := reviews d |}).
    assert (Store.getConcert d' (p_id concert) = Some row) as Hnew.
    { unfold Store.getConcert, d'. simpl. rewrite find_app.
      unfold Store.getConcert in Hget. rewrite Hget. simpl.
      by rewrite String.eqb_refl. }
    exists d'. rewrite Hnew.
    split; [done|]. split; [|split; [done|split; [by exists row|]]].
    + unfold primary_key, d'. simpl.
      change (map ?f ?l) with (f <$> l). rewrite fmap_app.
      apply NoDup_app. split; [exact Hkey|]. split; [|apply NoDup_singleton].
      intros i Hi [->|[]%elem_of_nil]%elem_of_cons.
      by apply (proj1 (getConcert_None d (p_id concert)) Hget).
    + split; [|split; [|split; [by intros [? ?]|done]]].
      * intros i [c Hc]. unfold Store.getConcert, d'. simpl.
        rewrite find_app. unfold Store.getConcert in Hc. by rewrite Hc.
      * intros i Hne. unfold Store.getConcert, d'. simpl. rewrite find_app.
        destruct (List.find _ (concerts d)); [done|]. simpl.
        destruct (String.eqb_spec (p_id concert) i); [congruence|done].
Qed.

Lemma ensureConcert_upserts_witness :
  exists d' : Database,
    Store.ensureConcert (Some (Sample.payload "tm_123")) 300 Fixture.catalogue
    = Done d'
    /\ store_ids d' = ["c1"; "c2"; "tm_123"]
    /\ Store.ensureConcert (Some (Sample.payload "tm_123")) 400 d' = Done d'.
Proof.
  assert (primary_key Fixture.catalogue) as Hkey.
  { apply (bool_decide_unpack _). vm_compute. exact I. }
  destruct (ensureConcert_upserts (Sample.payload "tm_123") 300 400
              Fixture.catalogue Hkey) as (d' & Hrun & _ & _ & _ & _ & _ & _ & Hagain).
  exists d'. split; [exact Hrun|]. split; [|exact Hagain].
  vm_compute in Hrun. injection Hrun as <-. reflexivity.
Defined.

Lemma find_filter_other {A} (f g : A -> bool) (l : list A) :
  (forall x, f x = true -> g x = true) ->
  List.find f (List.filter g l) = List.find f l.
Proof.
  intros Hfg. induction l as [|x l IH]; simpl; [done|].
  destruct (g x) eqn:Hg; simpl.
  - by destruct (f x).
  - destruct (f x) eqn:Hf; [|done]. apply Hfg in Hf. congruence.
Qed.

(** X25. [deleteConcert] removes the concert with the given id and its
    reviews, and nothing else.  It answers whether a concert was removed;
    afterwards the id is not found, no review refers to it, and no result of
    [getConcerts] holds it; every other concert and its reviews are as
    before; the primary key and the foreign key of the reviews still
    hold. *)
Theorem deleteConcert_removes (d : Database) (i : string) :
  primary_key d ->
  no_orphans d ->
  let d' := (Store.deleteConcert d i).1 in
  ((Store.deleteConcert d i).2 = true <-> is_Some (Store.getConcert d i))
  /\ Store.getConcert d' i = None
  /\ (forall r : Review, r ∈ reviews d' -> r_concertId r <> i)
  /\ (forall j : string, j <> i -> Store.getConcert d' j = Store.getConcert d j)
  /\ (forall r : Review,
        r_concertId r <> i -> (r ∈ reviews d' <-> r ∈ reviews d))
  /\ primary_key d'
  /\ no_orphans d'
  /\ (forall (o : QueryOptions) (c : ConcertWithRating),
        c ∈ PostgresStorage.select_concerts d' o -> id (base c) <> i).
Proof.
  intros Hkey Horphans. simpl.
  set (d' := {| concerts := List.filter _ (concerts d);
                reviews := List.filter _ (reviews d) |}).
  assert (forall c, c ∈ concerts d' <-> c ∈ concerts d /\ id (c_base c) <> i)
    as Hconcerts.
  { intros c. unfold d'. simpl. rewrite !list_elem_of_In, filter_In.
    rewrite negb_true_iff. split; intros [H1 H2]; (split; [done|]).
    - intros Heq. apply String.eqb_neq in H2. done.
    - by apply String.eqb_neq. }
  assert (forall r, r ∈ reviews d' <-> r ∈ reviews d /\ r_concertId r <> i)
    as Hreviews.
  { intros r. unfold d'. simpl. rewrite !list_elem_of_In, filter_In.
    rewrite negb_true_iff. split; intros [H1 H2]; (split; [done|]).
    - intros Heq. apply String.eqb_neq in H2. done.
    - by apply String.eqb_neq. }
  assert (Store.getConcert d' i = None) as Hgone.
  { apply getConcert_None. unfold store_ids.
    change (map ?f ?l) with (f <$> l).
    intros (c & -> & Hc)%list_elem_of_fmap. by apply Hconcerts in Hc as [_ Hne]. }
  split; [|split; [done|split; [|split; [|split; [|split; [|split]]]]]].
  - rewrite Nat.ltb_lt. unfold Store.getConcert.
    destruct (List.find _ (concerts d)) as [c|] eqn:Hfind.
    + split; [by eauto|]. intros _.
      apply find_some in Hfind as [Hc Heq].
      assert (In c (List.filter (fun c => String.eqb (id (c_base c)) i)
                      (concerts d))) as Hin by (by apply filter_In).
      destruct (List.filter (fun c => String.eqb (id (c_base c)) i)
                  (concerts d)); [destruct Hin|simpl; lia].
    + split; [|by intros [? ?]]. intros Hlen. exfalso.
      destruct (List.filter (fun c => String.eqb (id (c_base c)) i)
                  (concerts d)) as [|c rest] eqn:Hfilter; [simpl in Hlen; lia|].
      assert (In c (c :: rest)) as Hin by (by left).
      rewrite <- Hfilter in Hin. apply filter_In in Hin as [Hc Heq].
      apply (find_none _ _ Hfind) in Hc. congruence.
  - intros r Hr. by apply Hreviews in Hr as [_ Hne].
  - intros j Hne. unfold Store.getConcert, d'. simpl.
    apply find_filter_other. intros c Hc. apply String.eqb_eq in Hc.
    apply negb_true_iff, String.eqb_neq. congruence.
  - intros r Hne. destruct (Hreviews r) as [H1 H2]. split.
    + intros H. by apply H1 in H as [? ?].
    + intros H. by apply H2.
  - unfold primary_key, d'. simpl. change (map ?f ?l) with (f <$> l).
    eapply sublist_NoDup; [exact Hkey|]. apply fmap_sublist, filter_sublist.
  - intros r Hr. apply Hreviews in Hr as [Hr Hne].
    specialize (Horphans r Hr). unfold store_ids in *.
    change (map ?f ?l) with (f <$> l) in *.
    apply list_elem_of_fmap in Horphans as (c & Heq & Hc).
    apply list_elem_of_fmap. exists c. split; [done|].
    apply Hconcerts. split; [done|]. congruence.
  - intros o c Hc. apply select_concerts_rows in Hc as (row & Hrow & ->).
    apply Hconcerts in Hrow as [_ Hne]. exact Hne.
Qed.

Lemma deleteConcert_removes_witness :
  Store.deleteConcert Fixture.catalogue "c1"
  = ({| concerts := [Fixture.concert "c2" "Daylight" 100]; reviews := [] |}, true)
  /\ Store.getConcert (Store.deleteConcert Fixture.catalogue "c1").1 "c1" = None
  /\ no_orphans (Store.deleteConcert Fixture.catalogue "c1").1.
Proof.
  assert (primary_key Fixture.catalogue) as Hkey.
  { apply (bool_decide_unpack _). vm_compute. exact I. }
  assert (no_orphans Fixture.catalogue) as Horphans.
  { intros r Hr. repeat (apply elem_of_cons in Hr as [->|Hr]);
      [left|left|by apply elem_of_nil in Hr]. }
  destruct (deleteConcert_removes Fixture.catalogue "c1" Hkey Horphans)
    as (_ & Hgone & _ & _ & _ & _ & Hfk & _).
  split; [reflexivity|]. split; [exact Hgone | exact Hfk].
Defined.
